(** * The bitum plugin of the politeiad cockroachdb cache

    A shallow embedding of [politeiad/cache/cockroachdb/bitum.go]: the command
    handlers, the dispatcher [Exec], the rebuild entry point [Build] and the
    vote tally of [newVoteResults], over an explicit model of the relational
    store the handlers talk to; and the plugin commands of the test cache
    (package [testcache]), over Go maps. *)

From Stdlib Require Import ZArith String Ascii List Lia.
From Stdlib Require Import Floats.SpecFloat.
From stdpp Require Import base tactics option list strings gmap sorting.

Open Scope Z_scope.

(** ** Go values used by the plugin *)

Module Go.

(** Go's [error] values.  The sentinels are compared by identity in the
    source ([err == gorm.ErrRecordNotFound]); every other error (driver
    errors, codec errors, [fmt.Errorf] results) is an [errorString]. *)
Inductive error : Type :=
| gorm_ErrRecordNotFound
| cache_ErrRecordNotFound
| cache_ErrInvalidPluginCmd
| cache_ErrNoVersionRecord
| cache_ErrWrongVersion
| errorString (msg : string).

#[global] Instance error_eq_dec : EqDecision error.
Proof. solve_decision. Defined.

(** [err.Error()], which is what the verb [%v] prints.  The texts of the
    sentinels are not in the sources at hand; nothing below depends on
    them. *)
Definition Error (e : error) : string :=
  match e with
  | gorm_ErrRecordNotFound => "record not found"
  | cache_ErrRecordNotFound => "record not found"
  | cache_ErrInvalidPluginCmd => "invalid plugin command"
  | cache_ErrNoVersionRecord => "no version record"
  | cache_ErrWrongVersion => "wrong version"
  | errorString msg => msg
  end.

(** [fmt.Errorf(prefix + "%v", err)]: a fresh error carrying only the text. *)
Definition Errorf (prefix : string) (e : error) : error :=
  errorString (prefix +:+ Error e).

(** A function result [(T, error)] of which the source reads the value only
    when the error is nil. *)
Inductive result (A : Type) : Type :=
| Ok (a : A)
| Err (e : error).
Arguments Ok {A} a.
Arguments Err {A} e.

(** [uint64] arithmetic wraps around. *)
Definition uint64_max : Z := 2 ^ 64 - 1.
Definition u64 (z : Z) : Z := z mod 2 ^ 64.

(** [strings.Split(s, sep)] for a one-byte separator: the pieces between the
    separators, so one more piece than there are separators. *)
Fixpoint Split (s : string) (sep : ascii) : list string :=
  match s with
  | EmptyString => [EmptyString]
  | String c rest =>
      if Ascii.eqb c sep then EmptyString :: Split rest sep
      else match Split rest sep with
           | [] => [String c EmptyString]
           | piece :: pieces => String c piece :: pieces
           end
  end.

(** [strings.Count(s, string(sep))]. *)
Fixpoint Count (s : string) (sep : ascii) : nat :=
  match s with
  | EmptyString => O
  | String c rest => if Ascii.eqb c sep then S (Count rest sep) else Count rest sep
  end.

(** [strings.Join(elems, string(sep))]. *)
Fixpoint Join (elems : list string) (sep : ascii) : string :=
  match elems with
  | [] => EmptyString
  | [e] => e
  | e :: rest => e +:+ String sep (Join rest sep)
  end.

(** One digit of [strconv.FormatUint], lower case as Go prints it. *)
Definition digit (d : Z) : ascii :=
  if d <? 10 then ascii_of_N (Z.to_N (48 + d)) else ascii_of_N (Z.to_N (87 + d)).

Fixpoint format_digits (fuel : nat) (base x : Z) (acc : string) : string :=
  match fuel with
  | O => acc
  | S fuel' =>
      let acc' := String (digit (x mod base)) acc in
      if x / base =? 0 then acc' else format_digits fuel' base (x / base) acc'
  end.

(** [strconv.FormatUint(x, base)] for a [uint64] (at most 64 digits). *)
Definition FormatUint (x base : Z) : string := format_digits 64 base x EmptyString.

(** [strconv.ParseUint(s, 10, 64)]: decimal digits only, no sign, not empty,
    and the value must fit 64 bits. *)
Definition digit_value (c : ascii) : option Z :=
  let n := Z.of_N (N_of_ascii c) in
  if (48 <=? n) && (n <=? 57) then Some (n - 48) else None.

Fixpoint parse_digits (s : string) (acc : Z) : result Z :=
  match s with
  | EmptyString => Ok acc
  | String c rest =>
      match digit_value c with
      | None => Err (errorString "strconv.ParseUint: invalid syntax")
      | Some d =>
          let acc' := acc * 10 + d in
          if uint64_max <? acc' then Err (errorString "strconv.ParseUint: value out of range")
          else parse_digits rest acc'
      end
  end.

Definition ParseUint (s : string) : result Z :=
  match s with
  | EmptyString => Err (errorString "strconv.ParseUint: invalid syntax")
  | _ => parse_digits s 0
  end.

(** [float64] is IEEE 754 binary64, with the operations of the Standard
    Library's executable specification of floating-point numbers. *)
Definition prec : Z := 53.
Definition emax : Z := 1024.
Definition float64 : Type := spec_float.

(** The conversion [float64(n)] of a non-negative integer: round to nearest,
    ties to even. *)
Definition float64_of_int (n : Z) : float64 := binary_normalize prec emax n 0 false.
Definition fdiv (x y : float64) : float64 := SFdiv prec emax x y.
Definition fmul (x y : float64) : float64 := SFmul prec emax x y.

(** The conversion [uint64(f)]: the fraction is discarded.  Go leaves the
    result open when the value does not fit; amd64 gives [2^63] there, and
    no statement below depends on that case. *)
Definition uint64_of_float64 (f : float64) : Z :=
  match f with
  | S754_zero _ => 0
  | S754_finite false m e =>
      let v := if 0 <=? e then Z.pos m * 2 ^ e else Z.pos m / 2 ^ (- e) in
      if v <=? uint64_max then v else 2 ^ 63
  | _ => 2 ^ 63
  end.

End Go.

Import Go.

(** ** The plugin's wire types *)

(** Modelled from the spec: package [bitumplugin] (the command names, the
    payload structures of section 6 and the entities of section 3) is not
    part of the sources at hand.  Each structure carries the fields the
    handlers read or write, plus the ones the data model of the spec lists. *)
Module bitumplugin.

Definition ID : string := "bitum".

Definition CmdAuthorizeVote : string := "authorizevote".
Definition CmdStartVote : string := "startvote".
Definition CmdVoteDetails : string := "votedetails".
Definition CmdBallot : string := "ballot".
Definition CmdBestBlock : string := "bestblock".
Definition CmdNewComment : string := "newcomment".
Definition CmdLikeComment : string := "likecomment".
Definition CmdCensorComment : string := "censorcomment".
Definition CmdGetComment : string := "getcomment".
Definition CmdGetComments : string := "getcomments".
Definition CmdProposalVotes : string := "proposalvotes".
Definition CmdCommentLikes : string := "commentlikes".
Definition CmdProposalCommentsLikes : string := "proposalcommentslikes".
Definition CmdInventory : string := "inventory".
Definition CmdLoadVoteResults : string := "loadvoteresults".
Definition CmdTokenInventory : string := "tokeninventory".
Definition CmdVoteSummary : string := "votesummary".

Definition AuthVoteActionAuthorize : string := "authorize".

Module NewComment.
Record t := { Token : string; ParentID : string; Comment : string;
              Signature : string; PublicKey : string }.
End NewComment.

Module NewCommentReply.
Record t := { CommentID : string; Receipt : string; Timestamp : Z }.
End NewCommentReply.

Module Comment.
Record t := { Token : string; ParentID : string; Comment : string;
              Signature : string; PublicKey : string; CommentID : string;
              Receipt : string; Timestamp : Z; TotalVotes : Z;
              ResultVotes : Z; Censored : bool }.
End Comment.

Module LikeComment.
Record t := { Token : string; CommentID : string; Action : string;
              Signature : string; PublicKey : string; Receipt : string;
              Timestamp : Z }.
End LikeComment.

Module CensorComment.
Record t := { Token : string; CommentID : string; Reason : string;
              Signature : string; PublicKey : string }.
End CensorComment.

Module GetComment.
Record t := { Token : string; CommentID : string }.
End GetComment.

Module GetComments.
Record t := { Token : string }.
End GetComments.

Module CommentLikes.
Record t := { Token : string; CommentID : string }.
End CommentLikes.

Module GetProposalCommentsLikes.
Record t := { Token : string }.
End GetProposalCommentsLikes.

Module AuthorizeVote.
Record t := { Action : string; Token : string; Signature : string;
              PublicKey : string; Receipt : string; Timestamp : Z }.
End AuthorizeVote.

Module AuthorizeVoteReply.
Record t := { Action : string; RecordVersion : string; Receipt : string;
              Timestamp : Z }.
End AuthorizeVoteReply.

Module VoteOption.
Record t := { Id : string; Description : string; Bits : Z }.
End VoteOption.

Module Vote.
Record t := { Token : string; Mask : Z; Duration : Z; QuorumPercentage : Z;
              PassPercentage : Z; Options : list VoteOption.t }.
End Vote.

Module StartVote.
Record t := { PublicKey : string; Vote : Vote.t; Signature : string }.
End StartVote.

Module StartVoteReply.
Record t := { StartBlockHeight : string; StartBlockHash : string;
              EndHeight : string; EligibleTickets : list string }.
End StartVoteReply.

Module StartVoteTuple.
Record t := { StartVote : StartVote.t; StartVoteReply : StartVoteReply.t }.
End StartVoteTuple.

Module CastVote.
Record t := { Token : string; Ticket : string; VoteBit : string;
              Signature : string }.
End CastVote.

Module Ballot.
Record t := { Votes : list CastVote.t }.
End Ballot.

Module VoteDetails.
Record t := { Token : string }.
End VoteDetails.

Module VoteResults.
Record t := { Token : string }.
End VoteResults.

Module VoteSummary.
Record t := { Token : string }.
End VoteSummary.

Module LoadVoteResults.
Record t := { BestBlock : Z }.
End LoadVoteResults.

Module TokenInventory.
Record t := { BestBlock : Z }.
End TokenInventory.

Module InventoryReply.
Record t := { Comments : list Comment.t;
              LikeComments : list LikeComment.t;
              AuthorizeVotes : list AuthorizeVote.t;
              AuthorizeVoteReplies : list AuthorizeVoteReply.t;
              StartVoteTuples : list StartVoteTuple.t;
              CastVotes : list CastVote.t }.
End InventoryReply.

Module GetCommentReply.
Record t := { Comment : Comment.t }.
End GetCommentReply.

Module GetCommentsReply.
Record t := { Comments : list Comment.t }.
End GetCommentsReply.

Module CommentLikesReply.
Record t := { CommentLikes : list LikeComment.t }.
End CommentLikesReply.

Module GetProposalCommentsLikesReply.
Record t := { CommentsLikes : list LikeComment.t }.
End GetProposalCommentsLikesReply.

Module VoteDetailsReply.
Record t := { AuthorizeVote : AuthorizeVote.t; StartVote : StartVote.t;
              StartVoteReply : StartVoteReply.t }.
End VoteDetailsReply.

Module VoteResultsReply.
Record t := { StartVote : StartVote.t; CastVotes : list CastVote.t }.
End VoteResultsReply.

Module VoteOptionResult.
Record t := { ID : string; Description : string; Bits : Z; Votes : Z }.
End VoteOptionResult.

Module VoteSummaryReply.
Record t := { Authorized : bool; EndHeight : string; EligibleTicketCount : Z;
              QuorumPercentage : Z; PassPercentage : Z;
              Results : list VoteOptionResult.t }.
End VoteSummaryReply.

Module TokenInventoryReply.
Record t := { Pre : list string; Active : list string; Approved : list string;
              Rejected : list string; Abandoned : list string }.
End TokenInventoryReply.

Module LoadVoteResultsReply.
Record t := { }.
End LoadVoteResultsReply.

(** Modelled from the spec: the Command Codec ("serializes/deserializes
    opaque command and reply payloads", an external dependency).  The
    handlers are written against this interface, so every statement about
    them holds for every codec. *)
Class Codec := {
  DecodeNewComment : string -> result NewComment.t;
  DecodeNewCommentReply : string -> result NewCommentReply.t;
  DecodeLikeComment : string -> result LikeComment.t;
  DecodeCensorComment : string -> result CensorComment.t;
  DecodeGetComment : string -> result GetComment.t;
  DecodeGetComments : string -> result GetComments.t;
  DecodeCommentLikes : string -> result CommentLikes.t;
  DecodeGetProposalCommentsLikes : string -> result GetProposalCommentsLikes.t;
  DecodeAuthorizeVote : string -> result AuthorizeVote.t;
  DecodeAuthorizeVoteReply : string -> result AuthorizeVoteReply.t;
  DecodeStartVote : string -> result StartVote.t;
  DecodeStartVoteReply : string -> result StartVoteReply.t;
  DecodeVoteDetails : string -> result VoteDetails.t;
  DecodeBallot : string -> result Ballot.t;
  DecodeVoteResults : string -> result VoteResults.t;
  DecodeLoadVoteResults : string -> result LoadVoteResults.t;
  DecodeTokenInventory : string -> result TokenInventory.t;
  DecodeVoteSummary : string -> result VoteSummary.t;
  DecodeInventoryReply : string -> result InventoryReply.t;
  EncodeGetCommentReply : GetCommentReply.t -> result string;
  EncodeGetCommentsReply : GetCommentsReply.t -> result string;
  EncodeCommentLikesReply : CommentLikesReply.t -> result string;
  EncodeGetProposalCommentsLikesReply :
    GetProposalCommentsLikesReply.t -> result string;
  EncodeVoteDetailsReply : VoteDetailsReply.t -> result string;
  EncodeVoteResultsReply : VoteResultsReply.t -> result string;
  EncodeInventoryReply : InventoryReply.t -> result string;
  EncodeLoadVoteResultsReply : LoadVoteResultsReply.t -> result string;
  EncodeTokenInventoryReply : TokenInventoryReply.t -> result string;
  EncodeVoteSummaryReply : VoteSummaryReply.t -> result string
}.

End bitumplugin.

(** Modelled from the spec: the record statuses of the politeiad API
    (package [pd]), of which the classifier uses "public" and "archived". *)
Module pd.
Inductive RecordStatusT : Type :=
| RecordStatusInvalid
| RecordStatusNotFound
| RecordStatusNotReviewed
| RecordStatusCensored
| RecordStatusPublic
| RecordStatusUnreviewedChanges
| RecordStatusArchived.

#[global] Instance RecordStatusT_eq_dec : EqDecision RecordStatusT.
Proof. solve_decision. Defined.
End pd.

(** ** The cache's rows *)

(** The row structures of the cache (the models of package [cockroachdb])
    are not part of the sources at hand.  Their fields are the ones
    [bitum.go] names, completed from the data model of the spec
    (section 3). *)

(** Modelled from the spec: the row of a comment, "identified by (token,
    commentID)", with "author identity, parent comment id, message text,
    timestamp, censored flag, up/down vote counts". *)
Module Comment.
Record t := { Key : string; Token : string; ParentID : string;
              Comment : string; Signature : string; PublicKey : string;
              CommentID : string; Receipt : string; Timestamp : Z;
              TotalVotes : Z; ResultVotes : Z; Censored : bool }.
End Comment.

(** Modelled from the spec: the row of a comment like ("one row per
    (voter, token, commentID, timestamp) like/dislike action"). *)
Module LikeComment.
Record t := { Token : string; CommentID : string; Action : string;
              Signature : string; PublicKey : string; Receipt : string;
              Timestamp : Z }.
End LikeComment.

(** Modelled from the spec: the row of an authorize vote, "keyed by
    token + recordVersion". *)
Module AuthorizeVote.
Record t := { Key : string; Token : string; Version : Z; Action : string;
              Signature : string; PublicKey : string; Receipt : string;
              Timestamp : Z }.

(** The zero value a failed lookup leaves in [var av AuthorizeVote]. *)
Definition zero : t :=
  {| Key := ""; Token := ""; Version := 0; Action := ""; Signature := "";
     PublicKey := ""; Receipt := ""; Timestamp := 0 |}.
End AuthorizeVote.

(** Modelled from the spec: a vote option, "with an id, description, and
    a distinct bit flag", and the token of its start vote. *)
Module VoteOption.
Record t := { Token : string; ID : string; Description : string; Bits : Z }.
End VoteOption.

(** Modelled from the spec: the row of a start vote with "its companion
    reply data (end height, eligible-ticket list, quorum percentage, pass
    percentage)", keyed by token.  [bitum.go] reads both the ticket string
    and the ticket count. *)
Module StartVote.
Record t := { Token : string; Mask : Z; Duration : Z; QuorumPercentage : Z;
              PassPercentage : Z; Options : list VoteOption.t;
              PublicKey : string; Signature : string;
              StartBlockHeight : string; StartBlockHash : string;
              EndHeight : Z; EligibleTickets : string;
              EligibleTicketCount : Z }.

Definition zero : t :=
  {| Token := ""; Mask := 0; Duration := 0; QuorumPercentage := 0;
     PassPercentage := 0; Options := []; PublicKey := ""; Signature := "";
     StartBlockHeight := ""; StartBlockHash := ""; EndHeight := 0;
     EligibleTickets := ""; EligibleTicketCount := 0 |}.
End StartVote.

(** Modelled from the spec: the row of a cast vote, "storing the chosen
    option's bit value"; [bitum.go] queries the column [token_vote_bit]. *)
Module CastVote.
Record t := { Token : string; Ticket : string; VoteBit : string;
              Signature : string; TokenVoteBit : string }.
End CastVote.

(** Modelled from the spec: the tally of one option; the three fields are
    the ones [newVoteResults] fills. *)
Module VoteOptionResult.
Record t := { Key : string; Votes : Z; Option : VoteOption.t }.
End VoteOptionResult.

(** Modelled from the spec: the vote results of a token, the fields
    [newVoteResults] fills. *)
Module VoteResults.
Record t := { Token : string; Approved : bool;
              Results : list VoteOptionResult.t }.
End VoteResults.

(** Modelled from the spec: the version record, "{pluginID,
    versionString, unixTimestamp}". *)
Module Version.
Record t := { ID : string; Version : string; Timestamp : Z }.

Definition zero : t := {| ID := ""; Version := ""; Timestamp := 0 |}.
End Version.

(** Modelled from the spec: the rows of the [records] table (the [Record]
    structure of the cache, a reserved word here, hence the name), with the
    columns the queries of [bitum.go] name. *)
Module RecordRow.
Record t := { Token : string; Version : Z; Status : pd.RecordStatusT;
              Timestamp : Z }.
End RecordRow.

(** ** Conversions between wire types and rows *)

(** The [convert...] functions of package [cockroachdb] are not part of
    the sources at hand.  They "map source-domain fields to cache-storage
    fields"; the keys are the ones of the data model: [token + commentID]
    for a comment, [token + recordVersion] for an authorize vote, and the
    eligible tickets are kept comma-separated. *)

(** Modelled from the spec: the row of a new comment, from the command and
    the reply of the source. *)
Definition convertNewCommentFromBitum (nc : bitumplugin.NewComment.t)
    (ncr : bitumplugin.NewCommentReply.t) : Comment.t :=
  {| Comment.Key := bitumplugin.NewComment.Token nc
                    +:+ bitumplugin.NewCommentReply.CommentID ncr;
     Comment.Token := bitumplugin.NewComment.Token nc;
     Comment.ParentID := bitumplugin.NewComment.ParentID nc;
     Comment.Comment := bitumplugin.NewComment.Comment nc;
     Comment.Signature := bitumplugin.NewComment.Signature nc;
     Comment.PublicKey := bitumplugin.NewComment.PublicKey nc;
     Comment.CommentID := bitumplugin.NewCommentReply.CommentID ncr;
     Comment.Receipt := bitumplugin.NewCommentReply.Receipt ncr;
     Comment.Timestamp := bitumplugin.NewCommentReply.Timestamp ncr;
     Comment.TotalVotes := 0;
     Comment.ResultVotes := 0;
     Comment.Censored := false |}.

(** Modelled from the spec: the row of a comment of an inventory. *)
Definition convertCommentFromBitum (c : bitumplugin.Comment.t) : Comment.t :=
  {| Comment.Key := bitumplugin.Comment.Token c
                    +:+ bitumplugin.Comment.CommentID c;
     Comment.Token := bitumplugin.Comment.Token c;
     Comment.ParentID := bitumplugin.Comment.ParentID c;
     Comment.Comment := bitumplugin.Comment.Comment c;
     Comment.Signature := bitumplugin.Comment.Signature c;
     Comment.PublicKey := bitumplugin.Comment.PublicKey c;
     Comment.CommentID := bitumplugin.Comment.CommentID c;
     Comment.Receipt := bitumplugin.Comment.Receipt c;
     Comment.Timestamp := bitumplugin.Comment.Timestamp c;
     Comment.TotalVotes := bitumplugin.Comment.TotalVotes c;
     Comment.ResultVotes := bitumplugin.Comment.ResultVotes c;
     Comment.Censored := bitumplugin.Comment.Censored c |}.

(** Modelled from the spec: a comment row as the plugin sends it. *)
Definition convertCommentToBitum (c : Comment.t) : bitumplugin.Comment.t :=
  {| bitumplugin.Comment.Token := Comment.Token c;
     bitumplugin.Comment.ParentID := Comment.ParentID c;
     bitumplugin.Comment.Comment := Comment.Comment c;
     bitumplugin.Comment.Signature := Comment.Signature c;
     bitumplugin.Comment.PublicKey := Comment.PublicKey c;
     bitumplugin.Comment.CommentID := Comment.CommentID c;
     bitumplugin.Comment.Receipt := Comment.Receipt c;
     bitumplugin.Comment.Timestamp := Comment.Timestamp c;
     bitumplugin.Comment.TotalVotes := Comment.TotalVotes c;
     bitumplugin.Comment.ResultVotes := Comment.ResultVotes c;
     bitumplugin.Comment.Censored := Comment.Censored c |}.

(** Modelled from the spec: the row of a comment like. *)
Definition convertLikeCommentFromBitum (lc : bitumplugin.LikeComment.t)
    : LikeComment.t :=
  {| LikeComment.Token := bitumplugin.LikeComment.Token lc;
     LikeComment.CommentID := bitumplugin.LikeComment.CommentID lc;
     LikeComment.Action := bitumplugin.LikeComment.Action lc;
     LikeComment.Signature := bitumplugin.LikeComment.Signature lc;
     LikeComment.PublicKey := bitumplugin.LikeComment.PublicKey lc;
     LikeComment.Receipt := bitumplugin.LikeComment.Receipt lc;
     LikeComment.Timestamp := bitumplugin.LikeComment.Timestamp lc |}.

(** Modelled from the spec: a comment like as the plugin sends it. *)
Definition convertLikeCommentToBitum (lc : LikeComment.t)
    : bitumplugin.LikeComment.t :=
  {| bitumplugin.LikeComment.Token := LikeComment.Token lc;
     bitumplugin.LikeComment.CommentID := LikeComment.CommentID lc;
     bitumplugin.LikeComment.Action := LikeComment.Action lc;
     bitumplugin.LikeComment.Signature := LikeComment.Signature lc;
     bitumplugin.LikeComment.PublicKey := LikeComment.PublicKey lc;
     bitumplugin.LikeComment.Receipt := LikeComment.Receipt lc;
     bitumplugin.LikeComment.Timestamp := LikeComment.Timestamp lc |}.

(** Modelled from the spec: the row of an authorize vote, keyed by
    token + recordVersion. *)
Definition convertAuthorizeVoteFromBitum (av : bitumplugin.AuthorizeVote.t)
    (avr : bitumplugin.AuthorizeVoteReply.t) (version : Z) : AuthorizeVote.t :=
  {| AuthorizeVote.Key := bitumplugin.AuthorizeVote.Token av
                          +:+ bitumplugin.AuthorizeVoteReply.RecordVersion avr;
     AuthorizeVote.Token := bitumplugin.AuthorizeVote.Token av;
     AuthorizeVote.Version := version;
     AuthorizeVote.Action := bitumplugin.AuthorizeVote.Action av;
     AuthorizeVote.Signature := bitumplugin.AuthorizeVote.Signature av;
     AuthorizeVote.PublicKey := bitumplugin.AuthorizeVote.PublicKey av;
     AuthorizeVote.Receipt := bitumplugin.AuthorizeVoteReply.Receipt avr;
     AuthorizeVote.Timestamp := bitumplugin.AuthorizeVoteReply.Timestamp avr |}.

(** Modelled from the spec: an authorize vote as the plugin sends it. *)
Definition convertAuthorizeVoteToBitum (av : AuthorizeVote.t)
    : bitumplugin.AuthorizeVote.t :=
  {| bitumplugin.AuthorizeVote.Action := AuthorizeVote.Action av;
     bitumplugin.AuthorizeVote.Token := AuthorizeVote.Token av;
     bitumplugin.AuthorizeVote.Signature := AuthorizeVote.Signature av;
     bitumplugin.AuthorizeVote.PublicKey := AuthorizeVote.PublicKey av;
     bitumplugin.AuthorizeVote.Receipt := AuthorizeVote.Receipt av;
     bitumplugin.AuthorizeVote.Timestamp := AuthorizeVote.Timestamp av |}.

(** Modelled from the spec: the row of a vote option. *)
Definition convertVoteOptionFromBitum (token : string)
    (vo : bitumplugin.VoteOption.t) : VoteOption.t :=
  {| VoteOption.Token := token;
     VoteOption.ID := bitumplugin.VoteOption.Id vo;
     VoteOption.Description := bitumplugin.VoteOption.Description vo;
     VoteOption.Bits := bitumplugin.VoteOption.Bits vo |}.

(** Modelled from the spec: a vote option as the plugin sends it. *)
Definition convertVoteOptionToBitum (vo : VoteOption.t)
    : bitumplugin.VoteOption.t :=
  {| bitumplugin.VoteOption.Id := VoteOption.ID vo;
     bitumplugin.VoteOption.Description := VoteOption.Description vo;
     bitumplugin.VoteOption.Bits := VoteOption.Bits vo |}.

(** Modelled from the spec: the row of a start vote, with the end
    height parsed by the caller and the eligible tickets joined by commas. *)
Definition convertStartVoteFromBitum (sv : bitumplugin.StartVote.t)
    (svr : bitumplugin.StartVoteReply.t) (endHeight : Z) : StartVote.t :=
  let v := bitumplugin.StartVote.Vote sv in
  {| StartVote.Token := bitumplugin.Vote.Token v;
     StartVote.Mask := bitumplugin.Vote.Mask v;
     StartVote.Duration := bitumplugin.Vote.Duration v;
     StartVote.QuorumPercentage := bitumplugin.Vote.QuorumPercentage v;
     StartVote.PassPercentage := bitumplugin.Vote.PassPercentage v;
     StartVote.Options :=
       convertVoteOptionFromBitum (bitumplugin.Vote.Token v)
         <$> bitumplugin.Vote.Options v;
     StartVote.PublicKey := bitumplugin.StartVote.PublicKey sv;
     StartVote.Signature := bitumplugin.StartVote.Signature sv;
     StartVote.StartBlockHeight := bitumplugin.StartVoteReply.StartBlockHeight svr;
     StartVote.StartBlockHash := bitumplugin.StartVoteReply.StartBlockHash svr;
     StartVote.EndHeight := endHeight;
     StartVote.EligibleTickets :=
       Join (bitumplugin.StartVoteReply.EligibleTickets svr) ",";
     StartVote.EligibleTicketCount :=
       Z.of_nat (length (bitumplugin.StartVoteReply.EligibleTickets svr)) |}.

(** Modelled from the spec: a start vote and its reply as the plugin
    sends them. *)
Definition convertStartVoteToBitum (sv : StartVote.t)
    : bitumplugin.StartVote.t * bitumplugin.StartVoteReply.t :=
  ({| bitumplugin.StartVote.PublicKey := StartVote.PublicKey sv;
      bitumplugin.StartVote.Vote :=
        {| bitumplugin.Vote.Token := StartVote.Token sv;
           bitumplugin.Vote.Mask := StartVote.Mask sv;
           bitumplugin.Vote.Duration := StartVote.Duration sv;
           bitumplugin.Vote.QuorumPercentage := StartVote.QuorumPercentage sv;
           bitumplugin.Vote.PassPercentage := StartVote.PassPercentage sv;
           bitumplugin.Vote.Options :=
             convertVoteOptionToBitum <$> StartVote.Options sv |};
      bitumplugin.StartVote.Signature := StartVote.Signature sv |},
   {| bitumplugin.StartVoteReply.StartBlockHeight := StartVote.StartBlockHeight sv;
      bitumplugin.StartVoteReply.StartBlockHash := StartVote.StartBlockHash sv;
      bitumplugin.StartVoteReply.EndHeight := FormatUint (StartVote.EndHeight sv) 10;
      bitumplugin.StartVoteReply.EligibleTickets :=
        Split (StartVote.EligibleTickets sv) "," |}).

(** Modelled from the spec: the row of a cast vote. *)
Definition convertCastVoteFromBitum (cv : bitumplugin.CastVote.t) : CastVote.t :=
  {| CastVote.Token := bitumplugin.CastVote.Token cv;
     CastVote.Ticket := bitumplugin.CastVote.Ticket cv;
     CastVote.VoteBit := bitumplugin.CastVote.VoteBit cv;
     CastVote.Signature := bitumplugin.CastVote.Signature cv;
     CastVote.TokenVoteBit := bitumplugin.CastVote.Token cv
                              +:+ bitumplugin.CastVote.VoteBit cv |}.

(** Modelled from the spec: a cast vote as the plugin sends it. *)
Definition convertCastVoteToBitum (cv : CastVote.t) : bitumplugin.CastVote.t :=
  {| bitumplugin.CastVote.Token := CastVote.Token cv;
     bitumplugin.CastVote.Ticket := CastVote.Ticket cv;
     bitumplugin.CastVote.VoteBit := CastVote.VoteBit cv;
     bitumplugin.CastVote.Signature := CastVote.Signature cv |}.

(** Modelled from the spec: one option result as the plugin sends
    it. *)
Definition convertVoteOptionResultToBitum (r : VoteOptionResult.t)
    : bitumplugin.VoteOptionResult.t :=
  {| bitumplugin.VoteOptionResult.ID := VoteOption.ID (VoteOptionResult.Option r);
     bitumplugin.VoteOptionResult.Description :=
       VoteOption.Description (VoteOptionResult.Option r);
     bitumplugin.VoteOptionResult.Bits := VoteOption.Bits (VoteOptionResult.Option r);
     bitumplugin.VoteOptionResult.Votes := VoteOptionResult.Votes r |}.

(** Modelled from the spec: the option results as the plugin
    sends them. *)
Definition convertVoteOptionResultsToBitum (r : list VoteOptionResult.t)
    : list bitumplugin.VoteOptionResult.t :=
  convertVoteOptionResultToBitum <$> r.

(** ** The relational store *)

(** The tables of the plugin, by the names of the source, and the two
    tables of the records cache it reads ([tableVersions] and the
    [records] table of the queries, declared elsewhere in the package). *)
Definition tableComments : string := "comments".
Definition tableCommentLikes : string := "comment_likes".
Definition tableCastVotes : string := "cast_votes".
Definition tableAuthorizeVotes : string := "authorize_votes".
Definition tableVoteOptions : string := "vote_options".
Definition tableStartVotes : string := "start_votes".
Definition tableVoteOptionResults : string := "vote_option_results".
Definition tableVoteResults : string := "vote_results".
Definition tableVersions : string := "versions".
Definition tableRecords : string := "records".

Definition bitumVersion : string := "1.1".
Definition voteOptionIDApproved : string := "yes".

(** The contents of the database.  A table is a list of rows: the store
    model puts no uniqueness constraint on it, so whatever the statements
    below guarantee is guaranteed by the handlers.  [existing] holds the
    names of the tables that exist.  The rows of [vote_options] and
    [vote_option_results] are kept with the row that owns them (a start vote
    carries its options, a vote result its option results), as the handlers
    load and create them. *)
Record Tables := {
  existing : list string;
  records : list RecordRow.t;
  versions : list Version.t;
  comments : list Comment.t;
  comment_likes : list LikeComment.t;
  cast_votes : list CastVote.t;
  authorize_votes : list AuthorizeVote.t;
  start_votes : list StartVote.t;
  vote_results : list VoteResults.t }.

(** What a database handle gives access to: the tables it sees, the
    failures the store is going to answer with ([faults], one entry per
    statement sent: [Some e] makes the statement fail with [e], [None] and
    the end of the list let it run), and the clock. *)
Record World := {
  tables : Tables;
  faults : list (option error);
  clock : Z }.

(** A table as the statements address it: its name, the tables a statement
    on it touches, and how to read and replace its rows. *)
Record Table (R : Type) := {
  name : string;
  uses : list string;
  rows : Tables -> list R;
  with_rows : list R -> Tables -> Tables }.
Arguments name {R} _.
Arguments uses {R} _.
Arguments rows {R} _ _.
Arguments with_rows {R} _ _ _.

Definition Records : Table RecordRow.t :=
  {| name := tableRecords; uses := [tableRecords]; rows := records;
     with_rows := fun v t =>
       {| existing := existing t; records := v; versions := versions t;
          comments := comments t; comment_likes := comment_likes t;
          cast_votes := cast_votes t; authorize_votes := authorize_votes t;
          start_votes := start_votes t; vote_results := vote_results t |} |}.

Definition Versions : Table Version.t :=
  {| name := tableVersions; uses := [tableVersions]; rows := versions;
     with_rows := fun v t =>
       {| existing := existing t; records := records t; versions := v;
          comments := comments t; comment_likes := comment_likes t;
          cast_votes := cast_votes t; authorize_votes := authorize_votes t;
          start_votes := start_votes t; vote_results := vote_results t |} |}.

Definition Comments : Table Comment.t :=
  {| name := tableComments; uses := [tableComments]; rows := comments;
     with_rows := fun v t =>
       {| existing := existing t; records := records t; versions := versions t;
          comments := v; comment_likes := comment_likes t;
          cast_votes := cast_votes t; authorize_votes := authorize_votes t;
          start_votes := start_votes t; vote_results := vote_results t |} |}.

Definition CommentLikes : Table LikeComment.t :=
  {| name := tableCommentLikes; uses := [tableCommentLikes];
     rows := comment_likes;
     with_rows := fun v t =>
       {| existing := existing t; records := records t; versions := versions t;
          comments := comments t; comment_likes := v;
          cast_votes := cast_votes t; authorize_votes := authorize_votes t;
          start_votes := start_votes t; vote_results := vote_results t |} |}.

Definition CastVotes : Table CastVote.t :=
  {| name := tableCastVotes; uses := [tableCastVotes]; rows := cast_votes;
     with_rows := fun v t =>
       {| existing := existing t; records := records t; versions := versions t;
          comments := comments t; comment_likes := comment_likes t;
          cast_votes := v; authorize_votes := authorize_votes t;
          start_votes := start_votes t; vote_results := vote_results t |} |}.

Definition AuthorizeVotes : Table AuthorizeVote.t :=
  {| name := tableAuthorizeVotes; uses := [tableAuthorizeVotes];
     rows := authorize_votes;
     with_rows := fun v t =>
       {| existing := existing t; records := records t; versions := versions t;
          comments := comments t; comment_likes := comment_likes t;
          cast_votes := cast_votes t; authorize_votes := v;
          start_votes := start_votes t; vote_results := vote_results t |} |}.

Definition StartVotes : Table StartVote.t :=
  {| name := tableStartVotes; uses := [tableStartVotes; tableVoteOptions];
     rows := start_votes;
     with_rows := fun v t =>
       {| existing := existing t; records := records t; versions := versions t;
          comments := comments t; comment_likes := comment_likes t;
          cast_votes := cast_votes t; authorize_votes := authorize_votes t;
          start_votes := v; vote_results := vote_results t |} |}.

Definition VoteResultsT : Table VoteResults.t :=
  {| name := tableVoteResults;
     uses := [tableVoteResults; tableVoteOptionResults; tableVoteOptions];
     rows := vote_results;
     with_rows := fun v t =>
       {| existing := existing t; records := records t; versions := versions t;
          comments := comments t; comment_likes := comment_likes t;
          cast_votes := cast_votes t; authorize_votes := authorize_votes t;
          start_votes := start_votes t; vote_results := v |} |}.

Definition with_existing (s : list string) (t : Tables) : Tables :=
  {| existing := s; records := records t; versions := versions t;
     comments := comments t; comment_likes := comment_likes t;
     cast_votes := cast_votes t; authorize_votes := authorize_votes t;
     start_votes := start_votes t; vote_results := vote_results t |}.

(** Code that talks to the store: it reads and updates the handle's world. *)
Definition M (A : Type) : Type := World -> A * World.

Definition ret {A : Type} (a : A) : M A := fun w => (a, w).

Definition bind {A B : Type} (m : M A) (k : A -> M B) : M B :=
  fun w => let (a, w') := m w in k a w'.

Notation "'do' x <- m ; k" := (bind m (fun x => k))
  (at level 10, x name, m at level 100, k at level 200,
   format "'[v' 'do'  x  <-  m ; '/' k ']'").

Definition with_tables (t : Tables) (w : World) : World :=
  {| tables := t; faults := faults w; clock := clock w |}.

Definition with_faults (fs : list (option error)) (w : World) : World :=
  {| tables := tables w; faults := fs; clock := clock w |}.

(** The first table of [ns] that does not exist. *)
Definition missing (ns : list string) (t : Tables) : option string :=
  head (filter (fun n => n ∉ existing t) ns).

Definition no_relation (n : string) : error :=
  errorString ("pq: relation " +:+ n +:+ " does not exist").

(** One statement sent to the store.  It takes the next entry of [faults];
    the store fails with that error if there is one, fails when a table the
    statement touches does not exist, and runs the statement otherwise.  A
    failed statement changes no table. *)
Definition statement {A : Type} (ns : list string) (fail : error -> A)
    (run : Tables -> A * Tables) : M A :=
  fun w =>
    match faults w with
    | Some e :: fs => (fail e, with_faults fs w)
    | fs0 =>
        match missing ns (tables w) with
        | Some n => (fail (no_relation n), with_faults (tail fs0) w)
        | None =>
            let (a, t') := run (tables w) in
            (a, with_tables t' (with_faults (tail fs0) w))
        end
    end.

(** [db.Create(&row).Error]: INSERT.  The store model has no uniqueness
    constraint and no limit of the driver: an insert that the real store
    refuses because the key is taken, or because a number does not fit the
    column, goes through here.  The statements about the handlers therefore
    take the success of such an insert as a hypothesis, and conclude it
    only where the key is new by what the handler did before. *)
Definition Create {R : Type} (T : Table R) (row : R) : M (option error) :=
  statement (uses T) Some
    (fun t => (None, with_rows T (rows T t ++ [row]) t)).

(** [db.Where(P).Delete(...).Error]: DELETE of the rows that satisfy [P];
    deleting nothing is no error. *)
Definition Delete {R : Type} (T : Table R) (P : R -> Prop)
    `{!forall r, Decision (P r)} : M (option error) :=
  statement (uses T) Some
    (fun t => (None, with_rows T (filter (fun r => ~ P r) (rows T t)) t)).

(** [db.Model(&row).Updates(...).Error], where [key] is the primary key
    that [row] carries and [key_of] the primary key column: UPDATE of the
    rows with that key.  gorm takes the WHERE clause from the primary key
    of the model only when that key is not blank: with a blank key the
    UPDATE has no WHERE clause and changes every row of the table.
    Updating nothing is no error. *)
Definition Updates {R : Type} (T : Table R) (key_of : R -> string)
    (key : string) (f : R -> R) : M (option error) :=
  statement (uses T) Some
    (fun t => (None,
       with_rows T
         ((fun r => if decide (key = "" \/ key_of r = key) then f r else r)
            <$> rows T t) t)).

(** [db.Where(P).Find(&row).Error] into one structure: the first row that
    satisfies [P], or [gorm.ErrRecordNotFound]. *)
Definition First {R : Type} (T : Table R) (P : R -> Prop)
    `{!forall r, Decision (P r)} : M (result R) :=
  statement (uses T) Err
    (fun t => (match filter P (rows T t) with
               | r :: _ => Ok r
               | [] => Err gorm_ErrRecordNotFound
               end, t)).

(** [db.Where(P).Order(...).Limit(1).Find(&row).Error]. *)
Definition FirstOrdered {R : Type} (T : Table R) (P : R -> Prop)
    `{!forall r, Decision (P r)} (before : R -> R -> Prop)
    `{!forall a b, Decision (before a b)} : M (result R) :=
  statement (uses T) Err
    (fun t => (match merge_sort before (filter P (rows T t)) with
               | r :: _ => Ok r
               | [] => Err gorm_ErrRecordNotFound
               end, t)).

(** [db.Where(P).Find(&rows).Error] into a slice: all the rows that satisfy
    [P]; an empty answer is no error. *)
Definition Find {R : Type} (T : Table R) (P : R -> Prop)
    `{!forall r, Decision (P r)} : M (result (list R)) :=
  statement (uses T) Err (fun t => (Ok (filter P (rows T t)), t)).

(** [db.Model(...).Where(P).Count(&n).Error]. *)
Definition CountRows {R : Type} (T : Table R) (P : R -> Prop)
    `{!forall r, Decision (P r)} : M (result Z) :=
  statement (uses T) Err
    (fun t => (Ok (Z.of_nat (length (filter P (rows T t)))), t)).

(** [db.Raw(q, ...).Rows()] followed by the loop that scans one token per
    row: [q] is the query, [ns] the tables it reads. *)
Definition RawRows (ns : list string) (q : Tables -> list string)
    : M (result (list string)) :=
  statement ns Err (fun t => (Ok (q t), t)).

(** [db.HasTable(name)]: gorm answers [false] when the lookup fails. *)
Definition HasTable (n : string) : M bool :=
  statement [] (fun _ => false)
    (fun t => (bool_decide (n ∈ existing t), t)).

(** [db.CreateTable(...).Error]. *)
Definition CreateTable (n : string) : M (option error) :=
  statement [] Some
    (fun t =>
       if decide (n ∈ existing t)
       then (Some (errorString ("pq: relation " +:+ n +:+ " already exists")), t)
       else (None, with_existing (n :: existing t) t)).

(** The plugin's tables after they are dropped: gone, with their rows. *)
Definition dropped (ns : list string) (t : Tables) : Tables :=
  let gone (n : string) := bool_decide (n ∈ ns) in
  {| existing := filter (fun n => n ∉ ns) (existing t);
     records := if gone tableRecords then [] else records t;
     versions := if gone tableVersions then [] else versions t;
     comments := if gone tableComments then [] else comments t;
     comment_likes := if gone tableCommentLikes then [] else comment_likes t;
     cast_votes := if gone tableCastVotes then [] else cast_votes t;
     authorize_votes :=
       if gone tableAuthorizeVotes then [] else authorize_votes t;
     start_votes :=
       if gone tableStartVotes || gone tableVoteOptions then []
       else start_votes t;
     vote_results :=
       if gone tableVoteResults || gone tableVoteOptionResults then []
       else vote_results t |}.

(** [db.DropTableIfExists(names...).Error]. *)
Definition DropTableIfExists (ns : list string) : M (option error) :=
  statement [] Some (fun t => (None, dropped ns t)).

(** [db.Begin()]: the transaction starts from the tables the handle sees. *)
Definition Begin (db : World) : World := db.

(** [tx.Rollback()]: the handle's tables stay as they were; the statements
    the transaction sent have used up their faults. *)
Definition Rollback (db tx : World) : World := with_faults (faults tx) db.

(** [tx.Commit().Error]: the tables of the transaction become the handle's,
    unless the store fails the commit, which leaves them as they were. *)
Definition Commit (db tx : World) : option error * World :=
  match faults tx with
  | Some e :: fs => (Some e, with_faults fs db)
  | fs0 => (None, with_tables (tables tx) (with_faults (tail fs0) db))
  end.

(** A [for _, v := range l] loop whose body returns on the first error. *)
Fixpoint for_each {A : Type} (body : A -> M (option error)) (l : list A)
    : M (option error) :=
  match l with
  | [] => ret None
  | v :: l' =>
      do err <- body v;
      match err with
      | Some e => ret (Some e)
      | None => for_each body l'
      end
  end.

(** ** The handlers of [bitum.go] *)

(** What a command handler returns: Go's pair [(string, error)], with
    [None] for the nil error. *)
Definition reply : Type := (string * option error)%type.

(** How a call ends: it returns, or it panics. *)
Inductive outcome (A : Type) : Type :=
| Returned (a : A)
| Panicked (msg : string).
Arguments Returned {A} a.
Arguments Panicked {A} msg.

(** The row a censored comment becomes: [Updates] sets the columns
    [comment] and [censored] and nothing else. *)
Definition censored (c : Comment.t) : Comment.t :=
  {| Comment.Key := Comment.Key c;
     Comment.Token := Comment.Token c;
     Comment.ParentID := Comment.ParentID c;
     Comment.Comment := "";
     Comment.Signature := Comment.Signature c;
     Comment.PublicKey := Comment.PublicKey c;
     Comment.CommentID := Comment.CommentID c;
     Comment.Receipt := Comment.Receipt c;
     Comment.Timestamp := Comment.Timestamp c;
     Comment.TotalVotes := Comment.TotalVotes c;
     Comment.ResultVotes := Comment.ResultVotes c;
     Comment.Censored := true |}.

(** [ORDER BY records.version DESC]. *)
Definition version_desc (a b : RecordRow.t) : Prop :=
  RecordRow.Version b <= RecordRow.Version a.

#[global] Instance version_desc_dec (a b : RecordRow.t)
  : Decision (version_desc a b).
Proof. unfold version_desc. apply _. Defined.

(** The tally of [newVoteResults]: [tally[v.VoteBit]++] over the cast
    votes. *)
Definition tally_votes (cv : list CastVote.t) : gmap string Z :=
  foldl (fun tally v =>
           <[CastVote.VoteBit v :=
               u64 (default 0 (tally !! CastVote.VoteBit v) + 1)]> tally)
        ∅ cv.

(** One [VoteOptionResult] per option of the start vote, in their order. *)
Definition option_results (token : string) (tally : gmap string Z)
    (options : list VoteOption.t) : list VoteOptionResult.t :=
  (fun v =>
     let voteBit := FormatUint (VoteOption.Bits v) 16 in
     {| VoteOptionResult.Key := token +:+ voteBit;
        VoteOptionResult.Votes := default 0 (tally !! voteBit);
        VoteOptionResult.Option := v |}) <$> options.

(** [total += v.Votes] over the results. *)
Definition total_votes (results : list VoteOptionResult.t) : Z :=
  foldl (fun total v => u64 (total + VoteOptionResult.Votes v)) 0 results.

(** [len(strings.Split(sv.EligibleTickets, ","))]. *)
Definition eligible_count (sv : StartVote.t) : Z :=
  Z.of_nat (length (Split (StartVote.EligibleTickets sv) ",")).

(** [uint64(float64(percentage) / 100 * float64(n))]. *)
Definition percent_of (percentage n : Z) : Z :=
  uint64_of_float64
    (fmul (fdiv (float64_of_int percentage) (float64_of_int 100))
          (float64_of_int n)).

Definition quorum_of (sv : StartVote.t) : Z :=
  percent_of (StartVote.QuorumPercentage sv) (eligible_count sv).

Definition pass_of (sv : StartVote.t) (total : Z) : Z :=
  percent_of (StartVote.PassPercentage sv) total.

(** The loop that picks [approvedVotes]: the votes of the option whose ID
    is "yes" (of the last one if several are), 0 if there is none. *)
Definition approved_votes (results : list VoteOptionResult.t) : Z :=
  foldl (fun approvedVotes v =>
           if decide (VoteOption.ID (VoteOptionResult.Option v)
                      = voteOptionIDApproved)
           then VoteOptionResult.Votes v else approvedVotes)
        0 results.

(** The [switch] that decides [approved]. *)
Definition vote_approved (sv : StartVote.t)
    (results : list VoteOptionResult.t) : bool :=
  let total := total_votes results in
  if total <? quorum_of sv then false
  else if approved_votes results <? pass_of sv total then false
  else true.

(** The query of [cmdLoadVoteResults] and [cmdTokenInventory]: the tokens
    of the start votes whose end height is at or before [bestBlock] and
    that the left outer join pairs with no vote result. *)
Definition finished_without_results (bestBlock : Z) (t : Tables)
    : list string :=
  StartVote.Token <$>
    filter (fun sv =>
              StartVote.EndHeight sv <= bestBlock
              /\ Forall (fun vr => VoteResults.Token vr <> StartVote.Token sv)
                        (vote_results t))
           (start_votes t).

(** [ORDER BY timestamp DESC]. *)
Definition timestamp_desc (a b : RecordRow.t) : Prop :=
  RecordRow.Timestamp b <= RecordRow.Timestamp a.

#[global] Instance timestamp_desc_dec (a b : RecordRow.t)
  : Decision (timestamp_desc a b).
Proof. unfold timestamp_desc. apply _. Defined.

(** [ORDER BY end_height DESC]. *)
Definition end_height_desc (a b : StartVote.t) : Prop :=
  StartVote.EndHeight b <= StartVote.EndHeight a.

#[global] Instance end_height_desc_dec (a b : StartVote.t)
  : Decision (end_height_desc a b).
Proof. unfold end_height_desc. apply _. Defined.

(** Pre-vote tokens: the records that no record of the same token
    supersedes, that have no start vote and that are public, most recent
    first. *)
Definition pre_query (t : Tables) : list string :=
  RecordRow.Token <$>
    merge_sort timestamp_desc
      (filter (fun a =>
                 Forall (fun b => ~ (RecordRow.Token a = RecordRow.Token b
                                     /\ RecordRow.Version a < RecordRow.Version b))
                        (records t)
                 /\ Forall (fun sv => StartVote.Token sv <> RecordRow.Token a)
                           (start_votes t)
                 /\ RecordRow.Status a = pd.RecordStatusPublic)
              (records t)).

(** Active tokens: the start votes that end after [bestBlock], the one that
    ends last first. *)
Definition active_query (bestBlock : Z) (t : Tables) : list string :=
  StartVote.Token <$>
    merge_sort end_height_desc
      (filter (fun sv => bestBlock < StartVote.EndHeight sv) (start_votes t)).

(** Approved ([flag = true]) and rejected ([flag = false]) tokens: the vote
    results joined with their start vote, the one that ended last first. *)
Definition results_query (flag : bool) (t : Tables) : list string :=
  (fun p => VoteResults.Token p.1) <$>
    merge_sort (fun p q => end_height_desc p.2 q.2)
      (filter (fun p : VoteResults.t * StartVote.t =>
                 VoteResults.Token p.1 = StartVote.Token p.2
                 /\ VoteResults.Approved p.1 = flag)
              (cprod (vote_results t) (start_votes t))).

(** Abandoned tokens: the archived records, most recent first. *)
Definition abandoned_query (t : Tables) : list string :=
  RecordRow.Token <$>
    merge_sort timestamp_desc
      (filter (fun a => RecordRow.Status a = pd.RecordStatusArchived)
              (records t)).

(** A lookup into a structure or slice that the source lets pass when it
    finds nothing: the variable keeps its zero value. *)
Definition or_zero {A : Type} (zero : A) (r : result A) : result A :=
  match r with
  | Err gorm_ErrRecordNotFound => Ok zero
  | _ => r
  end.

(** [if err == gorm.ErrRecordNotFound { err = cache.ErrRecordNotFound }]. *)
Definition to_cache_error (e : error) : error :=
  match e with
  | gorm_ErrRecordNotFound => cache_ErrRecordNotFound
  | _ => e
  end.

(** How the block [tx := db.Begin(); ...; tx.Rollback() / tx.Commit()]
    ends. *)
Inductive tx_end : Type :=
| BodyFailed (e : error)
| CommitFailed (e : error)
| Committed.

(** The statements of [body] run on the transaction; an error rolls it
    back, otherwise it is committed. *)
Definition transaction (body : M (option error)) : M tx_end :=
  fun db =>
    let tx := Begin db in
    let (err, tx') := body tx in
    match err with
    | Some e => (BodyFailed e, Rollback db tx')
    | None =>
        let (err', db') := Commit db tx' in
        match err' with
        | Some e => (CommitFailed e, db')
        | None => (Committed, db')
        end
    end.

Section Handlers.

Context `{codec : bitumplugin.Codec}.

(** The functions below that take a [db *gorm.DB] in the source run here on
    the world they are given: the plugin's handle, or a transaction. *)
Definition newComment (c : Comment.t) : M (option error) :=
  Create Comments c.

Definition cmdNewComment (cmdPayload replyPayload : string) : M reply :=
  match bitumplugin.DecodeNewComment cmdPayload with
  | Err e => ret ("", Some e)
  | Ok nc =>
      match bitumplugin.DecodeNewCommentReply replyPayload with
      | Err e => ret ("", Some e)
      | Ok ncr =>
          let c := convertNewCommentFromBitum nc ncr in
          do err <- newComment c;
          ret (replyPayload, err)
      end
  end.

Definition newLikeComment (lc : LikeComment.t) : M (option error) :=
  Create CommentLikes lc.

Definition cmdLikeComment (cmdPayload replyPayload : string) : M reply :=
  match bitumplugin.DecodeLikeComment cmdPayload with
  | Err e => ret ("", Some e)
  | Ok dlc =>
      let lc := convertLikeCommentFromBitum dlc in
      do err <- newLikeComment lc;
      ret (replyPayload, err)
  end.

Definition cmdCensorComment (cmdPayload replyPayload : string) : M reply :=
  match bitumplugin.DecodeCensorComment cmdPayload with
  | Err e => ret ("", Some e)
  | Ok cc =>
      let key := bitumplugin.CensorComment.Token cc
                 +:+ bitumplugin.CensorComment.CommentID cc in
      do err <- Updates Comments Comment.Key key censored;
      ret (replyPayload, err)
  end.

Definition cmdGetComment (payload : string) : M reply :=
  match bitumplugin.DecodeGetComment payload with
  | Err e => ret ("", Some e)
  | Ok gc =>
      let key := bitumplugin.GetComment.Token gc
                 +:+ bitumplugin.GetComment.CommentID gc in
      do found <- First Comments (fun c => Comment.Key c = key);
      match found with
      | Err e => ret ("", Some (to_cache_error e))
      | Ok c =>
          let gcr := {| bitumplugin.GetCommentReply.Comment :=
                          convertCommentToBitum c |} in
          match bitumplugin.EncodeGetCommentReply gcr with
          | Err e => ret ("", Some e)
          | Ok gcrb => ret (gcrb, None)
          end
      end
  end.

Definition cmdGetComments (payload : string) : M reply :=
  match bitumplugin.DecodeGetComments payload with
  | Err e => ret ("", Some e)
  | Ok gc =>
      do found <- Find Comments
                    (fun c => Comment.Token c = bitumplugin.GetComments.Token gc);
      match found with
      | Err e => ret ("", Some e)
      | Ok comments =>
          let gcr := {| bitumplugin.GetCommentsReply.Comments :=
                          convertCommentToBitum <$> comments |} in
          match bitumplugin.EncodeGetCommentsReply gcr with
          | Err e => ret ("", Some e)
          | Ok gcrb => ret (gcrb, None)
          end
      end
  end.

Definition cmdCommentLikes (payload : string) : M reply :=
  match bitumplugin.DecodeCommentLikes payload with
  | Err e => ret ("", Some e)
  | Ok cl =>
      do found <- Find CommentLikes
                    (fun l => LikeComment.Token l
                              = bitumplugin.CommentLikes.Token cl
                              /\ LikeComment.CommentID l
                                 = bitumplugin.CommentLikes.CommentID cl);
      match found with
      | Err e => ret ("", Some e)
      | Ok likes =>
          let clr := {| bitumplugin.CommentLikesReply.CommentLikes :=
                          convertLikeCommentToBitum <$> likes |} in
          match bitumplugin.EncodeCommentLikesReply clr with
          | Err e => ret ("", Some e)
          | Ok clrb => ret (clrb, None)
          end
      end
  end.

Definition cmdProposalCommentsLikes (payload : string) : M reply :=
  match bitumplugin.DecodeGetProposalCommentsLikes payload with
  | Err e => ret ("", Some e)
  | Ok cl =>
      do found <- Find CommentLikes
                    (fun l => LikeComment.Token l
                              = bitumplugin.GetProposalCommentsLikes.Token cl);
      match found with
      | Err e => ret ("", Some e)
      | Ok likes =>
          let clr :=
            {| bitumplugin.GetProposalCommentsLikesReply.CommentsLikes :=
                 convertLikeCommentToBitum <$> likes |} in
          match bitumplugin.EncodeGetProposalCommentsLikesReply clr with
          | Err e => ret ("", Some e)
          | Ok clrb => ret (clrb, None)
          end
      end
  end.

(** Deletes the authorize vote of this key if there is one, then inserts
    the new one.  The source asks for a transaction around it. *)
Definition newAuthorizeVote (av : AuthorizeVote.t) : M (option error) :=
  do err <- Delete AuthorizeVotes
              (fun r => AuthorizeVote.Key r = AuthorizeVote.Key av);
  match err with
  | Some e => ret (Some (Errorf "delete authorize vote: " e))
  | None =>
      do err' <- Create AuthorizeVotes av;
      match err' with
      | Some e => ret (Some (Errorf "create authorize vote: " e))
      | None => ret None
      end
  end.

Definition cmdAuthorizeVote (cmdPayload replyPayload : string) : M reply :=
  match bitumplugin.DecodeAuthorizeVote cmdPayload with
  | Err e => ret ("", Some e)
  | Ok av =>
      match bitumplugin.DecodeAuthorizeVoteReply replyPayload with
      | Err e => ret ("", Some e)
      | Ok avr =>
          let version := bitumplugin.AuthorizeVoteReply.RecordVersion avr in
          match ParseUint version with
          | Err e =>
              ret ("", Some (errorString ("parse version '" +:+ version
                                          +:+ "' failed: " +:+ Error e)))
          | Ok v =>
              let a := convertAuthorizeVoteFromBitum av avr v in
              do ended <- transaction (newAuthorizeVote a);
              match ended with
              | BodyFailed e => ret ("", Some (Errorf "newAuthorizeVote: " e))
              | CommitFailed e => ret ("", Some (Errorf "commit transaction: " e))
              | Committed => ret (replyPayload, None)
              end
          end
      end
  end.

Definition newStartVote (sv : StartVote.t) : M (option error) :=
  Create StartVotes sv.

Definition cmdStartVote (cmdPayload replyPayload : string) : M reply :=
  match bitumplugin.DecodeStartVote cmdPayload with
  | Err e => ret ("", Some e)
  | Ok sv =>
      match bitumplugin.DecodeStartVoteReply replyPayload with
      | Err e => ret ("", Some e)
      | Ok svr =>
          let height := bitumplugin.StartVoteReply.EndHeight svr in
          match ParseUint height with
          | Err e =>
              ret ("", Some (errorString ("parse end height '" +:+ height
                                          +:+ "': " +:+ Error e)))
          | Ok endHeight =>
              let s := convertStartVoteFromBitum sv svr endHeight in
              do err <- newStartVote s;
              match err with
              | Some e => ret ("", Some e)
              | None => ret (replyPayload, None)
              end
          end
      end
  end.

(** "Lookup the most recent version of the record". *)
Definition latest_record (token : string) : M (result RecordRow.t) :=
  FirstOrdered Records (fun r => RecordRow.Token r = token) version_desc.

Definition cmdVoteDetails (payload : string) : M reply :=
  match bitumplugin.DecodeVoteDetails payload with
  | Err _ => ret ("", None)
  | Ok vd =>
      let token := bitumplugin.VoteDetails.Token vd in
      do found <- latest_record token;
      match found with
      | Err e => ret ("", Some (to_cache_error e))
      | Ok r =>
          let key := token +:+ FormatUint (RecordRow.Version r) 10 in
          do a <- First AuthorizeVotes (fun av => AuthorizeVote.Key av = key);
          match or_zero AuthorizeVote.zero a with
          | Err e => ret ("", Some (Errorf "authorize vote lookup failed: " e))
          | Ok av =>
              do s <- First StartVotes (fun sv => StartVote.Token sv = token);
              match or_zero StartVote.zero s with
              | Err e => ret ("", Some (Errorf "start vote lookup failed: " e))
              | Ok sv =>
                  let dav := convertAuthorizeVoteToBitum av in
                  let (dsv, dsvr) := convertStartVoteToBitum sv in
                  let vdr :=
                    {| bitumplugin.VoteDetailsReply.AuthorizeVote := dav;
                       bitumplugin.VoteDetailsReply.StartVote := dsv;
                       bitumplugin.VoteDetailsReply.StartVoteReply := dsvr |} in
                  match bitumplugin.EncodeVoteDetailsReply vdr with
                  | Err e => ret ("", Some e)
                  | Ok vdrb => ret (vdrb, None)
                  end
              end
          end
      end
  end.

Definition newCastVote (cv : CastVote.t) : M (option error) :=
  Create CastVotes cv.

Definition cmdNewBallot (cmdPayload replyPayload : string) : M reply :=
  match bitumplugin.DecodeBallot cmdPayload with
  | Err e => ret ("", Some e)
  | Ok b =>
      do ended <- transaction
                    (for_each (fun v => newCastVote (convertCastVoteFromBitum v))
                              (bitumplugin.Ballot.Votes b));
      match ended with
      | BodyFailed e => ret ("", Some e)
      | CommitFailed e => ret ("", Some (Errorf "commit transaction failed: " e))
      | Committed => ret (replyPayload, None)
      end
  end.

Definition cmdProposalVotes (payload : string) : M reply :=
  match bitumplugin.DecodeVoteResults payload with
  | Err e => ret ("", Some e)
  | Ok vr =>
      let token := bitumplugin.VoteResults.Token vr in
      do s <- First StartVotes (fun sv => StartVote.Token sv = token);
      match or_zero StartVote.zero s with
      | Err e => ret ("", Some (Errorf "start vote lookup failed: " e))
      | Ok sv =>
          do c <- Find CastVotes (fun cv => CastVote.Token cv = token);
          match or_zero [] c with
          | Err e => ret ("", Some (Errorf "cast votes lookup failed: " e))
          | Ok cv =>
              let vrr :=
                {| bitumplugin.VoteResultsReply.StartVote :=
                     (convertStartVoteToBitum sv).1;
                   bitumplugin.VoteResultsReply.CastVotes :=
                     convertCastVoteToBitum <$> cv |} in
              match bitumplugin.EncodeVoteResultsReply vrr with
              | Err e => ret ("", Some e)
              | Ok vrrb => ret (vrrb, None)
              end
          end
      end
  end.

(** Only the comments are returned, as the source notes. *)
Definition cmdInventory : M reply :=
  do found <- Find Comments (fun _ => True);
  match found with
  | Err e => ret ("", Some e)
  | Ok c =>
      let ir :=
        {| bitumplugin.InventoryReply.Comments := convertCommentToBitum <$> c;
           bitumplugin.InventoryReply.LikeComments := [];
           bitumplugin.InventoryReply.AuthorizeVotes := [];
           bitumplugin.InventoryReply.AuthorizeVoteReplies := [];
           bitumplugin.InventoryReply.StartVoteTuples := [];
           bitumplugin.InventoryReply.CastVotes := [] |} in
      match bitumplugin.EncodeInventoryReply ir with
      | Err e => ret ("", Some e)
      | Ok irb => ret (irb, None)
      end
  end.

(** Creates the vote results of a proposal whose voting period has ended. *)
Definition newVoteResults (token : string) : M (option error) :=
  do s <- First StartVotes (fun sv => StartVote.Token sv = token);
  match s with
  | Err e => ret (Some (Errorf "lookup start vote: " e))
  | Ok sv =>
      do c <- Find CastVotes (fun cv => CastVote.Token cv = token);
      match or_zero [] c with
      | Err e => ret (Some (Errorf "lookup cast votes: " e))
      | Ok cv =>
          let tally := tally_votes cv in
          let results := option_results token tally (StartVote.Options sv) in
          let approved := vote_approved sv results in
          do err <- Create VoteResultsT
                      {| VoteResults.Token := token;
                         VoteResults.Approved := approved;
                         VoteResults.Results := results |};
          match err with
          | Some e => ret (Some (Errorf "new vote results: " e))
          | None => ret None
          end
      end
  end.

Definition cmdLoadVoteResults (payload : string) : M reply :=
  match bitumplugin.DecodeLoadVoteResults payload with
  | Err e => ret ("", Some e)
  | Ok lvs =>
      do found <- RawRows [tableStartVotes; tableVoteResults]
                    (finished_without_results
                       (bitumplugin.LoadVoteResults.BestBlock lvs));
      match found with
      | Err e => ret ("", Some (Errorf "no vote results: " e))
      | Ok tokens =>
          do err <- for_each
                      (fun v =>
                         do err <- newVoteResults v;
                         ret (Errorf ("newVoteResults " +:+ v +:+ ": ") <$> err))
                      tokens;
          match err with
          | Some e => ret ("", Some e)
          | None =>
              match bitumplugin.EncodeLoadVoteResultsReply
                      (bitumplugin.LoadVoteResultsReply.Build_t) with
              | Err e => ret ("", Some e)
              | Ok r => ret (r, None)
              end
          end
      end
  end.

Definition cmdTokenInventory (payload : string) : M reply :=
  match bitumplugin.DecodeTokenInventory payload with
  | Err e => ret ("", Some e)
  | Ok ti =>
      let bestBlock := bitumplugin.TokenInventory.BestBlock ti in
      do q1 <- RawRows [tableStartVotes; tableVoteResults]
                 (finished_without_results bestBlock);
      match q1 with
      | Err e => ret ("", Some (Errorf "no vote results: " e))
      | Ok (_ :: _) => ret ("", Some cache_ErrRecordNotFound)
      | Ok [] =>
      do q2 <- RawRows [tableRecords; tableStartVotes] pre_query;
      match q2 with
      | Err e => ret ("", Some (Errorf "pre: " e))
      | Ok pre =>
      do q3 <- RawRows [tableStartVotes] (active_query bestBlock);
      match q3 with
      | Err e => ret ("", Some (Errorf "active: " e))
      | Ok active =>
      do q4 <- RawRows [tableVoteResults; tableStartVotes] (results_query true);
      match q4 with
      | Err e => ret ("", Some (Errorf "approved: " e))
      | Ok approved =>
      do q5 <- RawRows [tableVoteResults; tableStartVotes] (results_query false);
      match q5 with
      | Err e => ret ("", Some (Errorf "rejected: " e))
      | Ok rejected =>
      do q6 <- RawRows [tableRecords] abandoned_query;
      match q6 with
      | Err e => ret ("", Some (Errorf "abandoned: " e))
      | Ok abandoned =>
          match bitumplugin.EncodeTokenInventoryReply
                  {| bitumplugin.TokenInventoryReply.Pre := pre;
                     bitumplugin.TokenInventoryReply.Active := active;
                     bitumplugin.TokenInventoryReply.Approved := approved;
                     bitumplugin.TokenInventoryReply.Rejected := rejected;
                     bitumplugin.TokenInventoryReply.Abandoned := abandoned |}
          with
          | Err e => ret ("", Some e)
          | Ok r => ret (r, None)
          end
      end end end end end end
  end.

(** The label [sendReply] of [cmdVoteSummary]. *)
Definition sendReply (av : AuthorizeVote.t) (sv : StartVote.t)
    (results : list bitumplugin.VoteOptionResult.t) : M reply :=
  let endHeight :=
    if decide (StartVote.EndHeight sv = 0) then ""
    else FormatUint (StartVote.EndHeight sv) 10 in
  let vsr :=
    {| bitumplugin.VoteSummaryReply.Authorized :=
         bool_decide (AuthorizeVote.Action av
                      = bitumplugin.AuthVoteActionAuthorize);
       bitumplugin.VoteSummaryReply.EndHeight := endHeight;
       bitumplugin.VoteSummaryReply.EligibleTicketCount :=
         StartVote.EligibleTicketCount sv;
       bitumplugin.VoteSummaryReply.QuorumPercentage :=
         StartVote.QuorumPercentage sv;
       bitumplugin.VoteSummaryReply.PassPercentage :=
         StartVote.PassPercentage sv;
       bitumplugin.VoteSummaryReply.Results := results |} in
  match bitumplugin.EncodeVoteSummaryReply vsr with
  | Err e => ret ("", Some e)
  | Ok r => ret (r, None)
  end.

(** "Lookup vote results manually": one count per option. *)
Fixpoint count_votes (options : list VoteOption.t)
    (results : list bitumplugin.VoteOptionResult.t)
    : M (result (list bitumplugin.VoteOptionResult.t)) :=
  match options with
  | [] => ret (Ok results)
  | v :: rest =>
      let tokenVoteBit :=
        VoteOption.Token v +:+ FormatUint (VoteOption.Bits v) 16 in
      do counted <- CountRows CastVotes
                      (fun cv => CastVote.TokenVoteBit cv = tokenVoteBit);
      match counted with
      | Err e => ret (Err (Errorf "count cast votes: " e))
      | Ok votes =>
          count_votes rest
            (results ++
               [{| bitumplugin.VoteOptionResult.ID := VoteOption.ID v;
                   bitumplugin.VoteOptionResult.Description :=
                     VoteOption.Description v;
                   bitumplugin.VoteOptionResult.Bits := VoteOption.Bits v;
                   bitumplugin.VoteOptionResult.Votes := votes |}])
      end
  end.

Definition cmdVoteSummary (payload : string) : M reply :=
  match bitumplugin.DecodeVoteSummary payload with
  | Err e => ret ("", Some e)
  | Ok vs =>
      let token := bitumplugin.VoteSummary.Token vs in
      do found <- latest_record token;
      match found with
      | Err e => ret ("", Some (to_cache_error e))
      | Ok r =>
          let key := token +:+ FormatUint (RecordRow.Version r) 10 in
          do a <- First AuthorizeVotes (fun av => AuthorizeVote.Key av = key);
          match a with
          | Err gorm_ErrRecordNotFound =>
              sendReply AuthorizeVote.zero StartVote.zero []
          | Err e => ret ("", Some (Errorf "lookup authorize vote: " e))
          | Ok av =>
              do s <- First StartVotes (fun sv => StartVote.Token sv = token);
              match s with
              | Err gorm_ErrRecordNotFound => sendReply av StartVote.zero []
              | Err e => ret ("", Some (Errorf "lookup start vote: " e))
              | Ok sv =>
                  do v <- First VoteResultsT
                            (fun vr => VoteResults.Token vr = token);
                  match v with
                  | Err gorm_ErrRecordNotFound =>
                      do counted <- count_votes (StartVote.Options sv) [];
                      match counted with
                      | Err e => ret ("", Some e)
                      | Ok results => sendReply av sv results
                      end
                  | Err e => ret ("", Some (Errorf "lookup vote results: " e))
                  | Ok vr =>
                      sendReply av sv
                        (convertVoteOptionResultsToBitum (VoteResults.Results vr))
                  end
              end
          end
      end
  end.

(** The dispatcher. *)
Definition Exec (cmd cmdPayload replyPayload : string) : M reply :=
  if decide (cmd = bitumplugin.CmdAuthorizeVote)
  then cmdAuthorizeVote cmdPayload replyPayload
  else if decide (cmd = bitumplugin.CmdStartVote)
  then cmdStartVote cmdPayload replyPayload
  else if decide (cmd = bitumplugin.CmdVoteDetails)
  then cmdVoteDetails cmdPayload
  else if decide (cmd = bitumplugin.CmdBallot)
  then cmdNewBallot cmdPayload replyPayload
  else if decide (cmd = bitumplugin.CmdBestBlock)
  then ret ("", None)
  else if decide (cmd = bitumplugin.CmdNewComment)
  then cmdNewComment cmdPayload replyPayload
  else if decide (cmd = bitumplugin.CmdLikeComment)
  then cmdLikeComment cmdPayload replyPayload
  else if decide (cmd = bitumplugin.CmdCensorComment)
  then cmdCensorComment cmdPayload replyPayload
  else if decide (cmd = bitumplugin.CmdGetComment)
  then cmdGetComment cmdPayload
  else if decide (cmd = bitumplugin.CmdGetComments)
  then cmdGetComments cmdPayload
  else if decide (cmd = bitumplugin.CmdProposalVotes)
  then cmdProposalVotes cmdPayload
  else if decide (cmd = bitumplugin.CmdCommentLikes)
  then cmdCommentLikes cmdPayload
  else if decide (cmd = bitumplugin.CmdProposalCommentsLikes)
  then cmdProposalCommentsLikes cmdPayload
  else if decide (cmd = bitumplugin.CmdInventory)
  then cmdInventory
  else if decide (cmd = bitumplugin.CmdLoadVoteResults)
  then cmdLoadVoteResults cmdPayload
  else if decide (cmd = bitumplugin.CmdTokenInventory)
  then cmdTokenInventory cmdPayload
  else if decide (cmd = bitumplugin.CmdVoteSummary)
  then cmdVoteSummary cmdPayload
  else ret ("", Some cache_ErrInvalidPluginCmd).

(** The tables of the plugin, in the order [createTables] goes through
    them and [dropTables] lists them. *)
Definition created_tables : list string :=
  [tableComments; tableCommentLikes; tableCastVotes; tableAuthorizeVotes;
   tableVoteOptions; tableStartVotes; tableVoteOptionResults;
   tableVoteResults].

Definition dropped_tables : list string :=
  [tableComments; tableCommentLikes; tableCastVotes; tableAuthorizeVotes;
   tableVoteOptions; tableStartVotes; tableVoteOptionResults;
   tableVoteResults].

(** [if !tx.HasTable(name) { err := tx.CreateTable(...).Error; ... }]. *)
Definition ensure_table (n : string) : M (option error) :=
  do has <- HasTable n;
  if has then ret None else CreateTable n.

(** The eight blocks of [createTables] are the same block for eight
    tables, written here as a loop; the version record follows. *)
Definition createTables : M (option error) :=
  do err <- for_each ensure_table created_tables;
  match err with
  | Some e => ret (Some e)
  | None =>
      do has <- HasTable tableVersions;
      if has then
        do v <- First Versions (fun v => Version.ID v = bitumplugin.ID);
        match v with
        | Err gorm_ErrRecordNotFound =>
            fun w =>
              Create Versions
                {| Version.ID := bitumplugin.ID;
                   Version.Version := bitumVersion;
                   Version.Timestamp := clock w |} w
        | Err e => ret (Some e)
        | Ok _ => ret None
        end
      else ret (Some (errorString "versions table not found"))
  end.

(** [Delete(&Version{ID: bitumplugin.ID})]: by primary key. *)
Definition delete_version : M (option error) :=
  Delete Versions (fun v => Version.ID v = bitumplugin.ID).

Definition dropTables : M (option error) :=
  do err <- DropTableIfExists dropped_tables;
  match err with
  | Some e => ret (Some e)
  | None => delete_version
  end.

(** "Put authorize vote replies in a map for quick lookups". *)
Definition replies_by_receipt (l : list bitumplugin.AuthorizeVoteReply.t)
    : gmap string bitumplugin.AuthorizeVoteReply.t :=
  foldl (fun avr v => <[bitumplugin.AuthorizeVoteReply.Receipt v := v]> avr)
        ∅ l.

(** The body of the loop of [build] over the authorize votes. *)
Definition build_authorize_vote
    (avr : gmap string bitumplugin.AuthorizeVoteReply.t)
    (v : bitumplugin.AuthorizeVote.t) : M (option error) :=
  match avr !! bitumplugin.AuthorizeVote.Receipt v with
  | None =>
      ret (Some (errorString ("AuthorizeVoteReply not found "
                              +:+ bitumplugin.AuthorizeVote.Token v)))
  | Some r =>
      let version := bitumplugin.AuthorizeVoteReply.RecordVersion r in
      match ParseUint version with
      | Err e =>
          ret (Some (errorString ("parse version '" +:+ version
                                  +:+ "' failed: " +:+ Error e)))
      | Ok rv =>
          let av := convertAuthorizeVoteFromBitum v r rv in
          do err <- newAuthorizeVote av;
          ret (Errorf "newAuthorizeVote: " <$> err)
      end
  end.

(** The body of the loop of [build] over the start votes. *)
Definition build_start_vote (v : bitumplugin.StartVoteTuple.t)
    : M (option error) :=
  let svr := bitumplugin.StartVoteTuple.StartVoteReply v in
  let height := bitumplugin.StartVoteReply.EndHeight svr in
  match ParseUint height with
  | Err e =>
      ret (Some (errorString ("parse end height '" +:+ height
                              +:+ "': " +:+ Error e)))
  | Ok endHeight =>
      let sv := convertStartVoteFromBitum
                  (bitumplugin.StartVoteTuple.StartVote v) svr endHeight in
      do err <- newStartVote sv;
      ret (Errorf "newStartVote: " <$> err)
  end.

(** The five loops of [build] that replay the inventory, outside of any
    transaction. *)
Definition replay (ir : bitumplugin.InventoryReply.t) : M (option error) :=
  do err <- for_each
              (fun v =>
                 do err <- newComment (convertCommentFromBitum v);
                 ret (Errorf "newComment: " <$> err))
              (bitumplugin.InventoryReply.Comments ir);
  match err with
  | Some e => ret (Some e)
  | None =>
  do err <- for_each
              (fun v =>
                 do err <- newLikeComment (convertLikeCommentFromBitum v);
                 ret (Errorf "newLikeComment: " <$> err))
              (bitumplugin.InventoryReply.LikeComments ir);
  match err with
  | Some e => ret (Some e)
  | None =>
  let avr := replies_by_receipt
               (bitumplugin.InventoryReply.AuthorizeVoteReplies ir) in
  do err <- for_each (build_authorize_vote avr)
              (bitumplugin.InventoryReply.AuthorizeVotes ir);
  match err with
  | Some e => ret (Some e)
  | None =>
  do err <- for_each build_start_vote
              (bitumplugin.InventoryReply.StartVoteTuples ir);
  match err with
  | Some e => ret (Some e)
  | None =>
      for_each
        (fun v =>
           do err <- newCastVote (convertCastVoteFromBitum v);
           ret (Errorf "newCastVote: " <$> err))
        (bitumplugin.InventoryReply.CastVotes ir)
  end end end end.

Definition build (ir : bitumplugin.InventoryReply.t) : M (option error) :=
  do ended <- transaction dropTables;
  match ended with
  | BodyFailed e => ret (Some (Errorf "drop tables: " e))
  | CommitFailed e => ret (Some e)
  | Committed =>
      do ended' <- transaction createTables;
      match ended' with
      | BodyFailed e => ret (Some (Errorf "create tables: " e))
      | CommitFailed e => ret (Some e)
      | Committed => replay ir
      end
  end.

Definition out_of_sync : string :=
  "the cache is out of sync and will not rebuildautomatically; a rebuild must be forced".

Definition Build (payload : string) : M (outcome (option error)) :=
  match bitumplugin.DecodeInventoryReply payload with
  | Err e => ret (Returned (Some (Errorf "DecodeInventoryReply: " e)))
  | Ok ir =>
      do err <- build ir;
      match err with
      | Some e =>
          do err1 <- delete_version;
          match err1 with
          | Some _ => ret (Panicked out_of_sync)
          | None => ret (Returned (Some e))
          end
      | None => ret (Returned None)
      end
  end.

Definition Setup : M (option error) :=
  do ended <- transaction createTables;
  match ended with
  | BodyFailed e => ret (Some e)
  | CommitFailed e => ret (Some e)
  | Committed => ret None
  end.

Definition CheckVersion : M (option error) :=
  do has <- HasTable tableVersions;
  if has then
    do v <- First Versions (fun v => Version.ID v = bitumplugin.ID);
    match v with
    | Err gorm_ErrRecordNotFound => ret (Some cache_ErrNoVersionRecord)
    | Err e =>
        if decide (Version.Version Version.zero = bitumVersion)
        then ret (Some e) else ret (Some cache_ErrWrongVersion)
    | Ok v =>
        if decide (Version.Version v = bitumVersion)
        then ret None else ret (Some cache_ErrWrongVersion)
    end
  else ret (Some (errorString "versions table not found")).

End Handlers.

(** ** Vocabulary of the statements *)

(** The pair a handler returns once its reply is encoded. *)
Definition reply_of (r : result string) : reply :=
  match r with
  | Err e => ("", Some e)
  | Ok s => (s, None)
  end.

(** The store answers the next statement of [w] without a failure of its
    own. *)
Definition next_fault (w : World) : option error :=
  match faults w with
  | Some e :: _ => Some e
  | _ => None
  end.

(** The store fails no statement at all. *)
Definition trouble_free (w : World) : Prop :=
  Forall (fun f => f = None) (faults w).

(** The world once the store has answered one statement. *)
Definition answered (w : World) : World := with_faults (tail (faults w)) w.

(** A finished vote that has no vote results yet, as the query of
    [cmdTokenInventory] and [cmdLoadVoteResults] looks for it. *)
Definition stale (bestBlock : Z) (t : Tables) (sv : StartVote.t) : Prop :=
  StartVote.EndHeight sv <= bestBlock
  /\ Forall (fun vr => VoteResults.Token vr <> StartVote.Token sv)
            (vote_results t).

#[global] Instance stale_dec bestBlock t sv : Decision (stale bestBlock t sv).
Proof. unfold stale. apply _. Defined.

(** Every vote result belongs to a start vote. *)
Definition results_have_start_vote (t : Tables) : Prop :=
  forall vr, vr ∈ vote_results t ->
    exists sv, sv ∈ start_votes t /\ StartVote.Token sv = VoteResults.Token vr.

(** The code [m] keeps the property [I] of the tables it works on. *)
Definition preserves {A : Type} (I : Tables -> Prop) (m : M A) : Prop :=
  forall w, I (tables w) -> I (tables (m w).2).

(** The authorize votes with key [k]. *)
Definition authorize_votes_of (k : string) (t : Tables) : list AuthorizeVote.t :=
  filter (fun r => AuthorizeVote.Key r = k) (authorize_votes t).

Definition at_most_one_per_key (t : Tables) : Prop :=
  forall k, (length (authorize_votes_of k t) <= 1)%nat.

(** The vote results of [token]. *)
Definition vote_results_of (token : string) (t : Tables) : list VoteResults.t :=
  filter (fun vr => VoteResults.Token vr = token) (vote_results t).

(** The quorum and pass thresholds as the spec words them,
    [floor(percentage / 100 * n)], in exact arithmetic. *)
Definition floor_percent (percentage n : Z) : Z := percentage * n / 100.

(** ** Sample data *)

(** A small codec and a few database states, on which the statements
    below are exercised. *)
Module Sample.

(** The payloads the sample codec knows; anything else is malformed. *)
Definition pick {A : Type} (known : list (string * A)) (payload : string)
    : result A :=
  match list_find (fun entry => entry.1 = payload) known with
  | Some (_, (_, a)) => Ok a
  | None => Err (errorString "invalid character looking for beginning of value")
  end.

Definition censor (id : string) : bitumplugin.CensorComment.t :=
  {| bitumplugin.CensorComment.Token := "tok";
     bitumplugin.CensorComment.CommentID := id;
     bitumplugin.CensorComment.Reason := "spam";
     bitumplugin.CensorComment.Signature := "sig";
     bitumplugin.CensorComment.PublicKey := "admin" |}.

Definition authorize (action signature : string) : bitumplugin.AuthorizeVote.t :=
  {| bitumplugin.AuthorizeVote.Action := action;
     bitumplugin.AuthorizeVote.Token := "tok";
     bitumplugin.AuthorizeVote.Signature := signature;
     bitumplugin.AuthorizeVote.PublicKey := "author";
     bitumplugin.AuthorizeVote.Receipt := "";
     bitumplugin.AuthorizeVote.Timestamp := 0 |}.

Definition authorize_reply (action receipt : string) (timestamp : Z)
    : bitumplugin.AuthorizeVoteReply.t :=
  {| bitumplugin.AuthorizeVoteReply.Action := action;
     bitumplugin.AuthorizeVoteReply.RecordVersion := "1";
     bitumplugin.AuthorizeVoteReply.Receipt := receipt;
     bitumplugin.AuthorizeVoteReply.Timestamp := timestamp |}.

Definition cast (ticket bit : string) : bitumplugin.CastVote.t :=
  {| bitumplugin.CastVote.Token := "tok";
     bitumplugin.CastVote.Ticket := ticket;
     bitumplugin.CastVote.VoteBit := bit;
     bitumplugin.CastVote.Signature := "sig" |}.

Definition wire_comment : bitumplugin.Comment.t :=
  {| bitumplugin.Comment.Token := "tok";
     bitumplugin.Comment.ParentID := "0";
     bitumplugin.Comment.Comment := "first";
     bitumplugin.Comment.Signature := "sig";
     bitumplugin.Comment.PublicKey := "alice";
     bitumplugin.Comment.CommentID := "1";
     bitumplugin.Comment.Receipt := "rcpt";
     bitumplugin.Comment.Timestamp := 1;
     bitumplugin.Comment.TotalVotes := 0;
     bitumplugin.Comment.ResultVotes := 0;
     bitumplugin.Comment.Censored := false |}.

Definition inventory : bitumplugin.InventoryReply.t :=
  {| bitumplugin.InventoryReply.Comments := [wire_comment];
     bitumplugin.InventoryReply.LikeComments := [];
     bitumplugin.InventoryReply.AuthorizeVotes := [];
     bitumplugin.InventoryReply.AuthorizeVoteReplies := [];
     bitumplugin.InventoryReply.StartVoteTuples := [];
     bitumplugin.InventoryReply.CastVotes := [] |}.

Definition show_buckets (r : bitumplugin.TokenInventoryReply.t) : string :=
  "pre=" +:+ Join (bitumplugin.TokenInventoryReply.Pre r) ","
  +:+ " active=" +:+ Join (bitumplugin.TokenInventoryReply.Active r) ","
  +:+ " approved=" +:+ Join (bitumplugin.TokenInventoryReply.Approved r) ","
  +:+ " rejected=" +:+ Join (bitumplugin.TokenInventoryReply.Rejected r) ","
  +:+ " abandoned=" +:+ Join (bitumplugin.TokenInventoryReply.Abandoned r) ",".

Definition codec : bitumplugin.Codec :=
  {| bitumplugin.DecodeNewComment := pick [];
     bitumplugin.DecodeNewCommentReply := pick [];
     bitumplugin.DecodeLikeComment := pick [];
     bitumplugin.DecodeCensorComment :=
       pick [("censor 1", censor "1"); ("censor 9", censor "9")];
     bitumplugin.DecodeGetComment := pick [];
     bitumplugin.DecodeGetComments := pick [];
     bitumplugin.DecodeCommentLikes := pick [];
     bitumplugin.DecodeGetProposalCommentsLikes := pick [];
     bitumplugin.DecodeAuthorizeVote :=
       pick [("authorize", authorize "authorize" "sig-a");
             ("revoke", authorize "revoke" "sig-b")];
     bitumplugin.DecodeAuthorizeVoteReply :=
       pick [("authorized", authorize_reply "authorize" "rcpt-a" 100);
             ("revoked", authorize_reply "revoke" "rcpt-b" 200)];
     bitumplugin.DecodeStartVote := pick [];
     bitumplugin.DecodeStartVoteReply := pick [];
     bitumplugin.DecodeVoteDetails :=
       pick [("tok", {| bitumplugin.VoteDetails.Token := "tok" |})];
     bitumplugin.DecodeBallot :=
       pick [("ballot",
              {| bitumplugin.Ballot.Votes := [cast "t1" "2"; cast "t2" "1"] |})];
     bitumplugin.DecodeVoteResults := pick [];
     bitumplugin.DecodeLoadVoteResults :=
       pick [("block 100", {| bitumplugin.LoadVoteResults.BestBlock := 100 |})];
     bitumplugin.DecodeTokenInventory :=
       pick [("block 100", {| bitumplugin.TokenInventory.BestBlock := 100 |})];
     bitumplugin.DecodeVoteSummary := pick [];
     bitumplugin.DecodeInventoryReply := pick [("inventory", inventory)];
     bitumplugin.EncodeGetCommentReply := fun _ => Ok "comment";
     bitumplugin.EncodeGetCommentsReply := fun _ => Ok "comments";
     bitumplugin.EncodeCommentLikesReply := fun _ => Ok "likes";
     bitumplugin.EncodeGetProposalCommentsLikesReply := fun _ => Ok "likes";
     bitumplugin.EncodeVoteDetailsReply := fun _ => Ok "details";
     bitumplugin.EncodeVoteResultsReply := fun _ => Ok "votes";
     bitumplugin.EncodeInventoryReply := fun _ => Ok "inventory";
     bitumplugin.EncodeLoadVoteResultsReply := fun _ => Ok "{}";
     bitumplugin.EncodeTokenInventoryReply := fun r => Ok (show_buckets r);
     bitumplugin.EncodeVoteSummaryReply := fun _ => Ok "summary" |}.

Definition all_tables : list string :=
  [tableRecords; tableVersions; tableComments; tableCommentLikes;
   tableCastVotes; tableAuthorizeVotes; tableVoteOptions; tableStartVotes;
   tableVoteOptionResults; tableVoteResults].

(** All the tables, without a row. *)
Definition no_rows : Tables :=
  {| existing := all_tables; records := []; versions := []; comments := [];
     comment_likes := []; cast_votes := []; authorize_votes := [];
     start_votes := []; vote_results := [] |}.

Definition world (t : Tables) (fs : list (option error)) : World :=
  {| tables := t; faults := fs; clock := 1572393600 |}.

Definition yes : VoteOption.t :=
  {| VoteOption.Token := "tok"; VoteOption.ID := "yes";
     VoteOption.Description := "approve the proposal"; VoteOption.Bits := 2 |}.

Definition no : VoteOption.t :=
  {| VoteOption.Token := "tok"; VoteOption.ID := "no";
     VoteOption.Description := "reject the proposal"; VoteOption.Bits := 1 |}.

(** A yes/no vote on [token] ending at [endHeight], with [tickets]
    eligible tickets. *)
Definition start_vote (token : string) (endHeight quorum pass : Z)
    (tickets : nat) : StartVote.t :=
  {| StartVote.Token := token; StartVote.Mask := 3; StartVote.Duration := 2016;
     StartVote.QuorumPercentage := quorum; StartVote.PassPercentage := pass;
     StartVote.Options := [yes; no]; StartVote.PublicKey := "admin";
     StartVote.Signature := "sig"; StartVote.StartBlockHeight := "1";
     StartVote.StartBlockHash := "hash"; StartVote.EndHeight := endHeight;
     StartVote.EligibleTickets := Join (replicate tickets "ticket") ",";
     StartVote.EligibleTicketCount := Z.of_nat tickets |}.

Definition cast_row (token bit : string) : CastVote.t :=
  {| CastVote.Token := token; CastVote.Ticket := "ticket";
     CastVote.VoteBit := bit; CastVote.Signature := "sig";
     CastVote.TokenVoteBit := token +:+ bit |}.

(** 58 percent of 50 eligible tickets is 29 tickets; 28 were cast, all of
    them for "yes". *)
Definition short_of_quorum : Tables :=
  {| existing := all_tables; records := []; versions := []; comments := [];
     comment_likes := [];
     cast_votes := replicate 28 (cast_row "tok" "2");
     authorize_votes := [];
     start_votes := [start_vote "tok" 10 58 60 50];
     vote_results := [] |}.

Definition comment_row (id text : string) : Comment.t :=
  {| Comment.Key := "tok" +:+ id; Comment.Token := "tok";
     Comment.ParentID := "0"; Comment.Comment := text;
     Comment.Signature := "sig"; Comment.PublicKey := "alice";
     Comment.CommentID := id; Comment.Receipt := "rcpt";
     Comment.Timestamp := 1; Comment.TotalVotes := 3;
     Comment.ResultVotes := 1; Comment.Censored := false |}.

(** Two comments on the proposal [tok], and the version record. *)
Definition commented : Tables :=
  {| existing := all_tables; records := [];
     versions := [{| Version.ID := bitumplugin.ID;
                     Version.Version := bitumVersion;
                     Version.Timestamp := 1 |}];
     comments := [comment_row "1" "hello"; comment_row "2" "world"];
     comment_likes := []; cast_votes := []; authorize_votes := [];
     start_votes := []; vote_results := [] |}.

Definition vote_result (token : string) (approved : bool) : VoteResults.t :=
  {| VoteResults.Token := token; VoteResults.Approved := approved;
     VoteResults.Results := [] |}.

(** Four votes seen at block 100: [a] and [b] have ended and have their
    results, [c] and [d] are still running. *)
Definition four_votes : Tables :=
  {| existing := all_tables; records := []; versions := []; comments := [];
     comment_likes := []; cast_votes := []; authorize_votes := [];
     start_votes := [start_vote "a" 50 20 60 5; start_vote "c" 150 20 60 5;
                     start_vote "b" 60 20 60 5; start_vote "d" 200 20 60 5];
     vote_results := [vote_result "a" true; vote_result "b" false] |}.

(** The same with a fifth vote, [e], that ended at block 90 and has no
    results yet. *)
Definition five_votes : Tables :=
  with_rows StartVotes (start_votes four_votes ++ [start_vote "e" 90 20 60 5])
    four_votes.

(** A failure of the store. *)
Definition boom : error := errorString "driver: bad connection".

End Sample.

(** ** Vocabulary of the further properties *)

(** The tables once the table [n] is made sure of: created when it does
    not exist, with all the rows left as they are. *)
Definition ensured (t : Tables) (n : string) : Tables :=
  if decide (n ∈ existing t) then t else with_existing (n :: existing t) t.

(** The version record that [createTables] inserts at time [now]. *)
Definition version_record (now : Z) : Version.t :=
  {| Version.ID := bitumplugin.ID; Version.Version := bitumVersion;
     Version.Timestamp := now |}.

(** The version records of the plugin. *)
Definition plugin_versions (t : Tables) : list Version.t :=
  filter (fun v => Version.ID v = bitumplugin.ID) (versions t).

(** The tables that a successful [createTables] leaves at time [now]: the
    plugin's tables exist, and the plugin has a version record. *)
Definition set_up (now : Z) (t : Tables) : Tables :=
  let t' := foldl ensured t created_tables in
  match plugin_versions t' with
  | [] => with_rows Versions (versions t' ++ [version_record now]) t'
  | _ :: _ => t'
  end.

(** ** Sample data for the comments *)

(** The sample codec, knowing a new comment, a like and the queries on the
    comments of [tok] as well, and showing what it encodes. *)
Module Forum.

Definition new_comment : bitumplugin.NewComment.t :=
  {| bitumplugin.NewComment.Token := "tok";
     bitumplugin.NewComment.ParentID := "0";
     bitumplugin.NewComment.Comment := "third";
     bitumplugin.NewComment.Signature := "sig";
     bitumplugin.NewComment.PublicKey := "bob" |}.

Definition new_comment_reply : bitumplugin.NewCommentReply.t :=
  {| bitumplugin.NewCommentReply.CommentID := "3";
     bitumplugin.NewCommentReply.Receipt := "rcpt3";
     bitumplugin.NewCommentReply.Timestamp := 7 |}.

Definition like : bitumplugin.LikeComment.t :=
  {| bitumplugin.LikeComment.Token := "tok";
     bitumplugin.LikeComment.CommentID := "1";
     bitumplugin.LikeComment.Action := "1";
     bitumplugin.LikeComment.Signature := "sig";
     bitumplugin.LikeComment.PublicKey := "carol";
     bitumplugin.LikeComment.Receipt := "rcpt-l";
     bitumplugin.LikeComment.Timestamp := 8 |}.

(** The censor command that the payload [{}] decodes to: every field is
    blank. *)
Definition blank_censor : bitumplugin.CensorComment.t :=
  {| bitumplugin.CensorComment.Token := "";
     bitumplugin.CensorComment.CommentID := "";
     bitumplugin.CensorComment.Reason := "";
     bitumplugin.CensorComment.Signature := "";
     bitumplugin.CensorComment.PublicKey := "" |}.

Definition get (id : string) : bitumplugin.GetComment.t :=
  {| bitumplugin.GetComment.Token := "tok";
     bitumplugin.GetComment.CommentID := id |}.

Definition show_comments (l : list bitumplugin.Comment.t) : string :=
  Join (bitumplugin.Comment.Comment <$> l) ",".

Definition show_likes (l : list bitumplugin.LikeComment.t) : string :=
  Join ((fun v => bitumplugin.LikeComment.PublicKey v +:+ " on "
                  +:+ bitumplugin.LikeComment.CommentID v) <$> l) ",".

Definition codec : bitumplugin.Codec :=
  {| bitumplugin.DecodeNewComment := Sample.pick [("comment", new_comment)];
     bitumplugin.DecodeNewCommentReply :=
       Sample.pick [("reply", new_comment_reply)];
     bitumplugin.DecodeLikeComment := Sample.pick [("like", like)];
     bitumplugin.DecodeCensorComment :=
       Sample.pick [("censor 1", Sample.censor "1"); ("{}", blank_censor)];
     bitumplugin.DecodeGetComment :=
       Sample.pick [("get 1", get "1"); ("get 3", get "3")];
     bitumplugin.DecodeGetComments :=
       Sample.pick [("tok", {| bitumplugin.GetComments.Token := "tok" |})];
     bitumplugin.DecodeCommentLikes :=
       Sample.pick [("tok 1", {| bitumplugin.CommentLikes.Token := "tok";
                                 bitumplugin.CommentLikes.CommentID := "1" |});
                    ("tok 2", {| bitumplugin.CommentLikes.Token := "tok";
                                 bitumplugin.CommentLikes.CommentID := "2" |})];
     bitumplugin.DecodeGetProposalCommentsLikes :=
       Sample.pick
         [("tok", {| bitumplugin.GetProposalCommentsLikes.Token := "tok" |})];
     bitumplugin.DecodeAuthorizeVote :=
       @bitumplugin.DecodeAuthorizeVote Sample.codec;
     bitumplugin.DecodeAuthorizeVoteReply :=
       @bitumplugin.DecodeAuthorizeVoteReply Sample.codec;
     bitumplugin.DecodeStartVote := @bitumplugin.DecodeStartVote Sample.codec;
     bitumplugin.DecodeStartVoteReply :=
       @bitumplugin.DecodeStartVoteReply Sample.codec;
     bitumplugin.DecodeVoteDetails :=
       @bitumplugin.DecodeVoteDetails Sample.codec;
     bitumplugin.DecodeBallot := @bitumplugin.DecodeBallot Sample.codec;
     bitumplugin.DecodeVoteResults :=
       @bitumplugin.DecodeVoteResults Sample.codec;
     bitumplugin.DecodeLoadVoteResults :=
       @bitumplugin.DecodeLoadVoteResults Sample.codec;
     bitumplugin.DecodeTokenInventory :=
       @bitumplugin.DecodeTokenInventory Sample.codec;
     bitumplugin.DecodeVoteSummary :=
       @bitumplugin.DecodeVoteSummary Sample.codec;
     bitumplugin.DecodeInventoryReply :=
       @bitumplugin.DecodeInventoryReply Sample.codec;
     bitumplugin.EncodeGetCommentReply :=
       fun r =>
         Ok (bitumplugin.Comment.CommentID (bitumplugin.GetCommentReply.Comment r)
             +:+ ": "
             +:+ bitumplugin.Comment.Comment (bitumplugin.GetCommentReply.Comment r));
     bitumplugin.EncodeGetCommentsReply :=
       fun r => Ok (show_comments (bitumplugin.GetCommentsReply.Comments r));
     bitumplugin.EncodeCommentLikesReply :=
       fun r => Ok (show_likes (bitumplugin.CommentLikesReply.CommentLikes r));
     bitumplugin.EncodeGetProposalCommentsLikesReply :=
       fun r =>
         Ok (show_likes
               (bitumplugin.GetProposalCommentsLikesReply.CommentsLikes r));
     bitumplugin.EncodeVoteDetailsReply :=
       @bitumplugin.EncodeVoteDetailsReply Sample.codec;
     bitumplugin.EncodeVoteResultsReply :=
       @bitumplugin.EncodeVoteResultsReply Sample.codec;
     bitumplugin.EncodeInventoryReply :=
       fun r => Ok (show_comments (bitumplugin.InventoryReply.Comments r));
     bitumplugin.EncodeLoadVoteResultsReply :=
       @bitumplugin.EncodeLoadVoteResultsReply Sample.codec;
     bitumplugin.EncodeTokenInventoryReply :=
       @bitumplugin.EncodeTokenInventoryReply Sample.codec;
     bitumplugin.EncodeVoteSummaryReply :=
       @bitumplugin.EncodeVoteSummaryReply Sample.codec |}.

(** A store whose version record is of an older plugin. *)
Definition outdated : Tables :=
  with_rows Versions
    [{| Version.ID := bitumplugin.ID; Version.Version := "1";
        Version.Timestamp := 1 |}]
    Sample.no_rows.

(** A store that has only the tables of the records cache. *)
Definition bare : Tables :=
  with_existing [tableRecords; tableVersions] Sample.no_rows.

End Forum.

(** ** Vocabulary of the vote summary *)

(** The option results that [cmdVoteSummary] counts by hand: for each
    option, the number of cast votes whose [token_vote_bit] column is the
    token of the option followed by its bits in hexadecimal. *)
Definition counted_by_hand (t : Tables) (options : list VoteOption.t)
    : list bitumplugin.VoteOptionResult.t :=
  (fun v =>
     {| bitumplugin.VoteOptionResult.ID := VoteOption.ID v;
        bitumplugin.VoteOptionResult.Description := VoteOption.Description v;
        bitumplugin.VoteOptionResult.Bits := VoteOption.Bits v;
        bitumplugin.VoteOptionResult.Votes :=
          Z.of_nat
            (length
               (filter (fun cv => CastVote.TokenVoteBit cv
                                  = VoteOption.Token v
                                    +:+ FormatUint (VoteOption.Bits v) 16)
                       (cast_votes t))) |}) <$> options.

(** A cast vote as [convertCastVoteFromBitum] makes it, for a token as long
    as [token]: the [token_vote_bit] column is the token followed by the
    vote bit. *)
Definition well_formed_cast_vote (token : string) (cv : CastVote.t) : Prop :=
  CastVote.TokenVoteBit cv = CastVote.Token cv +:+ CastVote.VoteBit cv
  /\ String.length (CastVote.Token cv) = String.length token.

(** ** Vocabulary of the rebuild *)

(** The authorize votes once [newAuthorizeVote] has put [av] in: the rows
    with its key are deleted, and it is appended. *)
Definition replaced (l : list AuthorizeVote.t) (av : AuthorizeVote.t)
    : list AuthorizeVote.t :=
  filter (fun r => ~ AuthorizeVote.Key r = AuthorizeVote.Key av) l ++ [av].

(** The row that [build] makes of an authorize vote of the inventory: the
    reply is the one with the receipt of the vote, and its record version
    has to be a number. *)
Definition inventory_authorize_vote (ir : bitumplugin.InventoryReply.t)
    (v : bitumplugin.AuthorizeVote.t) : option AuthorizeVote.t :=
  match replies_by_receipt (bitumplugin.InventoryReply.AuthorizeVoteReplies ir)
        !! bitumplugin.AuthorizeVote.Receipt v with
  | Some r =>
      match ParseUint (bitumplugin.AuthorizeVoteReply.RecordVersion r) with
      | Ok rv => Some (convertAuthorizeVoteFromBitum v r rv)
      | Err _ => None
      end
  | None => None
  end.

(** The row that [build] makes of a start vote of the inventory: the end
    height of its reply has to be a number. *)
Definition inventory_start_vote (v : bitumplugin.StartVoteTuple.t)
    : option StartVote.t :=
  let svr := bitumplugin.StartVoteTuple.StartVoteReply v in
  match ParseUint (bitumplugin.StartVoteReply.EndHeight svr) with
  | Ok endHeight =>
      Some (convertStartVoteFromBitum (bitumplugin.StartVoteTuple.StartVote v)
              svr endHeight)
  | Err _ => None
  end.

(** An inventory that [build] replays to its end on a store that answers:
    every authorize vote has its reply, and the numbers are numbers. *)
Definition replayable (ir : bitumplugin.InventoryReply.t) : Prop :=
  Forall (fun v => is_Some (inventory_authorize_vote ir v))
         (bitumplugin.InventoryReply.AuthorizeVotes ir)
  /\ Forall (fun v => is_Some (inventory_start_vote v))
            (bitumplugin.InventoryReply.StartVoteTuples ir).

(** ** Sample data for the votes *)

(** The sample codec, knowing a start vote, the queries on the votes of
    [tok] and a full inventory as well, and showing what it encodes. *)
Module Polls.

Definition wire_start_vote : bitumplugin.StartVote.t :=
  {| bitumplugin.StartVote.PublicKey := "admin";
     bitumplugin.StartVote.Vote :=
       {| bitumplugin.Vote.Token := "tok"; bitumplugin.Vote.Mask := 3;
          bitumplugin.Vote.Duration := 2016;
          bitumplugin.Vote.QuorumPercentage := 20;
          bitumplugin.Vote.PassPercentage := 60;
          bitumplugin.Vote.Options :=
            [{| bitumplugin.VoteOption.Id := "no";
                bitumplugin.VoteOption.Description := "reject the proposal";
                bitumplugin.VoteOption.Bits := 1 |};
             {| bitumplugin.VoteOption.Id := "yes";
                bitumplugin.VoteOption.Description := "approve the proposal";
                bitumplugin.VoteOption.Bits := 2 |}] |};
     bitumplugin.StartVote.Signature := "sig" |}.

Definition wire_start_vote_reply : bitumplugin.StartVoteReply.t :=
  {| bitumplugin.StartVoteReply.StartBlockHeight := "100";
     bitumplugin.StartVoteReply.StartBlockHash := "hash";
     bitumplugin.StartVoteReply.EndHeight := "2116";
     bitumplugin.StartVoteReply.EligibleTickets := ["t1"; "t2"; "t3"] |}.

Definition wire_authorize : bitumplugin.AuthorizeVote.t :=
  {| bitumplugin.AuthorizeVote.Action := "authorize";
     bitumplugin.AuthorizeVote.Token := "tok";
     bitumplugin.AuthorizeVote.Signature := "sig-a";
     bitumplugin.AuthorizeVote.PublicKey := "author";
     bitumplugin.AuthorizeVote.Receipt := "rcpt-a";
     bitumplugin.AuthorizeVote.Timestamp := 100 |}.

(** An inventory with one entry of every kind. *)
Definition inventory : bitumplugin.InventoryReply.t :=
  {| bitumplugin.InventoryReply.Comments := [Sample.wire_comment];
     bitumplugin.InventoryReply.LikeComments := [Forum.like];
     bitumplugin.InventoryReply.AuthorizeVotes := [wire_authorize];
     bitumplugin.InventoryReply.AuthorizeVoteReplies :=
       [Sample.authorize_reply "authorize" "rcpt-a" 100];
     bitumplugin.InventoryReply.StartVoteTuples :=
       [{| bitumplugin.StartVoteTuple.StartVote := wire_start_vote;
           bitumplugin.StartVoteTuple.StartVoteReply :=
             wire_start_vote_reply |}];
     bitumplugin.InventoryReply.CastVotes :=
       [Sample.cast "t1" "2"; Sample.cast "t2" "1"] |}.

Definition show_results (l : list bitumplugin.VoteOptionResult.t) : string :=
  Join ((fun r => bitumplugin.VoteOptionResult.ID r +:+ "="
                  +:+ FormatUint (bitumplugin.VoteOptionResult.Votes r) 10)
          <$> l) ",".

Definition codec : bitumplugin.Codec :=
  {| bitumplugin.DecodeNewComment := @bitumplugin.DecodeNewComment Forum.codec;
     bitumplugin.DecodeNewCommentReply :=
       @bitumplugin.DecodeNewCommentReply Forum.codec;
     bitumplugin.DecodeLikeComment :=
       @bitumplugin.DecodeLikeComment Forum.codec;
     bitumplugin.DecodeCensorComment :=
       @bitumplugin.DecodeCensorComment Forum.codec;
     bitumplugin.DecodeGetComment := @bitumplugin.DecodeGetComment Forum.codec;
     bitumplugin.DecodeGetComments :=
       @bitumplugin.DecodeGetComments Forum.codec;
     bitumplugin.DecodeCommentLikes :=
       @bitumplugin.DecodeCommentLikes Forum.codec;
     bitumplugin.DecodeGetProposalCommentsLikes :=
       @bitumplugin.DecodeGetProposalCommentsLikes Forum.codec;
     bitumplugin.DecodeAuthorizeVote :=
       @bitumplugin.DecodeAuthorizeVote Forum.codec;
     bitumplugin.DecodeAuthorizeVoteReply :=
       @bitumplugin.DecodeAuthorizeVoteReply Forum.codec;
     bitumplugin.DecodeStartVote := Sample.pick [("start", wire_start_vote)];
     bitumplugin.DecodeStartVoteReply :=
       Sample.pick [("started", wire_start_vote_reply)];
     bitumplugin.DecodeVoteDetails :=
       @bitumplugin.DecodeVoteDetails Forum.codec;
     bitumplugin.DecodeBallot := @bitumplugin.DecodeBallot Forum.codec;
     bitumplugin.DecodeVoteResults :=
       Sample.pick [("tok", {| bitumplugin.VoteResults.Token := "tok" |})];
     bitumplugin.DecodeLoadVoteResults :=
       @bitumplugin.DecodeLoadVoteResults Forum.codec;
     bitumplugin.DecodeTokenInventory :=
       @bitumplugin.DecodeTokenInventory Forum.codec;
     bitumplugin.DecodeVoteSummary :=
       Sample.pick [("tok", {| bitumplugin.VoteSummary.Token := "tok" |})];
     bitumplugin.DecodeInventoryReply :=
       Sample.pick [("inventory", inventory)];
     bitumplugin.EncodeGetCommentReply :=
       @bitumplugin.EncodeGetCommentReply Forum.codec;
     bitumplugin.EncodeGetCommentsReply :=
       @bitumplugin.EncodeGetCommentsReply Forum.codec;
     bitumplugin.EncodeCommentLikesReply :=
       @bitumplugin.EncodeCommentLikesReply Forum.codec;
     bitumplugin.EncodeGetProposalCommentsLikesReply :=
       @bitumplugin.EncodeGetProposalCommentsLikesReply Forum.codec;
     bitumplugin.EncodeVoteDetailsReply :=
       fun r =>
         Ok (bitumplugin.AuthorizeVote.Action
               (bitumplugin.VoteDetailsReply.AuthorizeVote r)
             +:+ " ends="
             +:+ bitumplugin.StartVoteReply.EndHeight
                   (bitumplugin.VoteDetailsReply.StartVoteReply r)
             +:+ " tickets="
             +:+ Join (bitumplugin.StartVoteReply.EligibleTickets
                         (bitumplugin.VoteDetailsReply.StartVoteReply r)) ",");
     bitumplugin.EncodeVoteResultsReply :=
       fun r =>
         Ok (Join ((fun v => bitumplugin.CastVote.Ticket v +:+ ":"
                             +:+ bitumplugin.CastVote.VoteBit v)
                     <$> bitumplugin.VoteResultsReply.CastVotes r) ",");
     bitumplugin.EncodeInventoryReply :=
       @bitumplugin.EncodeInventoryReply Forum.codec;
     bitumplugin.EncodeLoadVoteResultsReply :=
       @bitumplugin.EncodeLoadVoteResultsReply Forum.codec;
     bitumplugin.EncodeTokenInventoryReply :=
       @bitumplugin.EncodeTokenInventoryReply Forum.codec;
     bitumplugin.EncodeVoteSummaryReply :=
       fun r => Ok (show_results (bitumplugin.VoteSummaryReply.Results r)) |}.

Definition record_row (token : string) (version : Z) : RecordRow.t :=
  {| RecordRow.Token := token; RecordRow.Version := version;
     RecordRow.Status := pd.RecordStatusPublic; RecordRow.Timestamp := 1 |}.

(** The proposal [tok], at its second version, with nothing else. *)
Definition registered : Tables :=
  with_rows Records [record_row "tok" 1; record_row "tok" 2] Sample.no_rows.

(** The proposal [tok] with its vote authorized and started, three votes
    cast on it and one on another proposal, and no vote result. *)
Definition voting : Tables :=
  {| existing := Sample.all_tables;
     records := [record_row "tok" 1];
     versions := [];
     comments := [];
     comment_likes := [];
     cast_votes := [Sample.cast_row "tok" "2"; Sample.cast_row "xyz" "2";
                    Sample.cast_row "tok" "1"; Sample.cast_row "tok" "2"];
     authorize_votes :=
       [convertAuthorizeVoteFromBitum wire_authorize
          (Sample.authorize_reply "authorize" "rcpt-a" 100) 1];
     start_votes := [Sample.start_vote "tok" 10 20 60 5];
     vote_results := [] |}.

End Polls.

(** * The test cache

    The plugin commands of package [testcache], the in-memory stand-in for
    the cache: four of the commands of the plugin, over Go maps. *)
Module testcache.

(** The maps of [testcache] that the plugin commands read and write.  A
    missing key reads as the zero value of the element type, as in Go. *)
Record t := {
  comments : gmap string (list bitumplugin.Comment.t);
  authorizeVotes : gmap string (gmap string bitumplugin.AuthorizeVote.t);
  startVotes : gmap string bitumplugin.StartVote.t;
  startVoteReplies : gmap string bitumplugin.StartVoteReply.t
}.

Definition with_authorizeVotes
    (m : gmap string (gmap string bitumplugin.AuthorizeVote.t)) (c : t) : t :=
  {| comments := comments c; authorizeVotes := m;
     startVotes := startVotes c; startVoteReplies := startVoteReplies c |}.

Definition with_startVote (token : string) (sv : bitumplugin.StartVote.t)
    (svr : bitumplugin.StartVoteReply.t) (c : t) : t :=
  {| comments := comments c; authorizeVotes := authorizeVotes c;
     startVotes := <[token := sv]> (startVotes c);
     startVoteReplies := <[token := svr]> (startVoteReplies c) |}.

(** The zero values that a lookup of a missing key returns. *)
Definition zero_AuthorizeVote : bitumplugin.AuthorizeVote.t :=
  {| bitumplugin.AuthorizeVote.Action := "";
     bitumplugin.AuthorizeVote.Token := "";
     bitumplugin.AuthorizeVote.Signature := "";
     bitumplugin.AuthorizeVote.PublicKey := "";
     bitumplugin.AuthorizeVote.Receipt := "";
     bitumplugin.AuthorizeVote.Timestamp := 0 |}.

Definition zero_StartVote : bitumplugin.StartVote.t :=
  {| bitumplugin.StartVote.PublicKey := "";
     bitumplugin.StartVote.Vote :=
       {| bitumplugin.Vote.Token := ""; bitumplugin.Vote.Mask := 0;
          bitumplugin.Vote.Duration := 0;
          bitumplugin.Vote.QuorumPercentage := 0;
          bitumplugin.Vote.PassPercentage := 0;
          bitumplugin.Vote.Options := [] |};
     bitumplugin.StartVote.Signature := "" |}.

Definition zero_StartVoteReply : bitumplugin.StartVoteReply.t :=
  {| bitumplugin.StartVoteReply.StartBlockHeight := "";
     bitumplugin.StartVoteReply.StartBlockHash := "";
     bitumplugin.StartVoteReply.EndHeight := "";
     bitumplugin.StartVoteReply.EligibleTickets := [] |}.

(** [c.authorizeVotes[token][version]]. *)
Definition authorizeVote_of (c : t) (token version : string)
    : bitumplugin.AuthorizeVote.t :=
  default zero_AuthorizeVote
    (default ∅ (authorizeVotes c !! token) !! version).

Section Commands.

Context `{codec : bitumplugin.Codec}.

(** [c.record(token)], of the part of the package that is not among the
    sources at hand: the version of the latest record of the token, or an
    error.  It reads the records of the cache, which the commands below do
    not write. *)
Variable record : string -> result string.

Definition getComments (payload : string) (c : t) : reply * t :=
  match bitumplugin.DecodeGetComments payload with
  | Err e => (("", Some e), c)
  | Ok gc =>
      match bitumplugin.EncodeGetCommentsReply
              {| bitumplugin.GetCommentsReply.Comments :=
                   default [] (comments c
                               !! bitumplugin.GetComments.Token gc) |} with
      | Err e => (("", Some e), c)
      | Ok gcrb => ((gcrb, None), c)
      end
  end.

Definition authorizeVote (cmdPayload replyPayload : string) (c : t)
    : reply * t :=
  match bitumplugin.DecodeAuthorizeVote cmdPayload with
  | Err e => (("", Some e), c)
  | Ok av =>
      match bitumplugin.DecodeAuthorizeVoteReply replyPayload with
      | Err e => (("", Some e), c)
      | Ok avr =>
          let av' :=
            {| bitumplugin.AuthorizeVote.Action :=
                 bitumplugin.AuthorizeVote.Action av;
               bitumplugin.AuthorizeVote.Token :=
                 bitumplugin.AuthorizeVote.Token av;
               bitumplugin.AuthorizeVote.Signature :=
                 bitumplugin.AuthorizeVote.Signature av;
               bitumplugin.AuthorizeVote.PublicKey :=
                 bitumplugin.AuthorizeVote.PublicKey av;
               bitumplugin.AuthorizeVote.Receipt :=
                 bitumplugin.AuthorizeVoteReply.Receipt avr;
               bitumplugin.AuthorizeVote.Timestamp :=
                 bitumplugin.AuthorizeVoteReply.Timestamp avr |} in
          let token := bitumplugin.AuthorizeVote.Token av' in
          let versions := default ∅ (authorizeVotes c !! token) in
          ((replyPayload, None),
           with_authorizeVotes
             (<[token :=
                  <[bitumplugin.AuthorizeVoteReply.RecordVersion avr := av']>
                    versions]> (authorizeVotes c)) c)
      end
  end.

Definition startVote (cmdPayload replyPayload : string) (c : t) : reply * t :=
  match bitumplugin.DecodeStartVote cmdPayload with
  | Err e => (("", Some e), c)
  | Ok sv =>
      match bitumplugin.DecodeStartVoteReply replyPayload with
      | Err e => (("", Some e), c)
      | Ok svr =>
          ((replyPayload, None),
           with_startVote
             (bitumplugin.Vote.Token (bitumplugin.StartVote.Vote sv)) sv svr c)
      end
  end.

Definition voteDetails (payload : string) (c : t) : reply * t :=
  match bitumplugin.DecodeVoteDetails payload with
  | Err e => (("", Some e), c)
  | Ok vd =>
      let token := bitumplugin.VoteDetails.Token vd in
      match record token with
      | Err e => (("", Some e), c)
      | Ok version =>
          let c' :=
            match authorizeVotes c !! token with
            | Some _ => c
            | None => with_authorizeVotes (<[token := ∅]> (authorizeVotes c)) c
            end in
          match bitumplugin.EncodeVoteDetailsReply
                  {| bitumplugin.VoteDetailsReply.AuthorizeVote :=
                       authorizeVote_of c' token version;
                     bitumplugin.VoteDetailsReply.StartVote :=
                       default zero_StartVote (startVotes c' !! token);
                     bitumplugin.VoteDetailsReply.StartVoteReply :=
                       default zero_StartVoteReply
                         (startVoteReplies c' !! token) |} with
          | Err e => (("", Some e), c')
          | Ok vdb => ((vdb, None), c')
          end
      end
  end.

Definition bitumExec (cmd cmdPayload replyPayload : string) (c : t)
    : reply * t :=
  if decide (cmd = bitumplugin.CmdGetComments) then getComments cmdPayload c
  else if decide (cmd = bitumplugin.CmdAuthorizeVote)
  then authorizeVote cmdPayload replyPayload c
  else if decide (cmd = bitumplugin.CmdStartVote)
  then startVote cmdPayload replyPayload c
  else if decide (cmd = bitumplugin.CmdVoteDetails)
  then voteDetails cmdPayload c
  else (("", Some cache_ErrInvalidPluginCmd), c).

End Commands.

(** Two states of the test cache that no command tells apart: the same
    maps, up to tokens whose authorize votes are an empty map in one and
    missing in the other. *)
Definition same_view (c c' : t) : Prop :=
  comments c = comments c'
  /\ startVotes c = startVotes c'
  /\ startVoteReplies c = startVoteReplies c'
  /\ forall token,
       default ∅ (authorizeVotes c !! token)
       = default ∅ (authorizeVotes c' !! token).

(** The replies to a list of commands, one after the other. *)
Fixpoint replies `{codec : bitumplugin.Codec} (record : string -> result string)
    (cmds : list (string * string * string)) (c : t) : list reply :=
  match cmds with
  | [] => []
  | (cmd, cmdPayload, replyPayload) :: rest =>
      let (r, c') := bitumExec record cmd cmdPayload replyPayload c in
      r :: replies record rest c'
  end.

End testcache.

(** A test cache with nothing in it, and records that know the proposal
    [tok] at version 1 only. *)
Module Bench.

Definition empty : testcache.t :=
  {| testcache.comments := ∅; testcache.authorizeVotes := ∅;
     testcache.startVotes := ∅; testcache.startVoteReplies := ∅ |}.

Definition record (token : string) : result string :=
  if decide (token = "tok") then Ok "1" else Err cache_ErrRecordNotFound.

End Bench.

(** * Properties *)

(** ** The store *)

Lemma answered_tables w : tables (answered w) = tables w.
Proof. reflexivity. Qed.

Lemma answered_faults w : faults (answered w) = tail (faults w).
Proof. reflexivity. Qed.

Lemma with_tables_same w : with_tables (tables w) w = w.
Proof. by destruct w. Qed.

Lemma with_tables_answered w : with_tables (tables w) (answered w) = answered w.
Proof. by destruct w. Qed.

(** A statement either fails, and then no table changes, or the store
    answers it and it runs on the tables of the handle. *)
Lemma statement_cases {A : Type} ns (fail : error -> A) run w :
  (exists e, statement ns fail run w = (fail e, answered w))
  \/ (next_fault w = None /\ missing ns (tables w) = None
      /\ statement ns fail run w
         = ((run (tables w)).1, with_tables (run (tables w)).2 (answered w))).
Proof.
  unfold statement, next_fault, answered.
  destruct (faults w) as [|[e|] fs] eqn:Hf; simpl.
  - destruct (missing ns (tables w)) as [n|] eqn:Hm; [left; by eexists|].
    right. by destruct (run (tables w)).
  - left. by eexists.
  - destruct (missing ns (tables w)) as [n|] eqn:Hm; [left; by eexists|].
    right. by destruct (run (tables w)).
Qed.

Lemma statement_runs {A : Type} ns (fail : error -> A) run w :
  next_fault w = None -> missing ns (tables w) = None ->
  statement ns fail run w
  = ((run (tables w)).1, with_tables (run (tables w)).2 (answered w)).
Proof.
  intros Hf Hm. unfold statement, next_fault, answered in *.
  rewrite Hm. destruct (faults w) as [|[e|] fs]; try done;
    by destruct (run (tables w)).
Qed.

(** The statements that return only an error: a nil error means the
    statement ran. *)
Lemma statement_ok ns (run : Tables -> option error * Tables) w w' :
  statement ns Some run w = (None, w') ->
  next_fault w = None /\ missing ns (tables w) = None
  /\ (run (tables w)).1 = None
  /\ w' = with_tables (run (tables w)).2 (answered w).
Proof.
  intros H. destruct (statement_cases ns Some run w) as [[e He]|(Hf & Hm & He)];
    rewrite He in H; [done|]. by simplify_eq.
Qed.

Lemma statement_failed ns (run : Tables -> option error * Tables) w e w' :
  (forall t, (run t).1 = None) ->
  statement ns Some run w = (Some e, w') -> w' = answered w.
Proof.
  intros Hrun H.
  destruct (statement_cases ns Some run w) as [[e' He]|(Hf & Hm & He)];
    rewrite He in H; [by simplify_eq|].
  simplify_eq. by rewrite Hrun in *.
Qed.

Lemma Create_ok {R : Type} (T : Table R) row w w' :
  Create T row w = (None, w') ->
  w' = with_tables (with_rows T (rows T (tables w) ++ [row]) (tables w))
         (answered w).
Proof. intros Hs. by apply statement_ok in Hs as (_ & _ & _ & ->). Qed.

Lemma Create_failed {R : Type} (T : Table R) row w e w' :
  Create T row w = (Some e, w') -> w' = answered w.
Proof. intros Hs. by apply statement_failed in Hs. Qed.

Lemma Delete_ok {R : Type} (T : Table R) (P : R -> Prop)
    `{!forall r, Decision (P r)} w w' :
  Delete T P w = (None, w') ->
  w' = with_tables (with_rows T (filter (fun r => ~ P r) (rows T (tables w)))
                      (tables w)) (answered w).
Proof. intros Hs. by apply statement_ok in Hs as (_ & _ & _ & ->). Qed.

Lemma Delete_failed {R : Type} (T : Table R) (P : R -> Prop)
    `{!forall r, Decision (P r)} w e w' :
  Delete T P w = (Some e, w') -> w' = answered w.
Proof. intros Hs. by apply statement_failed in Hs. Qed.

Lemma Updates_ok {R : Type} (T : Table R) key_of key f w w' :
  Updates T key_of key f w = (None, w') ->
  w' = with_tables
         (with_rows T
            ((fun r => if decide (key = "" \/ key_of r = key) then f r else r)
               <$> rows T (tables w)) (tables w))
         (answered w).
Proof. intros Hs. by apply statement_ok in Hs as (_ & _ & _ & ->). Qed.

(** A statement that reads leaves the tables as they are. *)
Lemma reading_tables {A : Type} ns (fail : error -> A) (q : Tables -> A) w :
  (statement ns fail (fun t => (q t, t)) w).2 = answered w.
Proof.
  destruct (statement_cases ns fail (fun t => (q t, t)) w)
    as [[e He]|(_ & _ & He)]; rewrite He; [done|].
  simpl. by destruct w.
Qed.

Lemma HasTable_world n w : (HasTable n w).2 = answered w.
Proof. apply reading_tables. Qed.

(** ** The eligible ticket count *)

Lemma Split_length s sep : length (Split s sep) = S (Count s sep).
Proof.
  induction s as [|c s IH]; simpl; [done|].
  destruct (Ascii.eqb c sep); simpl; [by rewrite IH|].
  destruct (Split s sep); simpl in *; [done|]. done.
Qed.

(** Claim C9.  The eligible count that [newVoteResults] computes for a
    start vote whose eligible-ticket string is empty is 1, not 0: for every
    start vote the count is the number of commas of the stored string plus
    one, so it is at least 1, and it is this count that the quorum is
    computed from. *)
Theorem eligible_count_at_least_one :
  (exists sv, StartVote.EligibleTickets sv = ""
              /\ eligible_count sv = 1)
  /\ (forall sv, eligible_count sv
                 = Z.of_nat (Count (StartVote.EligibleTickets sv) ",") + 1)
  /\ (forall sv, 1 <= eligible_count sv)
  /\ (forall sv, quorum_of sv
                 = percent_of (StartVote.QuorumPercentage sv)
                     (Z.of_nat (Count (StartVote.EligibleTickets sv) ",") + 1)).
Proof.
  assert (Hc : forall sv, eligible_count sv
                 = Z.of_nat (Count (StartVote.EligibleTickets sv) ",") + 1).
  { intros sv. unfold eligible_count. rewrite Split_length. lia. }
  split; [by exists StartVote.zero|]. split; [done|].
  split; intros sv; [rewrite Hc; lia|].
  unfold quorum_of. by rewrite Hc.
Qed.

(** A start vote reply without eligible tickets is stored with an empty
    ticket string and a ticket count of 0, and tallied with 1. *)
Lemma no_eligible_tickets_counts_one sv svr endHeight :
  bitumplugin.StartVoteReply.EligibleTickets svr = [] ->
  let row := convertStartVoteFromBitum sv svr endHeight in
  StartVote.EligibleTicketCount row = 0 /\ eligible_count row = 1.
Proof. intros H. unfold eligible_count. simpl. by rewrite H. Qed.

(** ** The tally *)

(** The [switch] of [newVoteResults], read as a condition. *)
Lemma vote_approved_iff sv results :
  vote_approved sv results = true
  <-> quorum_of sv <= total_votes results
      /\ pass_of sv (total_votes results) <= approved_votes results.
Proof.
  unfold vote_approved.
  destruct (Z.ltb_spec (total_votes results) (quorum_of sv));
    destruct (Z.ltb_spec (approved_votes results)
                (pass_of sv (total_votes results)));
    split; try done; lia.
Qed.

(** The example of the spec: 20 percent of 100 tickets is 20, 60 percent
    of 50 votes is 30, 60 percent of 35 votes is 21. *)
Lemma percent_of_examples :
  percent_of 20 100 = 20 /\ percent_of 60 50 = 30 /\ percent_of 60 35 = 21.
Proof. by vm_compute. Qed.

(** 58 percent of 50 is 29, and [percent_of] gives 28: [float64(58) / 100]
    is the double just below 0.58, and its product with 50 is rounded to
    the double just below 29. *)
Lemma percent_of_58_50 : percent_of 58 50 = 28 /\ floor_percent 58 50 = 29.
Proof. by vm_compute. Qed.

(** Claim C1, at an input where the code departs from it.  The start vote
    asks for a quorum of 58 percent of 50 eligible tickets, which is 29;
    28 votes are cast, all for "yes".  [newVoteResults] succeeds and stores
    [approved = true], with a quorum computed as 28. *)
Theorem newVoteResults_approves_below_quorum :
  let w := Sample.world Sample.short_of_quorum [] in
  let sv := Sample.start_vote "tok" 10 58 60 50 in
  let results :=
    option_results "tok" (tally_votes (cast_votes Sample.short_of_quorum))
      (StartVote.Options sv) in
  (newVoteResults "tok" w).1 = None
  /\ VoteResults.Approved <$> vote_results (tables (newVoteResults "tok" w).2)
     = [true]
  /\ eligible_count sv = 50
  /\ total_votes results = 28
  /\ approved_votes results = 28
  /\ floor_percent (StartVote.QuorumPercentage sv) (eligible_count sv) = 29
  /\ floor_percent (StartVote.PassPercentage sv) (total_votes results) = 16
  /\ quorum_of sv = 28.
Proof. by vm_compute. Qed.

(** ** Tables and their rows *)

Lemma with_rows_same_comments t : with_rows Comments (comments t) t = t.
Proof. by destruct t. Qed.

Lemma missing_none ns t :
  Forall (fun n => n ∈ existing t) ns -> missing ns t = None.
Proof.
  intros H. unfold missing.
  replace (filter (fun n => n ∉ existing t) ns) with (@nil string); [done|].
  symmetry. induction H as [|n ns Hn _ IH]; [done|].
  rewrite filter_cons_False; [done|]. by intros Hn'.
Qed.

Lemma fmap_unless {A : Type} (P : A -> Prop) `{!forall a, Decision (P a)}
    (f : A -> A) (l : list A) :
  Forall (fun a => ~ P a) l ->
  (fun a => if decide (P a) then f a else a) <$> l = l.
Proof.
  induction 1 as [|a l Ha _ IH]; [done|].
  rewrite fmap_cons, IH. by rewrite decide_False.
Qed.

Section Comments.

Context `{codec : bitumplugin.Codec}.

(** What [cmdCensorComment] does to the tables, whatever the store
    answers: nothing when the statement fails, the update otherwise.  The
    update is of the comments with the key of the command, and of every
    comment when that key is blank. *)
Lemma cmdCensorComment_run cmdPayload replyPayload cc w :
  bitumplugin.DecodeCensorComment cmdPayload = Ok cc ->
  let key := bitumplugin.CensorComment.Token cc
             +:+ bitumplugin.CensorComment.CommentID cc in
  (exists e, cmdCensorComment cmdPayload replyPayload w
             = ((replyPayload, Some e), answered w))
  \/ (next_fault w = None
      /\ cmdCensorComment cmdPayload replyPayload w
         = ((replyPayload, None),
            with_tables
              (with_rows Comments
                 ((fun c => if decide (key = "" \/ Comment.Key c = key)
                            then censored c else c) <$> comments (tables w))
                 (tables w))
              (answered w))).
Proof.
  intros Hd key. unfold cmdCensorComment. rewrite Hd.
  unfold bind, Updates, ret.
  match goal with
  | |- context [statement ?ns ?fail ?run w] =>
      destruct (statement_cases ns fail run w) as [[e He]|(Hf & _ & He)];
        rewrite He
  end.
  - left. by exists e.
  - right. done.
Qed.

(** With a blank key the update is of every comment. *)
Lemma fmap_blank_key (l : list Comment.t) :
  (fun c => if decide ("" = "" \/ Comment.Key c = "") then censored c else c)
    <$> l
  = censored <$> l.
Proof.
  apply list_fmap_ext. intros i c _. by rewrite decide_True by (by left).
Qed.

(** A censor-comment command whose key (token + commentID) is not blank
    and matches no comment, sent to a store that answers the update,
    returns the reply payload with a nil error and leaves every table as it
    was: no row is created and no not-found error comes back. *)
Lemma censoring_unknown_key_is_no_error cmdPayload replyPayload cc w :
  bitumplugin.DecodeCensorComment cmdPayload = Ok cc ->
  let key := bitumplugin.CensorComment.Token cc
             +:+ bitumplugin.CensorComment.CommentID cc in
  key <> "" ->
  Forall (fun c => Comment.Key c <> key) (comments (tables w)) ->
  next_fault w = None ->
  tableComments ∈ existing (tables w) ->
  cmdCensorComment cmdPayload replyPayload w
    = ((replyPayload, None), answered w)
  /\ tables (cmdCensorComment cmdPayload replyPayload w).2 = tables w.
Proof.
  intros Hd key Hkey Hnone Hf Ht.
  assert (cmdCensorComment cmdPayload replyPayload w
          = ((replyPayload, None), answered w)) as ->; [|done].
  unfold cmdCensorComment. rewrite Hd. unfold bind, Updates, ret.
  rewrite statement_runs; [|done|apply missing_none; by repeat constructor].
  cbn [fst snd rows Comments]. fold key. rewrite fmap_unless.
  - rewrite with_rows_same_comments.
    by rewrite <- (answered_tables w), with_tables_same.
  - eapply Forall_impl; [exact Hnone|]. intros c Hc [?|?]; done.
Qed.

(** Without a matching comment, and with a key that is not blank, the
    tables stay as they are even when the store fails the update. *)
Lemma censoring_nothing_changes_nothing cmdPayload replyPayload cc w :
  bitumplugin.DecodeCensorComment cmdPayload = Ok cc ->
  let key := bitumplugin.CensorComment.Token cc
             +:+ bitumplugin.CensorComment.CommentID cc in
  key <> "" ->
  Forall (fun c => Comment.Key c <> key) (comments (tables w)) ->
  tables (cmdCensorComment cmdPayload replyPayload w).2 = tables w.
Proof.
  intros Hd key Hkey Hnone.
  destruct (cmdCensorComment_run cmdPayload replyPayload cc w Hd)
    as [[e ->]|[_ ->]]; [done|].
  cbn [fst snd tables with_tables]. fold key. rewrite fmap_unless.
  - apply with_rows_same_comments.
  - eapply Forall_impl; [exact Hnone|]. intros c Hc [?|?]; done.
Qed.

(** Claim C10.  The claim fails for the blank key.  A censor-comment
    command with an empty token and an empty comment ID has the key "",
    which matches no comment of a table whose comments all have a key.  Sent
    to a store that answers, the handler returns the reply payload with a
    nil error, as the claim says, but the store is not left unchanged: the
    UPDATE has no WHERE clause and every comment of the table is censored,
    so the tables differ from what they were as soon as one comment was not
    censored yet.  (For a key that is not blank the claim holds:
    [censoring_unknown_key_is_no_error].) *)
Theorem cmdCensorComment_blank_key_censors_every_comment
    cmdPayload replyPayload cc w :
  bitumplugin.DecodeCensorComment cmdPayload = Ok cc ->
  bitumplugin.CensorComment.Token cc
  +:+ bitumplugin.CensorComment.CommentID cc = "" ->
  next_fault w = None ->
  tableComments ∈ existing (tables w) ->
  let w' := (cmdCensorComment cmdPayload replyPayload w).2 in
  (cmdCensorComment cmdPayload replyPayload w).1 = (replyPayload, None)
  /\ comments (tables w') = censored <$> comments (tables w)
  /\ ((exists c, c ∈ comments (tables w) /\ Comment.Censored c = false) ->
      tables w' <> tables w).
Proof.
  intros Hd Hkey Hf Ht w'.
  assert (cmdCensorComment cmdPayload replyPayload w
          = ((replyPayload, None),
             with_tables
               (with_rows Comments (censored <$> comments (tables w))
                  (tables w)) (answered w))) as Hrun.
  { unfold cmdCensorComment. rewrite Hd. unfold bind, Updates, ret.
    rewrite statement_runs; [|done|apply missing_none; by repeat constructor].
    cbn [fst snd rows Comments]. by rewrite Hkey, fmap_blank_key. }
  subst w'. rewrite Hrun. cbn [fst snd tables with_tables].
  split; [done|]. split; [done|].
  intros (c & Hc & Hopen) Hsame.
  apply (f_equal comments) in Hsame.
  cbn [comments with_rows Comments] in Hsame.
  apply list_elem_of_lookup in Hc as [i Hi].
  apply (f_equal (fun l => Comment.Censored <$> l !! i)) in Hsame.
  rewrite list_lookup_fmap, Hi in Hsame. simpl in Hsame. congruence.
Qed.

Lemma censored_twice c : censored (censored c) = censored c.
Proof. done. Qed.

(** Claim C6.  After a successful censor-comment command every comment
    with the key of the command (token + commentID) is in its place with
    the same key and the same fields, vote counts included, except that
    its text is empty and its censored flag is set; no comment is added or
    removed and the other tables are as before; and a second application of
    the command changes no table.  When the key of the command is not
    blank the comments with another key are as before; with a blank key the
    UPDATE has no WHERE clause, and every comment of the table is censored
    in this way. *)
Theorem cmdCensorComment_censors cmdPayload replyPayload cc w s w' :
  bitumplugin.DecodeCensorComment cmdPayload = Ok cc ->
  cmdCensorComment cmdPayload replyPayload w = ((s, None), w') ->
  let key := bitumplugin.CensorComment.Token cc
             +:+ bitumplugin.CensorComment.CommentID cc in
  (forall i c, comments (tables w) !! i = Some c -> Comment.Key c = key ->
     exists c', comments (tables w') !! i = Some c'
       /\ Comment.Key c' = Comment.Key c
       /\ Comment.Token c' = Comment.Token c
       /\ Comment.ParentID c' = Comment.ParentID c
       /\ Comment.Signature c' = Comment.Signature c
       /\ Comment.PublicKey c' = Comment.PublicKey c
       /\ Comment.CommentID c' = Comment.CommentID c
       /\ Comment.Receipt c' = Comment.Receipt c
       /\ Comment.Timestamp c' = Comment.Timestamp c
       /\ Comment.TotalVotes c' = Comment.TotalVotes c
       /\ Comment.ResultVotes c' = Comment.ResultVotes c
       /\ Comment.Comment c' = ""
       /\ Comment.Censored c' = true)
  /\ (key <> "" ->
      forall i c, comments (tables w) !! i = Some c -> Comment.Key c <> key ->
        comments (tables w') !! i = Some c)
  /\ (key = "" -> comments (tables w') = censored <$> comments (tables w))
  /\ length (comments (tables w')) = length (comments (tables w))
  /\ with_rows Comments (comments (tables w)) (tables w') = tables w
  /\ s = replyPayload
  /\ tables (cmdCensorComment cmdPayload replyPayload w').2 = tables w'.
Proof.
  intros Hd Hrun key.
  destruct (cmdCensorComment_run cmdPayload replyPayload cc w Hd)
    as [[e He]|[_ He]]; rewrite He in Hrun; [done|].
  fold key in Hrun.
  set (f := fun c => if decide (key = "" \/ Comment.Key c = key)
                     then censored c else c) in *.
  assert (Hs : s = replyPayload) by congruence.
  assert (Hw : w' = with_tables
                      (with_rows Comments (f <$> comments (tables w)) (tables w))
                      (answered w)) by congruence.
  clear Hrun He.
  assert (Hcs : comments (tables w') = f <$> comments (tables w))
    by (by rewrite Hw).
  assert (Hrest : with_rows Comments (comments (tables w)) (tables w')
                  = tables w) by (rewrite Hw; by destruct w as [[] ? ?]).
  assert (Hff : forall c, f (f c) = f c).
  { intros c. unfold f.
    destruct (decide (key = "" \/ Comment.Key c = key)) as [Hk|Hk].
    - by rewrite decide_True.
    - by rewrite decide_False. }
  clear Hw. split_and!; try done.
  - intros i c Hi Hk. exists (censored c). split; [|done].
    rewrite Hcs, list_lookup_fmap, Hi. unfold f. simpl.
    by rewrite decide_True by (by right).
  - intros Hkey i c Hi Hk. rewrite Hcs, list_lookup_fmap, Hi. unfold f. simpl.
    rewrite decide_False; [done|]. by intros [?|?].
  - intros Hkey. rewrite Hcs. apply list_fmap_ext. intros i c _. unfold f.
    by rewrite decide_True by (by left).
  - by rewrite Hcs, length_fmap.
  - destruct (cmdCensorComment_run cmdPayload replyPayload cc w' Hd)
      as [[e ->]|[_ ->]]; [done|].
    fold key. fold f. cbn [snd tables with_tables].
    replace (f <$> comments (tables w')) with (comments (tables w'));
      [apply with_rows_same_comments|].
    rewrite Hcs, <- list_fmap_compose. apply list_fmap_ext.
    intros i c _. simpl. by rewrite Hff.
Qed.

End Comments.

(** ** The dispatcher and decode errors *)

Section Dispatch.

Context `{codec : bitumplugin.Codec}.

(** Claim C8, at the command where the code departs from it.  When the
    payload of a vote-details command does not decode, [cmdVoteDetails]
    returns the empty reply with a nil error, and so does [Exec]: the decode
    error is dropped and no table is touched. *)
Theorem Exec_vote_details_swallows_decode_error payload replyPayload e w :
  bitumplugin.DecodeVoteDetails payload = Err e ->
  Exec bitumplugin.CmdVoteDetails payload replyPayload w = (("", None), w).
Proof.
  intros Hd. unfold Exec.
  repeat (case_decide; [done|]). rewrite decide_True by done.
  unfold cmdVoteDetails. by rewrite Hd.
Qed.

(** The other handlers that decode a command payload return the decode
    error, as the spec asks of all of them. *)
Lemma decode_errors_returned payload replyPayload e w :
  (bitumplugin.DecodeNewComment payload = Err e ->
   cmdNewComment payload replyPayload w = (("", Some e), w))
  /\ (bitumplugin.DecodeLikeComment payload = Err e ->
      cmdLikeComment payload replyPayload w = (("", Some e), w))
  /\ (bitumplugin.DecodeCensorComment payload = Err e ->
      cmdCensorComment payload replyPayload w = (("", Some e), w))
  /\ (bitumplugin.DecodeGetComment payload = Err e ->
      cmdGetComment payload w = (("", Some e), w))
  /\ (bitumplugin.DecodeGetComments payload = Err e ->
      cmdGetComments payload w = (("", Some e), w))
  /\ (bitumplugin.DecodeCommentLikes payload = Err e ->
      cmdCommentLikes payload w = (("", Some e), w))
  /\ (bitumplugin.DecodeGetProposalCommentsLikes payload = Err e ->
      cmdProposalCommentsLikes payload w = (("", Some e), w))
  /\ (bitumplugin.DecodeAuthorizeVote payload = Err e ->
      cmdAuthorizeVote payload replyPayload w = (("", Some e), w))
  /\ (bitumplugin.DecodeStartVote payload = Err e ->
      cmdStartVote payload replyPayload w = (("", Some e), w))
  /\ (bitumplugin.DecodeBallot payload = Err e ->
      cmdNewBallot payload replyPayload w = (("", Some e), w))
  /\ (bitumplugin.DecodeVoteResults payload = Err e ->
      cmdProposalVotes payload w = (("", Some e), w))
  /\ (bitumplugin.DecodeLoadVoteResults payload = Err e ->
      cmdLoadVoteResults payload w = (("", Some e), w))
  /\ (bitumplugin.DecodeTokenInventory payload = Err e ->
      cmdTokenInventory payload w = (("", Some e), w))
  /\ (bitumplugin.DecodeVoteSummary payload = Err e ->
      cmdVoteSummary payload w = (("", Some e), w)).
Proof.
  unfold cmdNewComment, cmdLikeComment, cmdCensorComment, cmdGetComment,
    cmdGetComments, cmdCommentLikes, cmdProposalCommentsLikes,
    cmdAuthorizeVote, cmdStartVote, cmdNewBallot, cmdProposalVotes,
    cmdLoadVoteResults, cmdTokenInventory, cmdVoteSummary.
  repeat split; intros ->; reflexivity.
Qed.

(** The dispatcher hands the command to its handler and returns what the
    handler returns, reply and error, as it is. *)
Lemma Exec_dispatch cmdPayload replyPayload :
  Exec bitumplugin.CmdAuthorizeVote cmdPayload replyPayload
  = cmdAuthorizeVote cmdPayload replyPayload
  /\ Exec bitumplugin.CmdStartVote cmdPayload replyPayload
     = cmdStartVote cmdPayload replyPayload
  /\ Exec bitumplugin.CmdVoteDetails cmdPayload replyPayload
     = cmdVoteDetails cmdPayload
  /\ Exec bitumplugin.CmdBallot cmdPayload replyPayload
     = cmdNewBallot cmdPayload replyPayload
  /\ Exec bitumplugin.CmdBestBlock cmdPayload replyPayload = ret ("", None)
  /\ Exec bitumplugin.CmdNewComment cmdPayload replyPayload
     = cmdNewComment cmdPayload replyPayload
  /\ Exec bitumplugin.CmdLikeComment cmdPayload replyPayload
     = cmdLikeComment cmdPayload replyPayload
  /\ Exec bitumplugin.CmdCensorComment cmdPayload replyPayload
     = cmdCensorComment cmdPayload replyPayload
  /\ Exec bitumplugin.CmdGetComment cmdPayload replyPayload
     = cmdGetComment cmdPayload
  /\ Exec bitumplugin.CmdGetComments cmdPayload replyPayload
     = cmdGetComments cmdPayload
  /\ Exec bitumplugin.CmdProposalVotes cmdPayload replyPayload
     = cmdProposalVotes cmdPayload
  /\ Exec bitumplugin.CmdCommentLikes cmdPayload replyPayload
     = cmdCommentLikes cmdPayload
  /\ Exec bitumplugin.CmdProposalCommentsLikes cmdPayload replyPayload
     = cmdProposalCommentsLikes cmdPayload
  /\ Exec bitumplugin.CmdInventory cmdPayload replyPayload = cmdInventory
  /\ Exec bitumplugin.CmdLoadVoteResults cmdPayload replyPayload
     = cmdLoadVoteResults cmdPayload
  /\ Exec bitumplugin.CmdTokenInventory cmdPayload replyPayload
     = cmdTokenInventory cmdPayload
  /\ Exec bitumplugin.CmdVoteSummary cmdPayload replyPayload
     = cmdVoteSummary cmdPayload.
Proof. repeat split. Qed.

(** A command that the dispatcher does not know is refused. *)
Lemma Exec_invalid_command cmd cmdPayload replyPayload w :
  cmd ∉ [bitumplugin.CmdAuthorizeVote; bitumplugin.CmdStartVote;
         bitumplugin.CmdVoteDetails; bitumplugin.CmdBallot;
         bitumplugin.CmdBestBlock; bitumplugin.CmdNewComment;
         bitumplugin.CmdLikeComment; bitumplugin.CmdCensorComment;
         bitumplugin.CmdGetComment; bitumplugin.CmdGetComments;
         bitumplugin.CmdProposalVotes; bitumplugin.CmdCommentLikes;
         bitumplugin.CmdProposalCommentsLikes; bitumplugin.CmdInventory;
         bitumplugin.CmdLoadVoteResults; bitumplugin.CmdTokenInventory;
         bitumplugin.CmdVoteSummary] ->
  Exec cmd cmdPayload replyPayload w
  = (("", Some cache_ErrInvalidPluginCmd), w).
Proof.
  intros Hcmd. unfold Exec.
  repeat (case_decide; [exfalso; apply Hcmd; subst cmd; set_solver|]).
  done.
Qed.

End Dispatch.

(** ** Transactions *)

Lemma Commit_ok db tx w' : Commit db tx = (None, w') -> tables w' = tables tx.
Proof.
  unfold Commit. destruct (faults tx) as [|[e|] fs]; intros Hc; by simplify_eq.
Qed.

Lemma Commit_failed db tx e w' :
  Commit db tx = (Some e, w') -> tables w' = tables db.
Proof.
  unfold Commit. destruct (faults tx) as [|[e'|] fs]; intros Hc; by simplify_eq.
Qed.

(** How a transaction ends, and what the handle sees afterwards: the
    tables of the transaction once it is committed, its own tables
    otherwise. *)
Lemma transaction_cases body w :
  match transaction body w with
  | (Committed, w') =>
      exists tx, body (Begin w) = (None, tx) /\ Commit w tx = (None, w')
                 /\ tables w' = tables tx
  | (BodyFailed e, w') =>
      exists tx, body (Begin w) = (Some e, tx) /\ w' = Rollback w tx
                 /\ tables w' = tables w
  | (CommitFailed e, w') =>
      exists tx, body (Begin w) = (None, tx) /\ Commit w tx = (Some e, w')
                 /\ tables w' = tables w
  end.
Proof.
  unfold transaction. destruct (body (Begin w)) as [[e|] tx] eqn:Hb.
  - by exists tx.
  - destruct (Commit w tx) as [[e|] w'] eqn:Hc; exists tx.
    + split_and!; [done..|]. by eapply Commit_failed.
    + split_and!; [done..|]. by eapply Commit_ok.
Qed.

(** A loop that stops at the first error: it fails exactly when one body
    fails after the bodies before it succeeded. *)
Lemma for_each_app_failed {A : Type} (body : A -> M (option error))
    before v after w w1 e w2 :
  for_each body before w = (None, w1) ->
  body v w1 = (Some e, w2) ->
  for_each body (before ++ v :: after) w = (Some e, w2).
Proof.
  revert w. induction before as [|a before IH]; intros w Hb Hv; simpl in *.
  - unfold ret in Hb. simplify_eq. unfold bind. by rewrite Hv.
  - unfold bind in *. destruct (body a w) as [[e'|] w'] eqn:Ha; [done|].
    by apply IH.
Qed.

Lemma for_each_failed_inv {A : Type} (body : A -> M (option error)) l w e w2 :
  for_each body l w = (Some e, w2) ->
  exists before v after w1,
    l = before ++ v :: after
    /\ for_each body before w = (None, w1)
    /\ body v w1 = (Some e, w2).
Proof.
  revert w. induction l as [|a l IH]; intros w Hl; simpl in *; [done|].
  unfold bind in Hl. destruct (body a w) as [[e'|] w'] eqn:Ha.
  - unfold ret in Hl. simplify_eq. by exists [], a, l, w.
  - destruct (IH _ Hl) as (before & v & after & w1 & -> & Hb & Hv).
    exists (a :: before), v, after, w1. split_and!; [done| |done].
    simpl. unfold bind. by rewrite Ha.
Qed.

(** ** Authorize votes *)

Lemma filter_filter_not {A : Type} (P : A -> Prop)
    `{!forall a, Decision (P a)} (l : list A) :
  filter P (filter (fun a => ~ P a) l) = [].
Proof.
  induction l as [|a l IH]; [done|].
  destruct (decide (P a)) as [Ha|Ha].
  - by rewrite (filter_cons_False (fun a => ~ P a)) by tauto.
  - rewrite (filter_cons_True (fun a => ~ P a)) by done.
    by rewrite filter_cons_False.
Qed.

Lemma newAuthorizeVote_ok av w w' :
  newAuthorizeVote av w = (None, w') ->
  tables w'
  = with_rows AuthorizeVotes
      (filter (fun r => ~ AuthorizeVote.Key r = AuthorizeVote.Key av)
              (authorize_votes (tables w)) ++ [av])
      (tables w).
Proof.
  unfold newAuthorizeVote, bind, ret.
  destruct (Delete AuthorizeVotes _ w) as [[e|] w1] eqn:Hdel; [done|].
  destruct (Create AuthorizeVotes av w1) as [[e|] w2] eqn:Hcr; [done|].
  intros Hw. simplify_eq.
  apply Delete_ok in Hdel as ->. apply Create_ok in Hcr as ->.
  by destruct (tables w).
Qed.

Section AuthorizeVotes.

Context `{codec : bitumplugin.Codec}.

(** After a successful authorize-vote command the table holds the rows
    it held for the other keys, and the row of the command. *)
Lemma cmdAuthorizeVote_ok cmdPayload replyPayload av avr w s w' :
  bitumplugin.DecodeAuthorizeVote cmdPayload = Ok av ->
  bitumplugin.DecodeAuthorizeVoteReply replyPayload = Ok avr ->
  cmdAuthorizeVote cmdPayload replyPayload w = ((s, None), w') ->
  exists version,
    ParseUint (bitumplugin.AuthorizeVoteReply.RecordVersion avr) = Ok version
    /\ s = replyPayload
    /\ let a := convertAuthorizeVoteFromBitum av avr version in
       tables w'
       = with_rows AuthorizeVotes
           (filter (fun r => ~ AuthorizeVote.Key r = AuthorizeVote.Key a)
                   (authorize_votes (tables w)) ++ [a])
           (tables w).
Proof.
  intros Hav Havr. unfold cmdAuthorizeVote. rewrite Hav, Havr.
  destruct (ParseUint _) as [version|e]; [|done].
  unfold bind, ret.
  pose proof (transaction_cases
                (newAuthorizeVote (convertAuthorizeVoteFromBitum av avr version))
                w) as Htx.
  destruct (transaction _ w) as [[e|e|] w1]; [done..|].
  intros Hw. simplify_eq. exists version. split_and!; [done..|].
  destruct Htx as (tx & Hbody & _ & ->).
  by apply newAuthorizeVote_ok in Hbody.
Qed.

Lemma authorize_votes_of_replaced a l t :
  authorize_votes_of (AuthorizeVote.Key a)
    (with_rows AuthorizeVotes
       (filter (fun r => ~ AuthorizeVote.Key r = AuthorizeVote.Key a) l ++ [a])
       t)
  = [a].
Proof.
  unfold authorize_votes_of. cbn [authorize_votes with_rows AuthorizeVotes].
  rewrite filter_app, filter_filter_not. by rewrite filter_cons_True.
Qed.

Lemma authorize_votes_of_other k a t :
  k <> AuthorizeVote.Key a ->
  authorize_votes_of k
    (with_rows AuthorizeVotes
       (filter (fun r => ~ AuthorizeVote.Key r = AuthorizeVote.Key a)
               (authorize_votes t) ++ [a])
       t)
  = authorize_votes_of k t.
Proof.
  intros Hk. unfold authorize_votes_of.
  cbn [authorize_votes with_rows AuthorizeVotes].
  rewrite filter_app, filter_cons_False, app_nil_r by done.
  rewrite list_filter_filter. apply list_filter_iff. intros r.
  split; [by intros [? _]|]. intros Hr. split; [done|congruence].
Qed.

Lemma at_most_one_replaced a t :
  at_most_one_per_key t ->
  at_most_one_per_key
    (with_rows AuthorizeVotes
       (filter (fun r => ~ AuthorizeVote.Key r = AuthorizeVote.Key a)
               (authorize_votes t) ++ [a])
       t).
Proof.
  intros Ht k. destruct (decide (k = AuthorizeVote.Key a)) as [->|Hk].
  - by rewrite authorize_votes_of_replaced.
  - by rewrite authorize_votes_of_other.
Qed.

(** Claim C5.  Two authorize-vote commands with the same token and record
    version, applied one after the other, both successfully: after the
    first the table holds exactly one row for the key (token +
    recordVersion), the row of the first command; after the second it holds
    exactly one, the row of the second command.  If no key had more than
    one row before, none has afterwards. *)
Theorem cmdAuthorizeVote_replaces p1 r1 p2 r2 av1 avr1 av2 avr2 w s1 w1 s2 w2 :
  bitumplugin.DecodeAuthorizeVote p1 = Ok av1 ->
  bitumplugin.DecodeAuthorizeVoteReply r1 = Ok avr1 ->
  bitumplugin.DecodeAuthorizeVote p2 = Ok av2 ->
  bitumplugin.DecodeAuthorizeVoteReply r2 = Ok avr2 ->
  bitumplugin.AuthorizeVote.Token av1 = bitumplugin.AuthorizeVote.Token av2 ->
  bitumplugin.AuthorizeVoteReply.RecordVersion avr1
  = bitumplugin.AuthorizeVoteReply.RecordVersion avr2 ->
  cmdAuthorizeVote p1 r1 w = ((s1, None), w1) ->
  cmdAuthorizeVote p2 r2 w1 = ((s2, None), w2) ->
  let key := bitumplugin.AuthorizeVote.Token av2
             +:+ bitumplugin.AuthorizeVoteReply.RecordVersion avr2 in
  exists version,
    ParseUint (bitumplugin.AuthorizeVoteReply.RecordVersion avr2) = Ok version
    /\ authorize_votes_of key (tables w1)
       = [convertAuthorizeVoteFromBitum av1 avr1 version]
    /\ authorize_votes_of key (tables w2)
       = [convertAuthorizeVoteFromBitum av2 avr2 version]
    /\ (at_most_one_per_key (tables w) ->
        at_most_one_per_key (tables w1) /\ at_most_one_per_key (tables w2)).
Proof.
  intros Hav1 Havr1 Hav2 Havr2 Htoken Hversion Hrun1 Hrun2 key.
  destruct (cmdAuthorizeVote_ok _ _ _ _ _ _ _ Hav1 Havr1 Hrun1)
    as (v1 & Hv1 & _ & Hw1).
  destruct (cmdAuthorizeVote_ok _ _ _ _ _ _ _ Hav2 Havr2 Hrun2)
    as (v2 & Hv2 & _ & Hw2).
  rewrite Hversion, Hv2 in Hv1. injection Hv1 as <-.
  exists v2. cbv zeta in Hw1, Hw2.
  assert (Hk1 : key = AuthorizeVote.Key (convertAuthorizeVoteFromBitum av1 avr1 v2)).
  { unfold key. simpl. by rewrite Htoken, Hversion. }
  split_and!; [done| | |].
  - rewrite Hw1, Hk1. apply authorize_votes_of_replaced.
  - rewrite Hw2.
    apply (authorize_votes_of_replaced
             (convertAuthorizeVoteFromBitum av2 avr2 v2)).
  - intros Hone.
    assert (at_most_one_per_key (tables w1)) as Hone1.
    { rewrite Hw1. by apply at_most_one_replaced. }
    split; [done|]. rewrite Hw2. by apply at_most_one_replaced.
Qed.

End AuthorizeVotes.

(** ** Ballots *)

Lemma inserts_ok {A : Type} (g : A -> CastVote.t) l w w' :
  for_each (fun v => newCastVote (g v)) l w = (None, w') ->
  tables w'
  = with_rows CastVotes (cast_votes (tables w) ++ (g <$> l)) (tables w).
Proof.
  revert w. induction l as [|a l IH]; intros w Hl; simpl in *.
  - unfold ret in Hl. simplify_eq. rewrite app_nil_r. by destruct (tables w').
  - unfold bind in Hl.
    destruct (newCastVote (g a) w) as [[e|] w1] eqn:Ha; [done|].
    apply Create_ok in Ha as ->. rewrite (IH _ Hl).
    cbn [tables with_tables rows with_rows CastVotes cast_votes].
    by rewrite <- app_assoc.
Qed.

Section Ballots.

Context `{codec : bitumplugin.Codec}.

(** Claim C7.  [cmdNewBallot] inserts the cast votes of a ballot in one
    transaction.  If an insert fails after the inserts before it succeeded,
    the handler returns the error of that insert as it is, with an empty
    reply, and the transaction is rolled back: the handle sees the tables
    it saw before, without any row of the ballot.  If all inserts and the
    commit succeed, the reply payload is returned unchanged and the cast
    votes of the ballot are appended to the table.  Whatever the store
    answers, either no table has changed or all the rows are in. *)
Theorem cmdNewBallot_all_or_nothing cmdPayload replyPayload b w :
  bitumplugin.DecodeBallot cmdPayload = Ok b ->
  let insert := fun v => newCastVote (convertCastVoteFromBitum v) in
  let votes := convertCastVoteFromBitum <$> bitumplugin.Ballot.Votes b in
  let all_in := with_rows CastVotes (cast_votes (tables w) ++ votes) (tables w) in
  (forall before v after tx tx' e,
     bitumplugin.Ballot.Votes b = before ++ v :: after ->
     for_each insert before (Begin w) = (None, tx) ->
     insert v tx = (Some e, tx') ->
     cmdNewBallot cmdPayload replyPayload w = (("", Some e), Rollback w tx')
     /\ tables (Rollback w tx') = tables w)
  /\ (forall tx w',
        for_each insert (bitumplugin.Ballot.Votes b) (Begin w) = (None, tx) ->
        Commit w tx = (None, w') ->
        cmdNewBallot cmdPayload replyPayload w = ((replyPayload, None), w')
        /\ tables w' = all_in)
  /\ (((cmdNewBallot cmdPayload replyPayload w).1.2 <> None
       /\ tables (cmdNewBallot cmdPayload replyPayload w).2 = tables w)
      \/ ((cmdNewBallot cmdPayload replyPayload w).1 = (replyPayload, None)
          /\ tables (cmdNewBallot cmdPayload replyPayload w).2 = all_in)).
Proof.
  intros Hd insert votes all_in.
  unfold cmdNewBallot. rewrite Hd. fold insert. unfold bind, ret.
  pose proof (transaction_cases
                (for_each insert (bitumplugin.Ballot.Votes b)) w) as Htx.
  split_and!.
  - intros before v after tx tx' e Hvotes Hbefore Hv. split; [|done].
    unfold transaction.
    rewrite Hvotes, (for_each_app_failed insert before v after _ tx e tx');
      done.
  - intros tx w' Hall Hcommit. unfold transaction. rewrite Hall, Hcommit.
    split; [done|]. rewrite (Commit_ok _ _ _ Hcommit).
    by apply inserts_ok in Hall.
  - destruct (transaction _ w) as [[e|e|] w']; cbn [fst snd].
    + left. by destruct Htx as (tx & _ & _ & ->).
    + left. by destruct Htx as (tx & _ & _ & ->).
    + right. destruct Htx as (tx & Hall & _ & ->). split; [done|].
      by apply inserts_ok in Hall.
Qed.

End Ballots.

(** ** The rebuild *)

Lemma delete_version_ok w w' :
  delete_version w = (None, w') ->
  Forall (fun v => Version.ID v <> bitumplugin.ID) (versions (tables w')).
Proof.
  intros Hdel. apply Delete_ok in Hdel as ->.
  cbn [tables with_tables rows with_rows Versions versions].
  apply Forall_forall. intros v Hv. by apply list_elem_of_filter in Hv as [? _].
Qed.

(** Without a version record of the plugin, [CheckVersion] returns an
    error, whatever the store answers: the cache is not trusted. *)
Lemma CheckVersion_without_record w :
  Forall (fun v => Version.ID v <> bitumplugin.ID) (versions (tables w)) ->
  (CheckVersion w).1 <> None.
Proof.
  intros Hnone. unfold CheckVersion, bind, ret.
  destruct (HasTable tableVersions w) as [[|] w1] eqn:Hhas; [|done].
  assert (tables w1 = tables w) as Hw1.
  { pose proof (HasTable_world tableVersions w) as Hr.
    rewrite Hhas in Hr. simpl in Hr. by rewrite Hr. }
  unfold First.
  match goal with
  | |- context [statement ?ns ?fail ?run w1] =>
      destruct (statement_cases ns fail run w1) as [[e He]|(_ & _ & He)];
        rewrite He
  end.
  - destruct e; by try case_decide.
  - cbn [fst snd rows Versions]. rewrite Hw1.
    replace (filter (fun v => Version.ID v = bitumplugin.ID)
               (versions (tables w))) with (@nil Version.t); [done|].
    symmetry. clear -Hnone.
    induction Hnone as [|v l Hv _ IH]; [done|]. by rewrite filter_cons_False.
Qed.

Section Rebuild.

Context `{codec : bitumplugin.Codec}.

(** Claim C4.  When the payload decodes and [build] fails, in whatever
    step, [Build] deletes the version record of the plugin.  If the store
    carries the deletion out, [Build] returns the error of [build] as it is,
    no version record of the plugin is left, and [CheckVersion] fails from
    then on, which is what makes the next start rebuild the cache.  If the
    deletion fails too, [Build] panics. *)
Theorem Build_failure_policy payload ir w e w1 :
  bitumplugin.DecodeInventoryReply payload = Ok ir ->
  build ir w = (Some e, w1) ->
  match delete_version w1 with
  | (None, w2) =>
      Build payload w = (Returned (Some e), w2)
      /\ Forall (fun v => Version.ID v <> bitumplugin.ID)
                (versions (tables w2))
      /\ (forall w3, tables w3 = tables w2 -> (CheckVersion w3).1 <> None)
  | (Some _, w2) => Build payload w = (Panicked out_of_sync, w2)
  end.
Proof.
  intros Hd Hbuild. unfold Build. rewrite Hd. unfold bind. rewrite Hbuild.
  destruct (delete_version w1) as [[e1|] w2] eqn:Hdel; [done|].
  split_and!; [done|by eapply delete_version_ok|].
  intros w3 Hw3. apply CheckVersion_without_record. rewrite Hw3.
  by eapply delete_version_ok.
Qed.

(** A rebuild that succeeds returns the nil error and deletes nothing. *)
Lemma Build_success payload ir w w1 :
  bitumplugin.DecodeInventoryReply payload = Ok ir ->
  build ir w = (None, w1) ->
  Build payload w = (Returned None, w1).
Proof. intros Hd Hbuild. unfold Build. rewrite Hd. unfold bind. by rewrite Hbuild. Qed.

End Rebuild.

(** ** Vote results *)

(** [newVoteResults] leaves the tables as they are, or adds one vote
    result, for its token, with the outcome of the tally. *)
Lemma newVoteResults_tables token w :
  tables (newVoteResults token w).2 = tables w
  \/ exists row,
       VoteResults.Token row = token
       /\ tables (newVoteResults token w).2
          = with_rows VoteResultsT (vote_results (tables w) ++ [row]) (tables w).
Proof.
  unfold newVoteResults, bind, ret, First, Find.
  match goal with
  | |- context [statement ?ns ?fail (fun t => (@?q t, t)) w] =>
      pose proof (reading_tables ns fail q w) as Hw1;
      destruct (statement ns fail (fun t => (q t, t)) w) as [[sv|e] w1]
  end; simpl in Hw1; subst w1.
  2: by left.
  match goal with
  | |- context [statement ?ns ?fail (fun t => (@?q t, t)) (answered w)] =>
      pose proof (reading_tables ns fail q (answered w)) as Hw2;
      destruct (statement ns fail (fun t => (q t, t)) (answered w)) as [c w2]
  end; simpl in Hw2; subst w2.
  destruct (or_zero [] c) as [cv|e]; [|by left].
  match goal with
  | |- context [Create VoteResultsT ?row ?w0] =>
      destruct (Create VoteResultsT row w0) as [[e|] w3] eqn:Hcr
  end.
  - left. by apply Create_failed in Hcr as ->.
  - right. apply Create_ok in Hcr as ->.
    eexists. split; [|reflexivity]. reflexivity.
Qed.

Lemma vote_results_of_other token row t :
  VoteResults.Token row <> token ->
  vote_results_of token
    (with_rows VoteResultsT (vote_results t ++ [row]) t)
  = vote_results_of token t.
Proof.
  intros Hrow. unfold vote_results_of.
  cbn [vote_results with_rows VoteResultsT].
  by rewrite filter_app, filter_cons_False, app_nil_r.
Qed.

(** Materializing the results of some tokens does not touch the results
    of another token. *)
Lemma materialize_others token (wrap : string -> option error -> option error)
    tokens w :
  token ∉ tokens ->
  vote_results_of token
    (tables (for_each (fun v => do err <- newVoteResults v; ret (wrap v err))
                      tokens w).2)
  = vote_results_of token (tables w).
Proof.
  revert w. induction tokens as [|v tokens IH]; intros w Hnot; [done|].
  apply not_elem_of_cons in Hnot as [Hv Hnot]. simpl. unfold bind at 1.
  unfold bind at 1. unfold ret at 1.
  pose proof (newVoteResults_tables v w) as Hstep.
  destruct (newVoteResults v w) as [err w1]. simpl in Hstep.
  assert (vote_results_of token (tables w1) = vote_results_of token (tables w))
    as Hw1.
  { destruct Hstep as [->|(row & Hrow & ->)]; [done|].
    apply vote_results_of_other. congruence. }
  destruct (wrap v err); [done|]. by rewrite IH.
Qed.

Lemma finished_without_results_spec bestBlock t token :
  token ∈ finished_without_results bestBlock t
  <-> exists sv, sv ∈ start_votes t /\ StartVote.Token sv = token
                 /\ stale bestBlock t sv.
Proof.
  unfold finished_without_results, stale. rewrite list_elem_of_fmap.
  split.
  - intros (sv & -> & Hsv). apply list_elem_of_filter in Hsv as [? ?].
    by exists sv.
  - intros (sv & Hsv & <- & Hstale). exists sv. split; [done|].
    by apply list_elem_of_filter.
Qed.

Section VoteResults.

Context `{codec : bitumplugin.Codec}.

(** Claim C2.  A token that has a vote result is never among the tokens
    the load-vote-results command selects, whatever the reference height:
    the command selects the tokens of the start votes that end at or
    before that height and have no vote result.  After the command,
    whatever its payload and however it ends, the vote results of that
    token, with their option results, are the ones stored before. *)
Theorem cmdLoadVoteResults_keeps_results payload w token :
  token ∈ VoteResults.Token <$> vote_results (tables w) ->
  (forall bestBlock, token ∉ finished_without_results bestBlock (tables w))
  /\ (forall bestBlock selected,
        selected ∈ finished_without_results bestBlock (tables w)
        <-> exists sv, sv ∈ start_votes (tables w)
                       /\ StartVote.Token sv = selected
                       /\ StartVote.EndHeight sv <= bestBlock
                       /\ selected ∉ VoteResults.Token
                                       <$> vote_results (tables w))
  /\ vote_results_of token (tables (cmdLoadVoteResults payload w).2)
     = vote_results_of token (tables w).
Proof.
  intros Hrow.
  assert (Hsel : forall bestBlock selected,
             selected ∈ finished_without_results bestBlock (tables w)
             <-> exists sv, sv ∈ start_votes (tables w)
                            /\ StartVote.Token sv = selected
                            /\ StartVote.EndHeight sv <= bestBlock
                            /\ selected ∉ VoteResults.Token
                                            <$> vote_results (tables w)).
  { intros bestBlock selected. rewrite finished_without_results_spec.
    unfold stale. split; intros (sv & Hsv & Htoken & Hend & Hnone);
      exists sv; split_and!; try done.
    - rewrite list_elem_of_fmap. intros (vr & -> & Hvr).
      rewrite Forall_forall in Hnone. by apply (Hnone vr).
    - apply Forall_forall. intros vr Hvr Heq. apply Hnone.
      rewrite list_elem_of_fmap. exists vr. split; [congruence|done]. }
  assert (Hnot : forall bestBlock,
             token ∉ finished_without_results bestBlock (tables w)).
  { intros bestBlock Hin. apply Hsel in Hin as (sv & _ & _ & _ & Hnone).
    done. }
  split_and!; [done..|].
  unfold cmdLoadVoteResults.
  destruct (bitumplugin.DecodeLoadVoteResults payload) as [lvs|e]; [|done].
  unfold bind at 1. unfold RawRows.
  match goal with
  | |- context [statement ?ns ?fail ?run w] =>
      destruct (statement_cases ns fail run w) as [[e He]|(_ & _ & He)];
        rewrite He
  end; [done|].
  cbn [fst snd]. rewrite with_tables_answered.
  unfold bind at 1.
  pose proof (materialize_others token
                (fun v err => Errorf ("newVoteResults " +:+ v +:+ ": ") <$> err)
                (finished_without_results
                   (bitumplugin.LoadVoteResults.BestBlock lvs) (tables w))
                (answered w) (Hnot _)) as Hloop.
  cbn beta in Hloop.
  destruct (for_each _ _ (answered w)) as [[e|] w1]; simpl in Hloop; [done|].
  by destruct (bitumplugin.EncodeLoadVoteResultsReply _).
Qed.

(** With every finished vote materialized, the command creates nothing. *)
Lemma cmdLoadVoteResults_nothing_pending payload lvs w :
  bitumplugin.DecodeLoadVoteResults payload = Ok lvs ->
  finished_without_results (bitumplugin.LoadVoteResults.BestBlock lvs)
    (tables w) = [] ->
  tables (cmdLoadVoteResults payload w).2 = tables w.
Proof.
  intros Hd Hnone. unfold cmdLoadVoteResults. rewrite Hd.
  unfold bind at 1. unfold RawRows.
  match goal with
  | |- context [statement ?ns ?fail ?run w] =>
      destruct (statement_cases ns fail run w) as [[e He]|(_ & _ & He)];
        rewrite He
  end; [done|].
  cbn [fst snd]. rewrite Hnone. simpl.
  by destruct (bitumplugin.EncodeLoadVoteResultsReply _).
Qed.

End VoteResults.

(** ** The token inventory *)

Lemma trouble_free_next w : trouble_free w -> next_fault w = None.
Proof.
  unfold trouble_free, next_fault. destruct (faults w) as [|[e|] fs]; try done.
  intros Hf. by apply Forall_cons in Hf as [? _].
Qed.

Lemma trouble_free_answered w : trouble_free w -> trouble_free (answered w).
Proof.
  unfold trouble_free, answered. simpl. destruct (faults w); [done|].
  intros Hf. by apply Forall_cons in Hf as [_ ?].
Qed.

Lemma RawRows_runs ns q w :
  trouble_free w -> Forall (fun n => n ∈ existing (tables w)) ns ->
  RawRows ns q w = (Ok (q (tables w)), answered w).
Proof.
  intros Hf Hns. unfold RawRows.
  rewrite statement_runs;
    [|by apply trouble_free_next|by apply missing_none].
  simpl. by rewrite with_tables_answered.
Qed.

#[local] Instance end_height_desc_total : Total end_height_desc.
Proof. intros a b. unfold end_height_desc. lia. Qed.

#[local] Instance end_height_desc_trans : Transitive end_height_desc.
Proof. intros a b c. unfold end_height_desc. lia. Qed.

(** The active tokens are the start votes that end after the reference
    height, each once, the one that ends last first. *)
Lemma active_query_spec bestBlock t :
  exists svs,
    active_query bestBlock t = StartVote.Token <$> svs
    /\ svs ≡ₚ filter (fun sv => bestBlock < StartVote.EndHeight sv)
                     (start_votes t)
    /\ StronglySorted end_height_desc svs.
Proof.
  eexists. split; [reflexivity|]. split.
  - apply merge_sort_Permutation.
  - apply StronglySorted_merge_sort; apply _.
Qed.

(** The approved and the rejected tokens are those of the vote results
    with that outcome, as long as every vote result has its start vote. *)
Lemma results_query_spec flag t token :
  results_have_start_vote t ->
  token ∈ results_query flag t
  <-> exists vr, vr ∈ vote_results t /\ VoteResults.Token vr = token
                 /\ VoteResults.Approved vr = flag.
Proof.
  intros Hinv. unfold results_query. rewrite list_elem_of_fmap. split.
  - intros ([vr sv] & -> & Hp). rewrite merge_sort_Permutation in Hp.
    apply list_elem_of_filter in Hp as [[_ Hflag] Hp].
    apply list_elem_of_cprod in Hp as [Hvr _]. by exists vr.
  - intros (vr & Hvr & <- & Hflag).
    destruct (Hinv vr Hvr) as (sv & Hsv & Htoken).
    exists (vr, sv). split; [done|]. rewrite merge_sort_Permutation.
    apply list_elem_of_filter. split; [done|]. by apply list_elem_of_cprod.
Qed.

Section TokenInventory.

Context `{codec : bitumplugin.Codec}.

(** Claim C3.  The store answers every query and holds the tables the
    command reads.  If some start vote ends at or before the reference
    height and has no vote result, the token-inventory command returns the
    not-found error of the cache and no reply.  Otherwise it returns the
    encoded reply with the five buckets: the active tokens are the tokens
    of the start votes that end after the reference height, each once and
    the one that ends last first, and the approved and rejected tokens are
    the tokens of the vote results whose approved flag is true and false.
    The command changes no table. *)
Theorem cmdTokenInventory_classifies payload ti w :
  bitumplugin.DecodeTokenInventory payload = Ok ti ->
  trouble_free w ->
  tableStartVotes ∈ existing (tables w) ->
  tableVoteResults ∈ existing (tables w) ->
  tableRecords ∈ existing (tables w) ->
  results_have_start_vote (tables w) ->
  let bestBlock := bitumplugin.TokenInventory.BestBlock ti in
  let t := tables w in
  let pre := pre_query t in
  let active := active_query bestBlock t in
  let approved := results_query true t in
  let rejected := results_query false t in
  let abandoned := abandoned_query t in
  (Exists (stale bestBlock t) (start_votes t) ->
   (cmdTokenInventory payload w).1 = ("", Some cache_ErrRecordNotFound))
  /\ (~ Exists (stale bestBlock t) (start_votes t) ->
      (cmdTokenInventory payload w).1
      = reply_of (bitumplugin.EncodeTokenInventoryReply
                    {| bitumplugin.TokenInventoryReply.Pre := pre;
                       bitumplugin.TokenInventoryReply.Active := active;
                       bitumplugin.TokenInventoryReply.Approved := approved;
                       bitumplugin.TokenInventoryReply.Rejected := rejected;
                       bitumplugin.TokenInventoryReply.Abandoned := abandoned |}))
  /\ (exists svs,
        active = StartVote.Token <$> svs
        /\ svs ≡ₚ filter (fun sv => bestBlock < StartVote.EndHeight sv)
                         (start_votes t)
        /\ StronglySorted end_height_desc svs)
  /\ (forall token,
        token ∈ approved
        <-> exists vr, vr ∈ vote_results t /\ VoteResults.Token vr = token
                       /\ VoteResults.Approved vr = true)
  /\ (forall token,
        token ∈ rejected
        <-> exists vr, vr ∈ vote_results t /\ VoteResults.Token vr = token
                       /\ VoteResults.Approved vr = false)
  /\ tables (cmdTokenInventory payload w).2 = t.
Proof.
  intros Hd Hf Hsv Hvr Hrec Hinv bestBlock t pre active approved rejected
    abandoned.
  assert (Hq1 : RawRows [tableStartVotes; tableVoteResults]
                  (finished_without_results bestBlock) w
                = (Ok (finished_without_results bestBlock t), answered w)).
  { apply RawRows_runs; [done|]. by repeat constructor. }
  assert (Hstale : Exists (stale bestBlock t) (start_votes t)
                   <-> finished_without_results bestBlock t <> []).
  { unfold finished_without_results, stale. rewrite Exists_exists. split.
    - intros (sv & Hin & Hst) Hnil. apply fmap_nil_inv in Hnil.
      eapply (filter_nil_not_elem_of _ _ sv); [exact Hnil|exact Hst|done].
    - intros Hne.
      destruct (filter _ (start_votes t)) as [|sv l] eqn:Hfl; [done|].
      assert (sv ∈ sv :: l) as Hin by left. rewrite <- Hfl in Hin.
      apply list_elem_of_filter in Hin as [? ?]. by exists sv. }
  split_and!.
  - intros Hex. apply Hstale in Hex.
    unfold cmdTokenInventory. rewrite Hd. fold bestBlock. unfold bind at 1.
    rewrite Hq1. by destruct (finished_without_results bestBlock t).
  - intros Hex.
    assert (finished_without_results bestBlock t = []) as Hnil.
    { destruct (decide (finished_without_results bestBlock t = []))
        as [|Hne]; [done|].
      exfalso. by apply Hex, Hstale. }
    unfold cmdTokenInventory. rewrite Hd. fold bestBlock.
    unfold bind. rewrite Hq1, Hnil.
    repeat (rewrite RawRows_runs;
            [|by repeat apply trouble_free_answered|by repeat constructor]).
    by destruct (bitumplugin.EncodeTokenInventoryReply _).
  - apply active_query_spec.
  - intros token. by apply results_query_spec.
  - intros token. by apply results_query_spec.
  - unfold cmdTokenInventory. rewrite Hd. fold bestBlock.
    unfold bind. rewrite Hq1.
    destruct (finished_without_results bestBlock t); [|done].
    repeat (rewrite RawRows_runs;
            [|by repeat apply trouble_free_answered|by repeat constructor]).
    by destruct (bitumplugin.EncodeTokenInventoryReply _).
Qed.

End TokenInventory.

(** ** Every vote result has its start vote *)

Section Preservation.

Context {I : Tables -> Prop}.

Lemma preserves_ret {A : Type} (a : A) : preserves I (ret a).
Proof. by intros w. Qed.

Lemma preserves_bind {A B : Type} (m : M A) (k : A -> M B) :
  preserves I m -> (forall a, preserves I (k a)) -> preserves I (bind m k).
Proof.
  intros Hm Hk w Hw. unfold bind. specialize (Hm w Hw).
  destruct (m w) as [a w1]. by apply Hk.
Qed.

Lemma preserves_statement {A : Type} ns (fail : error -> A) run :
  (forall t, I t -> I (run t).2) -> preserves I (statement ns fail run).
Proof.
  intros Hrun w Hw.
  destruct (statement_cases ns fail run w) as [[e ->]|(_ & _ & ->)]; [done|].
  by apply Hrun.
Qed.

Lemma preserves_for_each {A : Type} (body : A -> M (option error)) l :
  (forall v, preserves I (body v)) -> preserves I (for_each body l).
Proof.
  intros Hbody. induction l as [|v l IH]; simpl; [apply preserves_ret|].
  apply preserves_bind; [done|]. intros [e|]; [apply preserves_ret|done].
Qed.

Lemma preserves_transaction body :
  preserves I body -> preserves I (transaction body).
Proof.
  intros Hbody w Hw. pose proof (transaction_cases body w) as Htx.
  specialize (Hbody (Begin w) Hw).
  destruct (transaction body w) as [[e|e|] w1]; simpl;
    destruct Htx as (tx & Hb & _ & ->); try done.
  by rewrite Hb in Hbody.
Qed.

End Preservation.

(** The steps of a proof that a handler keeps a property of the tables:
    through the binds, the loops, the transactions and the case
    distinctions, down to the statements. *)
Create HintDb preserve.

Ltac preserve :=
  repeat first
    [ solve [auto with preserve nocore]
    | apply preserves_ret
    | apply preserves_bind; [|intros ?]
    | apply preserves_transaction
    | apply preserves_for_each; intros ?
    | apply preserves_statement; intros ? ?
    | match goal with
      | |- preserves _ (match ?x with _ => _ end) => destruct x
      end ].

Lemma newVoteResults_row token w :
  tables (newVoteResults token w).2 = tables w
  \/ exists sv cv,
       sv ∈ start_votes (tables w) /\ StartVote.Token sv = token
       /\ let results :=
            option_results token (tally_votes cv) (StartVote.Options sv) in
          tables (newVoteResults token w).2
          = with_rows VoteResultsT
              (vote_results (tables w)
               ++ [{| VoteResults.Token := token;
                      VoteResults.Approved := vote_approved sv results;
                      VoteResults.Results := results |}])
              (tables w).
Proof.
  unfold newVoteResults, bind, ret, First, Find.
  match goal with
  | |- context [statement ?ns ?fail ?run w] =>
      destruct (statement_cases ns fail run w) as [[e ->]|(_ & _ & ->)]
  end; [by left|].
  cbn [fst snd rows StartVotes]. rewrite with_tables_answered.
  destruct (filter _ (start_votes (tables w))) as [|sv svs] eqn:Hsv;
    [by left|].
  assert (sv ∈ start_votes (tables w) /\ StartVote.Token sv = token)
    as [Hin Htoken].
  { assert (sv ∈ sv :: svs) as Hin by left. rewrite <- Hsv in Hin.
    by apply list_elem_of_filter in Hin as [? ?]. }
  match goal with
  | |- context [statement ?ns ?fail (fun t => (@?q t, t)) (answered w)] =>
      pose proof (reading_tables ns fail q (answered w)) as Hw2;
      destruct (statement ns fail (fun t => (q t, t)) (answered w)) as [c w2]
  end; simpl in Hw2; subst w2.
  destruct (or_zero [] c) as [cv|e]; [|by left].
  match goal with
  | |- context [Create VoteResultsT ?row ?w0] =>
      destruct (Create VoteResultsT row w0) as [[e|] w3] eqn:Hcr
  end.
  - left. by apply Create_failed in Hcr as ->.
  - right. apply Create_ok in Hcr as ->. by exists sv, cv.
Qed.

Lemma newVoteResults_keeps token :
  preserves results_have_start_vote (newVoteResults token).
Proof.
  intros w Hw.
  destruct (newVoteResults_row token w) as [->|(sv & cv & Hsv & Htoken & ->)];
    [done|].
  intros vr Hvr. cbn [vote_results start_votes with_rows VoteResultsT] in *.
  apply elem_of_app in Hvr as [Hvr|Hvr]; [by apply Hw|].
  apply list_elem_of_singleton in Hvr as ->. by exists sv.
Qed.

Lemma count_votes_keeps {I : Tables -> Prop} options results :
  preserves I (count_votes options results).
Proof.
  revert results. induction options as [|v options IH]; intros results;
    simpl; [apply preserves_ret|].
  unfold CountRows. preserve; done.
Qed.

#[local] Hint Resolve newVoteResults_keeps count_votes_keeps : preserve.

Lemma dropped_keeps t :
  results_have_start_vote (dropped dropped_tables t).
Proof. intros vr Hvr. by apply elem_of_nil in Hvr. Qed.

Lemma start_vote_added_keeps sv t :
  results_have_start_vote t ->
  results_have_start_vote (with_rows StartVotes (start_votes t ++ [sv]) t).
Proof.
  intros Ht vr Hvr. destruct (Ht vr Hvr) as (sv' & Hsv' & Htoken).
  exists sv'. split; [|done]. apply elem_of_app. by left.
Qed.

Section Invariant.

Context `{codec : bitumplugin.Codec}.

(** No command breaks the property. *)
Lemma Exec_keeps_results_have_start_vote cmd cmdPayload replyPayload :
  preserves results_have_start_vote (Exec cmd cmdPayload replyPayload).
Proof.
  unfold Exec. repeat case_decide;
    unfold cmdAuthorizeVote, newAuthorizeVote, cmdStartVote, newStartVote,
      cmdVoteDetails, latest_record, cmdNewBallot, newCastVote, cmdNewComment,
      newComment, cmdLikeComment, newLikeComment, cmdCensorComment,
      cmdGetComment, cmdGetComments, cmdProposalVotes, cmdCommentLikes,
      cmdProposalCommentsLikes, cmdInventory, cmdLoadVoteResults,
      cmdTokenInventory, cmdVoteSummary, sendReply,
      Create, Delete, Updates, First, FirstOrdered, Find, RawRows.
  all: preserve; try done.
  by apply start_vote_added_keeps.
Qed.

End Invariant.

Section InvariantRebuild.

Context `{codec : bitumplugin.Codec}.

Lemma createTables_keeps : preserves results_have_start_vote createTables.
Proof.
  unfold createTables, ensure_table, HasTable, CreateTable, First.
  preserve; try done; try (by case_decide).
  intros w Hw. cbv beta. unfold Create.
  by apply (preserves_statement (I := results_have_start_vote)).
Qed.

Lemma dropTables_keeps : preserves results_have_start_vote dropTables.
Proof.
  unfold dropTables, delete_version, DropTableIfExists, Delete.
  preserve; try done. apply dropped_keeps.
Qed.

(** Neither does a rebuild, however it ends. *)
Lemma Build_keeps_results_have_start_vote payload :
  preserves results_have_start_vote (Build payload).
Proof.
  pose proof createTables_keeps. pose proof dropTables_keeps.
  unfold Build, build, replay, build_authorize_vote, build_start_vote,
    newComment, newLikeComment, newAuthorizeVote, newStartVote, newCastVote,
    delete_version, Create, Delete.
  preserve; try done.
  by apply start_vote_added_keeps.
Qed.

Lemma Setup_keeps_results_have_start_vote :
  preserves results_have_start_vote Setup.
Proof. pose proof createTables_keeps. unfold Setup. by preserve. Qed.

End InvariantRebuild.

(** It holds of a database without vote results. *)
Lemma no_results_have_start_vote t :
  vote_results t = [] -> results_have_start_vote t.
Proof. intros Ht vr Hvr. rewrite Ht in Hvr. by apply elem_of_nil in Hvr. Qed.

(** * The statements on the sample data *)

Module Witness.

Import Sample.

Lemma Exec_vote_details_swallows_decode_error_witness :
  @bitumplugin.DecodeVoteDetails codec "{"
  = Err (errorString "invalid character looking for beginning of value")
  /\ @Exec codec bitumplugin.CmdVoteDetails "{" "" (world commented [])
     = (("", None), world commented []).
Proof.
  split; [reflexivity|].
  apply (@Exec_vote_details_swallows_decode_error codec "{" ""
           (errorString "invalid character looking for beginning of value")).
  reflexivity.
Defined.

Lemma cmdCensorComment_blank_key_censors_every_comment_witness :
  let w := world commented [] in
  let w' := (@cmdCensorComment Forum.codec "{}" "censored" w).2 in
  @bitumplugin.DecodeCensorComment Forum.codec "{}" = Ok Forum.blank_censor
  /\ Forall (fun c => Comment.Key c <> "" +:+ "") (comments (tables w))
  /\ (@cmdCensorComment Forum.codec "{}" "censored" w).1 = ("censored", None)
  /\ Comment.Comment <$> comments (tables w) = ["hello"; "world"]
  /\ Comment.Censored <$> comments (tables w) = [false; false]
  /\ Comment.Comment <$> comments (tables w') = [""; ""]
  /\ Comment.Censored <$> comments (tables w') = [true; true]
  /\ tables w' <> tables w.
Proof.
  intros w w'.
  assert (H1 : @bitumplugin.DecodeCensorComment Forum.codec "{}"
               = Ok Forum.blank_censor) by reflexivity.
  assert (H2 : Forall (fun c => Comment.Key c <> "" +:+ "")
                      (comments (tables w))) by compute_done.
  assert (H3 : next_fault w = None) by reflexivity.
  assert (H4 : tableComments ∈ existing (tables w)) by compute_done.
  destruct (@cmdCensorComment_blank_key_censors_every_comment Forum.codec
              "{}" "censored" Forum.blank_censor w H1 eq_refl H3 H4)
    as (Hreply & Hall & Hchanged).
  split; [exact H1|]. split; [exact H2|]. split; [exact Hreply|].
  split; [reflexivity|]. split; [reflexivity|].
  split; [exact (f_equal (fmap Comment.Comment) Hall)|].
  split; [exact (f_equal (fmap Comment.Censored) Hall)|].
  apply Hchanged. exists (comment_row "1" "hello"). split; [left|reflexivity].
Defined.

Lemma cmdCensorComment_censors_witness :
  let w := world commented [] in
  let w' := (@cmdCensorComment codec "censor 1" "censored" w).2 in
  @bitumplugin.DecodeCensorComment codec "censor 1" = Ok (censor "1")
  /\ @cmdCensorComment codec "censor 1" "censored" w
     = (("censored", None), w')
  /\ (exists c', comments (tables w') !! 0%nat = Some c'
                 /\ Comment.Key c' = "tok1"
                 /\ Comment.TotalVotes c' = 3
                 /\ Comment.ResultVotes c' = 1
                 /\ Comment.Comment c' = ""
                 /\ Comment.Censored c' = true)
  /\ comments (tables w') !! 1%nat = Some (comment_row "2" "world")
  /\ tables (@cmdCensorComment codec "censor 1" "censored" w').2 = tables w'.
Proof.
  intros w w'.
  assert (H1 : @bitumplugin.DecodeCensorComment codec "censor 1"
               = Ok (censor "1")) by reflexivity.
  assert (H2 : @cmdCensorComment codec "censor 1" "censored" w
               = (("censored", None), w')) by reflexivity.
  destruct (@cmdCensorComment_censors codec "censor 1" "censored"
              (censor "1") w "censored" w' H1 H2)
    as (Hsame & Hother & _ & _ & _ & _ & Htwice).
  destruct (Hsame 0%nat (comment_row "1" "hello") eq_refl eq_refl)
    as (c' & Hc' & Hkey & _ & _ & _ & _ & _ & _ & _ & Htotal & Hresult
        & Htext & Hflag).
  split; [exact H1|]. split; [exact H2|].
  split; [exists c'; repeat split; assumption|].
  split; [apply (Hother ltac:(discriminate) 1%nat (comment_row "2" "world")
                   eq_refl);
          vm_compute; discriminate|].
  exact Htwice.
Defined.

Lemma cmdAuthorizeVote_replaces_witness :
  let w := world no_rows [] in
  let w1 := (@cmdAuthorizeVote codec "authorize" "authorized" w).2 in
  let w2 := (@cmdAuthorizeVote codec "revoke" "revoked" w1).2 in
  let av1 := authorize "authorize" "sig-a" in
  let avr1 := authorize_reply "authorize" "rcpt-a" 100 in
  let av2 := authorize "revoke" "sig-b" in
  let avr2 := authorize_reply "revoke" "rcpt-b" 200 in
  @bitumplugin.DecodeAuthorizeVote codec "authorize" = Ok av1
  /\ @bitumplugin.DecodeAuthorizeVoteReply codec "authorized" = Ok avr1
  /\ @bitumplugin.DecodeAuthorizeVote codec "revoke" = Ok av2
  /\ @bitumplugin.DecodeAuthorizeVoteReply codec "revoked" = Ok avr2
  /\ bitumplugin.AuthorizeVote.Token av1 = bitumplugin.AuthorizeVote.Token av2
  /\ bitumplugin.AuthorizeVoteReply.RecordVersion avr1
     = bitumplugin.AuthorizeVoteReply.RecordVersion avr2
  /\ @cmdAuthorizeVote codec "authorize" "authorized" w
     = (("authorized", None), w1)
  /\ @cmdAuthorizeVote codec "revoke" "revoked" w1 = (("revoked", None), w2)
  /\ exists version,
       ParseUint "1" = Ok version
       /\ authorize_votes_of "tok1" (tables w1)
          = [convertAuthorizeVoteFromBitum av1 avr1 version]
       /\ authorize_votes_of "tok1" (tables w2)
          = [convertAuthorizeVoteFromBitum av2 avr2 version]
       /\ (at_most_one_per_key (tables w) ->
           at_most_one_per_key (tables w1) /\ at_most_one_per_key (tables w2)).
Proof.
  intros w w1 w2 av1 avr1 av2 avr2.
  repeat (split; [reflexivity|]).
  exact (@cmdAuthorizeVote_replaces codec "authorize" "authorized" "revoke"
           "revoked" av1 avr1 av2 avr2 w "authorized" w1 "revoked" w2
           eq_refl eq_refl eq_refl eq_refl eq_refl eq_refl eq_refl eq_refl).
Defined.

Lemma cmdNewBallot_all_or_nothing_witness :
  let b := {| bitumplugin.Ballot.Votes := [cast "t1" "2"; cast "t2" "1"] |} in
  let failing := world commented [None; Some boom] in
  let working := world commented [] in
  @bitumplugin.DecodeBallot codec "ballot" = Ok b
  /\ @cmdNewBallot codec "ballot" "cast" failing
     = (("", Some boom), world commented [])
  /\ @cmdNewBallot codec "ballot" "cast" working
     = (("cast", None), (@cmdNewBallot codec "ballot" "cast" working).2)
  /\ tables (@cmdNewBallot codec "ballot" "cast" working).2
     = with_rows CastVotes
         [convertCastVoteFromBitum (cast "t1" "2");
          convertCastVoteFromBitum (cast "t2" "1")]
         commented.
Proof.
  intros b failing working.
  assert (Hd : @bitumplugin.DecodeBallot codec "ballot" = Ok b) by reflexivity.
  split; [exact Hd|]. split; [|split].
  - destruct (@cmdNewBallot_all_or_nothing codec "ballot" "cast" b failing Hd)
      as (Hfails & _ & _).
    exact (proj1 (Hfails [cast "t1" "2"] (cast "t2" "1") []
                    (newCastVote (convertCastVoteFromBitum (cast "t1" "2"))
                       failing).2
                    (newCastVote (convertCastVoteFromBitum (cast "t2" "1"))
                       (newCastVote (convertCastVoteFromBitum (cast "t1" "2"))
                          failing).2).2
                    boom eq_refl eq_refl eq_refl)).
  - destruct (@cmdNewBallot_all_or_nothing codec "ballot" "cast" b working Hd)
      as (_ & Hworks & _).
    exact (proj1 (Hworks
                    (for_each
                       (fun v => newCastVote (convertCastVoteFromBitum v))
                       (bitumplugin.Ballot.Votes b) working).2
                    (@cmdNewBallot codec "ballot" "cast" working).2
                    eq_refl eq_refl)).
  - destruct (@cmdNewBallot_all_or_nothing codec "ballot" "cast" b working Hd)
      as (_ & Hworks & _).
    exact (proj2 (Hworks
                    (for_each
                       (fun v => newCastVote (convertCastVoteFromBitum v))
                       (bitumplugin.Ballot.Votes b) working).2
                    (@cmdNewBallot codec "ballot" "cast" working).2
                    eq_refl eq_refl)).
Defined.

Lemma Build_failure_policy_witness :
  let w := world commented [Some boom] in
  let e := Errorf "drop tables: " boom in
  let w1 := (build inventory w).2 in
  let w2 := (delete_version w1).2 in
  let twice := world commented [Some boom; Some boom] in
  @bitumplugin.DecodeInventoryReply codec "inventory" = Ok inventory
  /\ build inventory w = (Some e, w1)
  /\ @Build codec "inventory" w = (Returned (Some e), w2)
  /\ versions (tables w2) = []
  /\ (CheckVersion w2).1 = Some cache_ErrNoVersionRecord
  /\ build inventory twice = (Some e, (build inventory twice).2)
  /\ @Build codec "inventory" twice = (Panicked out_of_sync, world commented []).
Proof.
  intros w e w1 w2 twice.
  assert (Hd : @bitumplugin.DecodeInventoryReply codec "inventory"
               = Ok inventory) by reflexivity.
  assert (Hb : build inventory w = (Some e, w1)) by reflexivity.
  assert (Hb' : build inventory twice = (Some e, (build inventory twice).2))
    by reflexivity.
  pose proof (@Build_failure_policy codec "inventory" inventory w e w1 Hd Hb)
    as Hpolicy.
  pose proof (@Build_failure_policy codec "inventory" inventory twice e
                (build inventory twice).2 Hd Hb') as Hpanic.
  assert (Hdel : delete_version w1 = (None, w2)) by reflexivity.
  assert (Hdel' : delete_version (build inventory twice).2
                  = (Some boom, world commented [])) by reflexivity.
  rewrite Hdel in Hpolicy. rewrite Hdel' in Hpanic.
  split; [exact Hd|]. split; [exact Hb|]. split; [exact (proj1 Hpolicy)|].
  split; [reflexivity|]. split; [reflexivity|]. split; [exact Hb'|].
  exact Hpanic.
Defined.

Lemma four_votes_have_start_vote : results_have_start_vote four_votes.
Proof.
  intros vr Hvr. apply elem_of_cons in Hvr as [->|Hvr].
  - exists (start_vote "a" 50 20 60 5). split; [left|reflexivity].
  - apply list_elem_of_singleton in Hvr as ->.
    exists (start_vote "b" 60 20 60 5).
    split; [right; right; left|reflexivity].
Qed.

Lemma cmdTokenInventory_classifies_witness :
  let w := world four_votes [] in
  let behind := world five_votes [] in
  @bitumplugin.DecodeTokenInventory codec "block 100"
  = Ok {| bitumplugin.TokenInventory.BestBlock := 100 |}
  /\ trouble_free w
  /\ tableStartVotes ∈ existing (tables w)
  /\ tableVoteResults ∈ existing (tables w)
  /\ tableRecords ∈ existing (tables w)
  /\ results_have_start_vote (tables w)
  /\ (@cmdTokenInventory codec "block 100" w).1
     = ("pre= active=d,c approved=a rejected=b abandoned=", None)
  /\ (@cmdTokenInventory codec "block 100" behind).1
     = ("", Some cache_ErrRecordNotFound).
Proof.
  intros w behind.
  assert (Hd : @bitumplugin.DecodeTokenInventory codec "block 100"
               = Ok {| bitumplugin.TokenInventory.BestBlock := 100 |})
    by reflexivity.
  assert (Hf : trouble_free w) by constructor.
  assert (Hf' : trouble_free behind) by constructor.
  assert (H1 : tableStartVotes ∈ existing (tables w)) by compute_done.
  assert (H2 : tableVoteResults ∈ existing (tables w)) by compute_done.
  assert (H3 : tableRecords ∈ existing (tables w)) by compute_done.
  assert (Hinv : results_have_start_vote (tables w))
    by exact four_votes_have_start_vote.
  assert (Hinv' : results_have_start_vote (tables behind)).
  { intros vr Hvr. destruct (four_votes_have_start_vote vr Hvr)
      as (sv & Hsv & Htoken).
    exists sv. split; [|exact Htoken]. apply elem_of_app. left. exact Hsv. }
  destruct (@cmdTokenInventory_classifies codec "block 100" _ w
              Hd Hf H1 H2 H3 Hinv) as (_ & Hfresh & _).
  destruct (@cmdTokenInventory_classifies codec "block 100" _ behind
              Hd Hf' H1 H2 H3 Hinv') as (Hstale & _).
  repeat (split; [assumption|]). split.
  - apply Hfresh. compute_done.
  - apply Hstale. compute_done.
Defined.

Lemma cmdLoadVoteResults_keeps_results_witness :
  let w := world five_votes [] in
  let w' := (@cmdLoadVoteResults codec "block 100" w).2 in
  "a" ∈ VoteResults.Token <$> vote_results (tables w)
  /\ ("a" ∉ finished_without_results 100 (tables w))
  /\ vote_results_of "a" (tables w') = [vote_result "a" true]
  /\ VoteResults.Token <$> vote_results (tables w') = ["a"; "b"; "e"].
Proof.
  intros w w'.
  assert (Ha : "a" ∈ (VoteResults.Token <$> vote_results (tables w)))
    by compute_done.
  destruct (@cmdLoadVoteResults_keeps_results codec "block 100" w "a" Ha)
    as (Hnot & _ & Hkept).
  split; [exact Ha|]. split; [exact (Hnot 100)|].
  split; [exact Hkept|]. reflexivity.
Defined.

End Witness.

(** * Further properties of the plugin *)

(** ** What the query commands leave alone *)

Section Queries.

Context `{codec : bitumplugin.Codec}.

(** The commands that only read (and [bestblock], which does nothing)
    leave every table as it is, whatever their payload and whatever the
    store answers. *)
Theorem query_commands_change_no_table cmd cmdPayload replyPayload w :
  cmd ∈ [bitumplugin.CmdVoteDetails; bitumplugin.CmdBestBlock;
         bitumplugin.CmdGetComment; bitumplugin.CmdGetComments;
         bitumplugin.CmdProposalVotes; bitumplugin.CmdCommentLikes;
         bitumplugin.CmdProposalCommentsLikes; bitumplugin.CmdInventory;
         bitumplugin.CmdTokenInventory; bitumplugin.CmdVoteSummary] ->
  tables (Exec cmd cmdPayload replyPayload w).2 = tables w.
Proof.
  intros Hcmd.
  assert (preserves (fun t => t = tables w) (Exec cmd cmdPayload replyPayload))
    as Hkeep; [|by apply Hkeep].
  repeat (apply elem_of_cons in Hcmd as [->|Hcmd]);
    [..|by apply elem_of_nil in Hcmd];
    unfold Exec; repeat (case_decide; [done|]); rewrite decide_True by done;
    unfold cmdVoteDetails, latest_record, cmdGetComment, cmdGetComments,
      cmdProposalVotes, cmdCommentLikes, cmdProposalCommentsLikes,
      cmdInventory, cmdTokenInventory, cmdVoteSummary, sendReply,
      First, FirstOrdered, Find, RawRows;
    preserve; done.
Qed.

End Queries.

(** ** The buckets of the token inventory *)

Lemma pre_query_spec t token :
  token ∈ pre_query t ->
  Forall (fun sv => StartVote.Token sv <> token) (start_votes t).
Proof.
  unfold pre_query. rewrite list_elem_of_fmap. intros (a & -> & Ha).
  rewrite merge_sort_Permutation in Ha.
  by apply list_elem_of_filter in Ha as [(_ & Hnone & _) _].
Qed.

Lemma active_query_elem bestBlock t token :
  token ∈ active_query bestBlock t
  <-> exists sv, sv ∈ start_votes t /\ StartVote.Token sv = token
                 /\ bestBlock < StartVote.EndHeight sv.
Proof.
  unfold active_query. rewrite list_elem_of_fmap. split.
  - intros (sv & -> & Hsv). rewrite merge_sort_Permutation in Hsv.
    apply list_elem_of_filter in Hsv as [? ?]. by exists sv.
  - intros (sv & Hsv & <- & Hend). exists sv. split; [done|].
    rewrite merge_sort_Permutation. by apply list_elem_of_filter.
Qed.

Lemma results_query_elem flag t token :
  token ∈ results_query flag t
  <-> exists vr sv, vr ∈ vote_results t /\ sv ∈ start_votes t
                    /\ VoteResults.Token vr = token
                    /\ StartVote.Token sv = token
                    /\ VoteResults.Approved vr = flag.
Proof.
  unfold results_query. rewrite list_elem_of_fmap. split.
  - intros ([vr sv] & -> & Hp). rewrite merge_sort_Permutation in Hp.
    apply list_elem_of_filter in Hp as [[Htoken Hflag] Hp].
    apply list_elem_of_cprod in Hp as [Hvr Hsv]. by exists vr, sv.
  - intros (vr & sv & Hvr & Hsv & <- & Htoken & Hflag).
    exists (vr, sv). split; [done|]. rewrite merge_sort_Permutation.
    apply list_elem_of_filter. split; [done|]. by apply list_elem_of_cprod.
Qed.

(** The buckets that the token inventory fills from the start votes and the
    vote results do not overlap, when vote results exist only for votes
    that ended at or before the reference height and no token has two vote
    results with different outcomes: no token is in two of the pre-vote,
    active, approved and rejected buckets.  (A pre-vote token is in none of
    the other three without these two conditions.) *)
Theorem token_buckets_disjoint bestBlock t token :
  (forall vr sv, vr ∈ vote_results t -> sv ∈ start_votes t ->
     VoteResults.Token vr = StartVote.Token sv ->
     StartVote.EndHeight sv <= bestBlock) ->
  (forall vr vr', vr ∈ vote_results t -> vr' ∈ vote_results t ->
     VoteResults.Token vr = VoteResults.Token vr' ->
     VoteResults.Approved vr = VoteResults.Approved vr') ->
  let pre := pre_query t in
  let active := active_query bestBlock t in
  let approved := results_query true t in
  let rejected := results_query false t in
  ~ (token ∈ pre /\ token ∈ active)
  /\ ~ (token ∈ pre /\ token ∈ approved)
  /\ ~ (token ∈ pre /\ token ∈ rejected)
  /\ ~ (token ∈ active /\ token ∈ approved)
  /\ ~ (token ∈ active /\ token ∈ rejected)
  /\ ~ (token ∈ approved /\ token ∈ rejected).
Proof.
  intros Hended Hone pre active approved rejected.
  assert (Hpre : token ∈ pre ->
                 forall sv, sv ∈ start_votes t -> StartVote.Token sv <> token).
  { intros Hin. apply pre_query_spec in Hin. by rewrite Forall_forall in Hin. }
  assert (Hactive : forall flag,
             ~ (token ∈ active /\ token ∈ results_query flag t)).
  { intros flag [Hin Hres].
    apply active_query_elem in Hin as (sv & Hsv & Htoken & Hend).
    apply results_query_elem in Hres as (vr & _ & Hvr & _ & Hvrt & _ & _).
    assert (StartVote.EndHeight sv <= bestBlock); [|lia].
    apply (Hended vr sv); [done..|congruence]. }
  split_and!; try apply Hactive.
  - intros [Hin Hact]. apply active_query_elem in Hact as (sv & Hsv & Htoken & _).
    by apply (Hpre Hin sv).
  - intros [Hin Hres].
    apply results_query_elem in Hres as (_ & sv & _ & Hsv & _ & Htoken & _).
    by apply (Hpre Hin sv).
  - intros [Hin Hres].
    apply results_query_elem in Hres as (_ & sv & _ & Hsv & _ & Htoken & _).
    by apply (Hpre Hin sv).
  - intros [Hyes Hno].
    apply results_query_elem in Hyes as (vr & _ & Hvr & _ & Hvrt & _ & Hy).
    apply results_query_elem in Hno as (vr' & _ & Hvr' & _ & Hvrt' & _ & Hn).
    assert (VoteResults.Approved vr = VoteResults.Approved vr') as Heq
      by (apply Hone; [done..|congruence]).
    congruence.
Qed.

(** ** Statements on a store that answers *)

Lemma trouble_free_with_tables t w :
  trouble_free w -> trouble_free (with_tables t w).
Proof. done. Qed.

Lemma First_runs {R : Type} (T : Table R) (P : R -> Prop)
    `{!forall r, Decision (P r)} w :
  trouble_free w -> Forall (fun n => n ∈ existing (tables w)) (uses T) ->
  First T P w
  = (match filter P (rows T (tables w)) with
     | r :: _ => Ok r
     | [] => Err gorm_ErrRecordNotFound
     end, answered w).
Proof.
  intros Hf Hns. unfold First.
  rewrite statement_runs;
    [|by apply trouble_free_next|by apply missing_none].
  simpl. by rewrite with_tables_answered.
Qed.

Lemma FirstOrdered_runs {R : Type} (T : Table R) (P : R -> Prop)
    `{!forall r, Decision (P r)} (before : R -> R -> Prop)
    `{!forall a b, Decision (before a b)} w :
  trouble_free w -> Forall (fun n => n ∈ existing (tables w)) (uses T) ->
  FirstOrdered T P before w
  = (match merge_sort before (filter P (rows T (tables w))) with
     | r :: _ => Ok r
     | [] => Err gorm_ErrRecordNotFound
     end, answered w).
Proof.
  intros Hf Hns. unfold FirstOrdered.
  rewrite statement_runs;
    [|by apply trouble_free_next|by apply missing_none].
  simpl. by rewrite with_tables_answered.
Qed.

Lemma Find_runs {R : Type} (T : Table R) (P : R -> Prop)
    `{!forall r, Decision (P r)} w :
  trouble_free w -> Forall (fun n => n ∈ existing (tables w)) (uses T) ->
  Find T P w = (Ok (filter P (rows T (tables w))), answered w).
Proof.
  intros Hf Hns. unfold Find.
  rewrite statement_runs;
    [|by apply trouble_free_next|by apply missing_none].
  simpl. by rewrite with_tables_answered.
Qed.

Lemma CountRows_runs {R : Type} (T : Table R) (P : R -> Prop)
    `{!forall r, Decision (P r)} w :
  trouble_free w -> Forall (fun n => n ∈ existing (tables w)) (uses T) ->
  CountRows T P w
  = (Ok (Z.of_nat (length (filter P (rows T (tables w))))), answered w).
Proof.
  intros Hf Hns. unfold CountRows.
  rewrite statement_runs;
    [|by apply trouble_free_next|by apply missing_none].
  simpl. by rewrite with_tables_answered.
Qed.

(** An insert on a store that answers, in the store model: it goes
    through (the model has no uniqueness constraint). *)
Lemma Create_runs {R : Type} (T : Table R) row w :
  trouble_free w -> Forall (fun n => n ∈ existing (tables w)) (uses T) ->
  Create T row w
  = (None, with_tables (with_rows T (rows T (tables w) ++ [row]) (tables w))
             (answered w)).
Proof.
  intros Hf Hns. unfold Create.
  by rewrite statement_runs;
    [|by apply trouble_free_next|by apply missing_none].
Qed.

(** ** The tally of the cast votes *)

Lemma u64_succ n : u64 (u64 n + 1) = u64 (n + 1).
Proof. unfold u64. by rewrite Zplus_mod_idemp_l. Qed.

(** [tally[bit]] is the number of cast votes with that bit, as a
    [uint64]. *)
Lemma tally_votes_count cv bit :
  default 0 (tally_votes cv !! bit)
  = u64 (Z.of_nat (length (filter (fun v => CastVote.VoteBit v = bit) cv))).
Proof.
  unfold tally_votes. induction cv as [|v cv IH] using rev_ind; [done|].
  rewrite foldl_app, filter_app, length_app. simpl.
  destruct (decide (CastVote.VoteBit v = bit)) as [Hv|Hv].
  - rewrite Hv, lookup_insert_eq. simpl. rewrite IH, u64_succ.
    rewrite filter_cons_True by done. simpl. f_equal. lia.
  - rewrite lookup_insert_ne by done. rewrite IH.
    rewrite filter_cons_False by done. simpl. f_equal. lia.
Qed.

(** The run of [newVoteResults] in the store model, where a store that
    answers accepts the insert. *)
Lemma newVoteResults_runs token w :
  trouble_free w ->
  Forall (fun n => n ∈ existing (tables w))
         [tableStartVotes; tableVoteOptions; tableCastVotes; tableVoteResults;
          tableVoteOptionResults] ->
  let t := tables w in
  let votes_for (v : VoteOption.t) :=
    Z.of_nat (length (filter (fun cv => CastVote.VoteBit cv
                                        = FormatUint (VoteOption.Bits v) 16)
                             (filter (fun cv => CastVote.Token cv = token)
                                     (cast_votes t)))) in
  match filter (fun sv => StartVote.Token sv = token) (start_votes t) with
  | [] =>
      (newVoteResults token w).1
      = Some (errorString "lookup start vote: record not found")
      /\ tables (newVoteResults token w).2 = t
  | sv :: _ =>
      let results :=
        (fun v => {| VoteOptionResult.Key :=
                       token +:+ FormatUint (VoteOption.Bits v) 16;
                     VoteOptionResult.Votes := u64 (votes_for v);
                     VoteOptionResult.Option := v |})
          <$> StartVote.Options sv in
      (newVoteResults token w).1 = None
      /\ tables (newVoteResults token w).2
         = with_rows VoteResultsT
             (vote_results t
              ++ [{| VoteResults.Token := token;
                     VoteResults.Approved := vote_approved sv results;
                     VoteResults.Results := results |}])
             t
  end.
Proof.
  intros Hf Hns t votes_for.
  rewrite !Forall_cons in Hns. destruct Hns as (H1 & H2 & H3 & H4 & H5 & _).
  unfold newVoteResults, bind, ret.
  rewrite First_runs; [|done|by repeat constructor].
  cbn [rows StartVotes]. fold t.
  destruct (filter _ (start_votes t)) as [|sv svs]; [done|].
  rewrite Find_runs;
    [|by apply trouble_free_answered|by repeat constructor].
  cbn [or_zero rows CastVotes]. rewrite Create_runs;
    [|by do 2 apply trouble_free_answered|by repeat constructor].
  cbn [fst snd tables with_tables rows VoteResultsT answered with_faults].
  fold t.
  assert (option_results token
            (tally_votes (filter (fun cv => CastVote.Token cv = token)
                                 (cast_votes t)))
            (StartVote.Options sv)
          = (fun v => {| VoteOptionResult.Key :=
                           token +:+ FormatUint (VoteOption.Bits v) 16;
                         VoteOptionResult.Votes := u64 (votes_for v);
                         VoteOptionResult.Option := v |})
              <$> StartVote.Options sv) as ->; [|done].
  unfold option_results. apply list_fmap_ext. intros i v _. simpl.
  by rewrite tally_votes_count.
Qed.

(** What [newVoteResults] stores, on a store that answers its lookups.
    Without a start vote for the token it fails and creates nothing.  With
    one (the first, if there are several), for a token that has no vote
    result yet, and when it returns no error (the store has accepted the
    new rows), it has appended one vote result for the token: one option
    result per option of the start vote, in their order, keyed token +
    hexadecimal bits and holding the number (as a [uint64]) of cast votes of
    the token whose vote bit is the hexadecimal form of the option's bits;
    cast votes with any other vote bit count for nothing. *)
Theorem newVoteResults_tallies token w :
  trouble_free w ->
  Forall (fun n => n ∈ existing (tables w))
         [tableStartVotes; tableVoteOptions; tableCastVotes; tableVoteResults;
          tableVoteOptionResults] ->
  let t := tables w in
  let votes_for (v : VoteOption.t) :=
    Z.of_nat (length (filter (fun cv => CastVote.VoteBit cv
                                        = FormatUint (VoteOption.Bits v) 16)
                             (filter (fun cv => CastVote.Token cv = token)
                                     (cast_votes t)))) in
  match filter (fun sv => StartVote.Token sv = token) (start_votes t) with
  | [] =>
      (newVoteResults token w).1
      = Some (errorString "lookup start vote: record not found")
      /\ tables (newVoteResults token w).2 = t
  | sv :: _ =>
      let results :=
        (fun v => {| VoteOptionResult.Key :=
                       token +:+ FormatUint (VoteOption.Bits v) 16;
                     VoteOptionResult.Votes := u64 (votes_for v);
                     VoteOptionResult.Option := v |})
          <$> StartVote.Options sv in
      Forall (fun vr => VoteResults.Token vr <> token) (vote_results t) ->
      (newVoteResults token w).1 = None ->
      tables (newVoteResults token w).2
      = with_rows VoteResultsT
          (vote_results t
           ++ [{| VoteResults.Token := token;
                  VoteResults.Approved := vote_approved sv results;
                  VoteResults.Results := results |}])
          t
  end.
Proof.
  intros Hf Hns t votes_for.
  pose proof (newVoteResults_runs token w Hf Hns) as Hrun.
  cbv zeta in Hrun. fold t in Hrun.
  destruct (filter _ (start_votes t)) as [|sv svs]; [done|].
  intros results _ _. apply Hrun.
Qed.

(** ** Materializing, then listing *)

Lemma newVoteResults_ok token w w' :
  newVoteResults token w = (None, w') ->
  exists row,
    VoteResults.Token row = token
    /\ tables w'
       = with_rows VoteResultsT (vote_results (tables w) ++ [row]) (tables w).
Proof.
  unfold newVoteResults, bind, ret, First, Find.
  match goal with
  | |- context [statement ?ns ?fail (fun t => (@?q t, t)) w] =>
      pose proof (reading_tables ns fail q w) as Hw1;
      destruct (statement ns fail (fun t => (q t, t)) w) as [[sv|e] w1]
  end; simpl in Hw1; subst w1.
  2: done.
  match goal with
  | |- context [statement ?ns ?fail (fun t => (@?q t, t)) (answered w)] =>
      pose proof (reading_tables ns fail q (answered w)) as Hw2;
      destruct (statement ns fail (fun t => (q t, t)) (answered w)) as [c w2]
  end; simpl in Hw2; subst w2.
  destruct (or_zero [] c) as [cv|e]; [|done].
  match goal with
  | |- context [Create VoteResultsT ?row ?w0] =>
      destruct (Create VoteResultsT row w0) as [[e|] w3] eqn:Hcr
  end; [done|].
  intros Hw. simplify_eq. apply Create_ok in Hcr as ->.
  eexists. split; [|reflexivity]. reflexivity.
Qed.

(** A loop of [newVoteResults] that ends without an error has given every
    token of the loop a vote result, kept the ones that were there, and
    left the start votes alone. *)
Lemma materialize_all (wrap : string -> error -> error) tokens w w' :
  for_each (fun v => do err <- newVoteResults v; ret (wrap v <$> err))
           tokens w = (None, w') ->
  start_votes (tables w') = start_votes (tables w)
  /\ (forall vr, vr ∈ vote_results (tables w) -> vr ∈ vote_results (tables w'))
  /\ (forall v, v ∈ tokens ->
        exists vr, vr ∈ vote_results (tables w') /\ VoteResults.Token vr = v).
Proof.
  revert w. induction tokens as [|v tokens IH]; intros w Hloop.
  - simpl in Hloop. unfold ret in Hloop. simplify_eq.
    split_and!; [done..|]. intros v Hv. by apply elem_of_nil in Hv.
  - simpl in Hloop. unfold bind at 1 in Hloop. unfold bind at 1 in Hloop.
    unfold ret at 1 in Hloop.
    destruct (newVoteResults v w) as [[e|] w1] eqn:Hv; [done|].
    simpl in Hloop. apply newVoteResults_ok in Hv as (row & Hrow & Hw1).
    destruct (IH _ Hloop) as (Hsv & Hkept & Hall). rewrite Hw1 in Hsv, Hkept.
    cbn [start_votes vote_results with_rows VoteResultsT] in Hsv, Hkept.
    split_and!; [done| |].
    + intros vr Hvr. apply Hkept, elem_of_app. by left.
    + intros v' Hv'. apply elem_of_cons in Hv' as [->|Hv']; [|by apply Hall].
      exists row. split; [|done]. apply Hkept, elem_of_app. right. by left.
Qed.

Section Materialized.

Context `{codec : bitumplugin.Codec}.

(** The token inventory on a store that answers and whose finished votes
    all have their vote results. *)
Lemma cmdTokenInventory_runs payload ti w :
  bitumplugin.DecodeTokenInventory payload = Ok ti ->
  trouble_free w ->
  Forall (fun n => n ∈ existing (tables w))
         [tableStartVotes; tableVoteResults; tableRecords] ->
  finished_without_results (bitumplugin.TokenInventory.BestBlock ti)
    (tables w) = [] ->
  (cmdTokenInventory payload w).1
  = reply_of
      (bitumplugin.EncodeTokenInventoryReply
         {| bitumplugin.TokenInventoryReply.Pre := pre_query (tables w);
            bitumplugin.TokenInventoryReply.Active :=
              active_query (bitumplugin.TokenInventory.BestBlock ti) (tables w);
            bitumplugin.TokenInventoryReply.Approved :=
              results_query true (tables w);
            bitumplugin.TokenInventoryReply.Rejected :=
              results_query false (tables w);
            bitumplugin.TokenInventoryReply.Abandoned :=
              abandoned_query (tables w) |}).
Proof.
  intros Hd Hf Hns Hnone.
  rewrite !Forall_cons in Hns. destruct Hns as (H1 & H2 & H3 & _).
  unfold cmdTokenInventory. rewrite Hd. unfold bind.
  rewrite RawRows_runs; [|done|by repeat constructor]. rewrite Hnone.
  repeat (rewrite RawRows_runs;
          [|by repeat apply trouble_free_answered|by repeat constructor]).
  by destruct (bitumplugin.EncodeTokenInventoryReply _).
Qed.

(** After a load-vote-results command that returned no error, no start
    vote that ends at or before the height of the command is without a vote
    result, and the start votes are the ones that were there.  A
    token-inventory command for that height or a lower one, on a store that
    answers, therefore does not stop at its check for missing vote results:
    it returns the encoded buckets. *)
Theorem load_vote_results_then_token_inventory
    loadPayload lvs inventoryPayload ti w s w' :
  bitumplugin.DecodeLoadVoteResults loadPayload = Ok lvs ->
  bitumplugin.DecodeTokenInventory inventoryPayload = Ok ti ->
  bitumplugin.TokenInventory.BestBlock ti
  <= bitumplugin.LoadVoteResults.BestBlock lvs ->
  cmdLoadVoteResults loadPayload w = ((s, None), w') ->
  trouble_free w' ->
  Forall (fun n => n ∈ existing (tables w'))
         [tableStartVotes; tableVoteResults; tableRecords] ->
  start_votes (tables w') = start_votes (tables w)
  /\ finished_without_results (bitumplugin.TokenInventory.BestBlock ti)
       (tables w') = []
  /\ (cmdTokenInventory inventoryPayload w').1
     = reply_of
         (bitumplugin.EncodeTokenInventoryReply
            {| bitumplugin.TokenInventoryReply.Pre := pre_query (tables w');
               bitumplugin.TokenInventoryReply.Active :=
                 active_query (bitumplugin.TokenInventory.BestBlock ti)
                   (tables w');
               bitumplugin.TokenInventoryReply.Approved :=
                 results_query true (tables w');
               bitumplugin.TokenInventoryReply.Rejected :=
                 results_query false (tables w');
               bitumplugin.TokenInventoryReply.Abandoned :=
                 abandoned_query (tables w') |}).
Proof.
  intros Hload Hinv Hle Hrun Hf Hns.
  assert (start_votes (tables w') = start_votes (tables w)
          /\ finished_without_results
               (bitumplugin.TokenInventory.BestBlock ti) (tables w') = [])
    as [Hsv Hnone].
  { unfold cmdLoadVoteResults in Hrun. rewrite Hload in Hrun.
    unfold bind at 1 in Hrun. unfold RawRows in Hrun.
    match type of Hrun with
    | context [statement ?ns ?fail ?run w] =>
        destruct (statement_cases ns fail run w) as [[e He]|(_ & _ & He)];
          rewrite He in Hrun
    end; [done|].
    cbn [fst snd] in Hrun. rewrite with_tables_answered in Hrun.
    unfold bind at 1 in Hrun.
    destruct (for_each _ _ (answered w)) as [[e|] w1] eqn:Hloop; [done|].
    assert (w1 = w') as ->.
    { destruct (bitumplugin.EncodeLoadVoteResultsReply _);
        unfold ret in Hrun; by simplify_eq. }
    apply materialize_all in Hloop as (Hsv & Hkept & Hall).
    split; [done|].
    destruct (finished_without_results _ (tables w')) as [|token l] eqn:Hq;
      [done|exfalso].
    assert (token ∈ finished_without_results
                      (bitumplugin.TokenInventory.BestBlock ti) (tables w'))
      as Hin by (rewrite Hq; left).
    apply finished_without_results_spec in Hin
      as (sv & Hin & Htoken & Hend & Hnone).
    rewrite Forall_forall in Hnone. rewrite Hsv in Hin.
    destruct (decide (token ∈ finished_without_results
                                (bitumplugin.LoadVoteResults.BestBlock lvs)
                                (tables w))) as [Hsel|Hsel].
    - destruct (Hall _ Hsel) as (vr & Hvr & Hvrt).
      apply (Hnone vr Hvr). congruence.
    - apply Hsel, finished_without_results_spec. exists sv.
      split; [done|]. split; [done|]. split; [lia|].
      apply Forall_forall. intros vr Hvr. by apply Hnone, Hkept. }
  split_and!; [done..|]. by apply cmdTokenInventory_runs.
Qed.

End Materialized.

(** ** Comments: insert, censor, look up *)

Lemma missing_none_inv ns t :
  missing ns t = None -> Forall (fun n => n ∈ existing t) ns.
Proof.
  unfold missing. intros Hm. apply Forall_forall. intros n Hn.
  destruct (decide (n ∈ existing t)) as [|Hne]; [done|exfalso].
  destruct (filter (fun n => n ∉ existing t) ns) as [|m l] eqn:Hfl; [|done].
  eapply (filter_nil_not_elem_of _ _ n); [exact Hfl|exact Hne|exact Hn].
Qed.

Lemma Create_ok_existing {R : Type} (T : Table R) row w w' :
  Create T row w = (None, w') ->
  Forall (fun n => n ∈ existing (tables w)) (uses T).
Proof.
  intros Hc. apply statement_ok in Hc as (_ & Hm & _). by apply missing_none_inv.
Qed.

Lemma filter_censored key (l : list Comment.t) :
  filter (fun old => Comment.Key old = key)
         ((fun r => if decide (key = "" \/ Comment.Key r = key)
                    then censored r else r) <$> l)
  = censored <$> filter (fun old => Comment.Key old = key) l.
Proof.
  induction l as [|r l IH]; [done|]. rewrite fmap_cons.
  destruct (decide (Comment.Key r = key)) as [Hr|Hr].
  - rewrite decide_True by (by right).
    rewrite !filter_cons_True by done. by rewrite fmap_cons, IH.
  - rewrite (filter_cons_False (fun old => Comment.Key old = key) r l)
      by done.
    rewrite filter_cons_False; [done|].
    destruct (decide (key = "" \/ Comment.Key r = key)); exact Hr.
Qed.

Section CommentsRoundTrip.

Context `{codec : bitumplugin.Codec}.

(** What get-comment returns on a store that answers: the encoded first
    comment with the key token + commentID, or the not-found error of the
    cache when no comment has that key. *)
Lemma cmdGetComment_runs payload gc w :
  bitumplugin.DecodeGetComment payload = Ok gc ->
  trouble_free w -> tableComments ∈ existing (tables w) ->
  (cmdGetComment payload w).1
  = match filter (fun c => Comment.Key c
                           = bitumplugin.GetComment.Token gc
                             +:+ bitumplugin.GetComment.CommentID gc)
                 (comments (tables w)) with
    | c :: _ =>
        reply_of (bitumplugin.EncodeGetCommentReply
                    {| bitumplugin.GetCommentReply.Comment :=
                         convertCommentToBitum c |})
    | [] => ("", Some cache_ErrRecordNotFound)
    end.
Proof.
  intros Hd Hf Ht. unfold cmdGetComment. rewrite Hd. unfold bind.
  rewrite First_runs; [|done|by repeat constructor]. cbn [rows Comments].
  destruct (filter _ (comments (tables w))) as [|c l]; [done|].
  by destruct (bitumplugin.EncodeGetCommentReply _).
Qed.

(** New-comment, then get-comment.  The command creates the row [c]; no
    comment has the key of [c] yet, and the get-comment command asks for
    that key.  Before the insert, get-comment answers with the not-found
    error of the cache.  The successful insert returns the reply payload as
    it came, appends [c] to the comments and touches nothing else; after
    it, get-comment returns [c], encoded.  Store answers are assumed for the
    two lookups only. *)
Theorem new_comment_then_get_comment
    cmdPayload replyPayload nc ncr getPayload gc w s w' :
  bitumplugin.DecodeNewComment cmdPayload = Ok nc ->
  bitumplugin.DecodeNewCommentReply replyPayload = Ok ncr ->
  bitumplugin.DecodeGetComment getPayload = Ok gc ->
  let c := convertNewCommentFromBitum nc ncr in
  bitumplugin.GetComment.Token gc +:+ bitumplugin.GetComment.CommentID gc
  = Comment.Key c ->
  Forall (fun old => Comment.Key old <> Comment.Key c) (comments (tables w)) ->
  cmdNewComment cmdPayload replyPayload w = ((s, None), w') ->
  trouble_free w -> trouble_free w' ->
  (cmdGetComment getPayload w).1 = ("", Some cache_ErrRecordNotFound)
  /\ s = replyPayload
  /\ tables w' = with_rows Comments (comments (tables w) ++ [c]) (tables w)
  /\ (cmdGetComment getPayload w').1
     = reply_of (bitumplugin.EncodeGetCommentReply
                   {| bitumplugin.GetCommentReply.Comment :=
                        convertCommentToBitum c |}).
Proof.
  intros Hnc Hncr Hgc c Hkey Hfresh Hrun Hf Hf'.
  unfold cmdNewComment in Hrun. rewrite Hnc, Hncr in Hrun.
  unfold bind, ret, newComment in Hrun. fold c in Hrun.
  destruct (Create Comments c w) as [[e|] w1] eqn:Hcr; [done|].
  simplify_eq. pose proof (Create_ok_existing _ _ _ _ Hcr) as Hex.
  apply Forall_cons in Hex as [Hex _]. apply Create_ok in Hcr as ->.
  assert (filter (fun old => Comment.Key old
                             = bitumplugin.GetComment.Token gc
                               +:+ bitumplugin.GetComment.CommentID gc)
                 (comments (tables w)) = []) as Hnone.
  { rewrite Hkey. clear -Hfresh.
    induction Hfresh as [|old l Hold _ IH]; [done|].
    by rewrite filter_cons_False. }
  split_and!; [|done..|].
  - rewrite (cmdGetComment_runs _ gc) by done. by rewrite Hnone.
  - rewrite (cmdGetComment_runs _ gc) by done.
    cbn [tables with_tables comments with_rows Comments rows].
    rewrite filter_app, Hnone, filter_cons_True by done. done.
Qed.

(** Censor-comment, then get-comment for the same key: when the censor
    command returned no error, get-comment returns the first comment that
    had this key, with its text emptied and its censored flag set, and with
    its other fields as they were. *)
Theorem censor_comment_then_get_comment
    censorPayload replyPayload cc getPayload gc w s w' c rest :
  bitumplugin.DecodeCensorComment censorPayload = Ok cc ->
  bitumplugin.DecodeGetComment getPayload = Ok gc ->
  let key := bitumplugin.CensorComment.Token cc
             +:+ bitumplugin.CensorComment.CommentID cc in
  bitumplugin.GetComment.Token gc +:+ bitumplugin.GetComment.CommentID gc
  = key ->
  filter (fun old => Comment.Key old = key) (comments (tables w)) = c :: rest ->
  cmdCensorComment censorPayload replyPayload w = ((s, None), w') ->
  trouble_free w' ->
  (cmdGetComment getPayload w').1
  = reply_of (bitumplugin.EncodeGetCommentReply
                {| bitumplugin.GetCommentReply.Comment :=
                     convertCommentToBitum (censored c) |})
  /\ Comment.Comment (censored c) = ""
  /\ Comment.Censored (censored c) = true
  /\ Comment.TotalVotes (censored c) = Comment.TotalVotes c
  /\ Comment.ResultVotes (censored c) = Comment.ResultVotes c
  /\ Comment.Timestamp (censored c) = Comment.Timestamp c.
Proof.
  intros Hcc Hgc key Hkey Hfirst Hrun Hf'.
  split_and!; [|done..].
  unfold cmdCensorComment in Hrun. rewrite Hcc in Hrun.
  unfold bind, ret in Hrun. fold key in Hrun.
  destruct (Updates Comments _ _ censored w) as [[e|] w1] eqn:Hup; [done|].
  assert (w1 = w') as -> by congruence. clear Hrun.
  assert (tableComments ∈ existing (tables w)) as Hex.
  { apply statement_ok in Hup as (_ & Hm & _).
    apply missing_none_inv in Hm. by apply Forall_cons in Hm as [? _]. }
  apply Updates_ok in Hup as ->.
  rewrite (cmdGetComment_runs _ gc) by done. rewrite Hkey.
  cbn [tables with_tables comments with_rows Comments rows].
  by rewrite filter_censored, Hfirst.
Qed.

(** The two handlers that only insert a comment or a comment like return
    the reply payload as it came whether or not the insert fails, the
    error of the insert beside it.  With an error no table has changed;
    without one, exactly one row has been appended, to the table of the
    handler.  Nothing keeps the same like from being inserted again: the
    command applied twice leaves two rows. *)
Theorem comment_inserts_echo_reply
    cmdPayload replyPayload nc ncr likePayload likeReply dlc w :
  bitumplugin.DecodeNewComment cmdPayload = Ok nc ->
  bitumplugin.DecodeNewCommentReply replyPayload = Ok ncr ->
  bitumplugin.DecodeLikeComment likePayload = Ok dlc ->
  let r := cmdNewComment cmdPayload replyPayload w in
  let l := cmdLikeComment likePayload likeReply w in
  let l' := cmdLikeComment likePayload likeReply l.2 in
  r.1.1 = replyPayload
  /\ match r.1.2 with
     | Some _ => tables r.2 = tables w
     | None =>
         tables r.2
         = with_rows Comments
             (comments (tables w) ++ [convertNewCommentFromBitum nc ncr])
             (tables w)
     end
  /\ l.1.1 = likeReply
  /\ match l.1.2 with
     | Some _ => tables l.2 = tables w
     | None =>
         tables l.2
         = with_rows CommentLikes
             (comment_likes (tables w) ++ [convertLikeCommentFromBitum dlc])
             (tables w)
     end
  /\ (l.1.2 = None -> l'.1.2 = None ->
      comment_likes (tables l'.2)
      = comment_likes (tables w)
        ++ [convertLikeCommentFromBitum dlc; convertLikeCommentFromBitum dlc]).
Proof.
  intros Hnc Hncr Hdlc r l l'.
  assert (Hlike : forall w0,
             let l0 := cmdLikeComment likePayload likeReply w0 in
             l0.1.1 = likeReply
             /\ match l0.1.2 with
                | Some _ => tables l0.2 = tables w0
                | None =>
                    tables l0.2
                    = with_rows CommentLikes
                        (comment_likes (tables w0)
                         ++ [convertLikeCommentFromBitum dlc])
                        (tables w0)
                end).
  { intros w0. unfold cmdLikeComment. rewrite Hdlc.
    unfold bind, ret, newLikeComment.
    destruct (Create CommentLikes _ w0) as [[e|] w1] eqn:Hcr; simpl.
    + split; [done|]. by apply Create_failed in Hcr as ->.
    + split; [done|]. by apply Create_ok in Hcr as ->. }
  split_and!.
  - unfold r, cmdNewComment. rewrite Hnc, Hncr. unfold bind, ret, newComment.
    by destruct (Create Comments _ w).
  - unfold r, cmdNewComment. rewrite Hnc, Hncr. unfold bind, ret, newComment.
    destruct (Create Comments _ w) as [[e|] w1] eqn:Hcr; simpl.
    + by apply Create_failed in Hcr as ->.
    + by apply Create_ok in Hcr as ->.
  - apply Hlike.
  - apply Hlike.
  - intros Hl Hl'. destruct (Hlike w) as [_ H1]. destruct (Hlike l.2) as [_ H2].
    fold l in H1. fold l' in H2. rewrite Hl in H1. rewrite Hl' in H2.
    rewrite H2, H1. cbn [comment_likes with_rows CommentLikes].
    by rewrite <- app_assoc.
Qed.

End CommentsRoundTrip.

(** ** The version guard and the set-up *)

Lemma CheckVersion_runs w :
  trouble_free w ->
  (CheckVersion w).1
  = if decide (tableVersions ∈ existing (tables w)) then
      match plugin_versions (tables w) with
      | [] => Some cache_ErrNoVersionRecord
      | v :: _ =>
          if decide (Version.Version v = bitumVersion) then None
          else Some cache_ErrWrongVersion
      end
    else Some (errorString "versions table not found").
Proof.
  intros Hf. unfold CheckVersion, bind, ret, HasTable.
  rewrite statement_runs; [|by apply trouble_free_next|done].
  cbn [fst snd]. rewrite with_tables_answered.
  destruct (decide (tableVersions ∈ existing (tables w))) as [Hex|Hex].
  - rewrite bool_decide_eq_true_2 by done.
    rewrite First_runs;
      [|by apply trouble_free_answered|by repeat constructor].
    cbn [rows Versions]. unfold plugin_versions.
    change (tables (answered w)) with (tables w).
    destruct (filter _ (versions (tables w))) as [|v l]; [done|].
    by case_decide.
  - by rewrite bool_decide_eq_false_2.
Qed.

(** [CheckVersion] on a store that answers: no versions table is an
    error, no version record of the plugin is [ErrNoVersionRecord], a first
    record with another version than the plugin's is [ErrWrongVersion], and
    only a first record with the plugin's version passes.  Whatever the
    store answers, these four are the only errors: a lookup that the store
    fails is reported as a wrong version (or as no version record when the
    failure is gorm's not-found), never as the failure itself; and no table
    changes. *)
Theorem CheckVersion_verdict w :
  (trouble_free w ->
   (CheckVersion w).1
   = if decide (tableVersions ∈ existing (tables w)) then
       match plugin_versions (tables w) with
       | [] => Some cache_ErrNoVersionRecord
       | v :: _ =>
           if decide (Version.Version v = bitumVersion) then None
           else Some cache_ErrWrongVersion
       end
     else Some (errorString "versions table not found"))
  /\ (CheckVersion w).1 ∈ [None; Some cache_ErrNoVersionRecord;
                           Some cache_ErrWrongVersion;
                           Some (errorString "versions table not found")]
  /\ tables (CheckVersion w).2 = tables w.
Proof.
  split_and!.
  - apply CheckVersion_runs.
  - unfold CheckVersion, bind, ret.
    destruct (HasTable tableVersions w) as [[|] w1]; [|set_solver].
    destruct (First Versions _ w1) as [[v|e] w2].
    + case_decide; set_solver.
    + destruct e; try case_decide; set_solver.
  - assert (preserves (fun t => t = tables w) CheckVersion) as Hkeep;
      [|by apply Hkeep].
    unfold CheckVersion, HasTable, First. preserve; try done.
    all: by case_decide.
Qed.

Lemma HasTable_runs n w :
  trouble_free w ->
  HasTable n w = (bool_decide (n ∈ existing (tables w)), answered w).
Proof.
  intros Hf. unfold HasTable.
  rewrite statement_runs; [|by apply trouble_free_next|done].
  simpl. by rewrite with_tables_answered.
Qed.

Lemma ensure_table_runs n w :
  trouble_free w ->
  exists w1,
    ensure_table n w = (None, w1) /\ trouble_free w1
    /\ clock w1 = clock w /\ tables w1 = ensured (tables w) n.
Proof.
  intros Hf. unfold ensure_table, bind, ret, ensured.
  rewrite HasTable_runs by done.
  destruct (decide (n ∈ existing (tables w))) as [Hn|Hn].
  - rewrite bool_decide_eq_true_2 by done. exists (answered w).
    split_and!; [done|by apply trouble_free_answered|done..].
  - rewrite bool_decide_eq_false_2 by done. unfold CreateTable.
    rewrite statement_runs;
      [|by apply trouble_free_next, trouble_free_answered|done].
    cbn [tables answered with_faults]. rewrite decide_False by done.
    eexists. split; [reflexivity|].
    split_and!; [|done..]. by do 2 apply trouble_free_answered.
Qed.

Lemma ensure_tables_run ns w :
  trouble_free w ->
  exists w1,
    for_each ensure_table ns w = (None, w1) /\ trouble_free w1
    /\ clock w1 = clock w /\ tables w1 = foldl ensured (tables w) ns.
Proof.
  revert w. induction ns as [|n ns IH]; intros w Hf; [by exists w|].
  destruct (ensure_table_runs n w Hf) as (w1 & Hn & Hf1 & Hc1 & Ht1).
  destruct (IH w1 Hf1) as (w2 & Hns & Hf2 & Hc2 & Ht2).
  exists w2. simpl. unfold bind. rewrite Hn.
  split_and!; [done..|congruence|]. by rewrite Ht2, Ht1.
Qed.

Lemma with_existing_twice e e' t :
  with_existing e (with_existing e' t) = with_existing e t.
Proof. done. Qed.

Lemma with_existing_same t : with_existing (existing t) t = t.
Proof. by destruct t. Qed.

(** Making sure of tables creates the missing ones and changes no row. *)
Lemma ensured_all t ns :
  let t' := foldl ensured t ns in
  (forall n, n ∈ existing t' <-> n ∈ existing t \/ n ∈ ns)
  /\ with_existing (existing t) t' = t.
Proof.
  revert t. induction ns as [|m ns IH]; intros t; simpl.
  - split; [|by destruct t]. intros n. split; [by left|].
    intros [?|Hn]; [done|by apply elem_of_nil in Hn].
  - destruct (IH (ensured t m)) as [Hex Hrows]. split.
    + intros n. rewrite Hex, elem_of_cons. unfold ensured.
      destruct (decide (m ∈ existing t)) as [Hm|Hm]; simpl.
      * split; [tauto|]. intros [?|[->|?]]; tauto.
      * rewrite elem_of_cons. tauto.
    + apply (f_equal (with_existing (existing t))) in Hrows.
      rewrite with_existing_twice in Hrows. rewrite Hrows. unfold ensured.
      destruct (decide (m ∈ existing t)) as [Hm|Hm];
        [|rewrite with_existing_twice]; apply with_existing_same.
Qed.

Lemma createTables_runs w :
  trouble_free w -> tableVersions ∈ existing (tables w) ->
  exists w1,
    createTables w = (None, w1) /\ trouble_free w1
    /\ clock w1 = clock w /\ tables w1 = set_up (clock w) (tables w).
Proof.
  intros Hf Hv. unfold createTables. unfold bind at 1.
  destruct (ensure_tables_run created_tables w Hf)
    as (w1 & -> & Hf1 & Hc1 & Ht1).
  assert (tableVersions ∈ existing (tables w1)) as Hv1.
  { rewrite Ht1. apply ensured_all. by left. }
  unfold bind at 1. rewrite HasTable_runs by done.
  rewrite bool_decide_eq_true_2 by done. unfold bind.
  rewrite First_runs;
    [|by apply trouble_free_answered|by repeat constructor].
  cbn [rows Versions]. change (tables (answered w1)) with (tables w1).
  unfold set_up, plugin_versions. rewrite <- Ht1.
  destruct (filter _ (versions (tables w1))) as [|v l].
  - rewrite Create_runs;
      [|by do 2 apply trouble_free_answered|by repeat constructor].
    eexists. split; [reflexivity|].
    split_and!; [by do 3 apply trouble_free_answered|done|].
    by rewrite <- Hc1.
  - exists (answered (answered w1)).
    split_and!; [done|by do 2 apply trouble_free_answered|done..].
Qed.

Lemma createTables_without_versions w :
  trouble_free w -> tableVersions ∉ existing (tables w) ->
  (createTables w).1 = Some (errorString "versions table not found").
Proof.
  intros Hf Hv. unfold createTables. unfold bind at 1.
  destruct (ensure_tables_run created_tables w Hf)
    as (w1 & -> & Hf1 & Hc1 & Ht1).
  assert (tableVersions ∉ existing (tables w1)) as Hv1.
  { rewrite Ht1. intros Hin. apply ensured_all in Hin as [?|Hin]; [done|].
    revert Hin. by compute_done. }
  unfold bind. rewrite HasTable_runs by done.
  by rewrite bool_decide_eq_false_2.
Qed.

Lemma Commit_runs db tx :
  trouble_free tx ->
  Commit db tx = (None, with_tables (tables tx) (with_faults (tail (faults tx)) db)).
Proof.
  unfold trouble_free, Commit. destruct (faults tx) as [|[e|] fs]; try done.
  intros Hf. by apply Forall_cons in Hf as [? _].
Qed.

Lemma set_up_spec now t :
  let t' := set_up now t in
  (forall n, n ∈ existing t' <-> n ∈ existing t \/ n ∈ created_tables)
  /\ with_existing (existing t) (with_rows Versions (versions t) t') = t
  /\ versions t'
     = match plugin_versions t with
       | [] => versions t ++ [version_record now]
       | _ :: _ => versions t
       end.
Proof.
  destruct (ensured_all t created_tables) as [Hex Hrows].
  assert (versions (foldl ensured t created_tables) = versions t) as Hv
    by (by rewrite <- Hrows at 2).
  unfold set_up, plugin_versions. cbv zeta. rewrite Hv.
  destruct (filter _ (versions t)) as [|v l]; (split; [done|]).
  - split; [|done]. clear Hex. revert Hrows Hv.
    generalize (foldl ensured t created_tables). intros t'.
    destruct t', t. cbn. by intros Hrows <-.
  - split; [|done]. clear Hex. revert Hrows Hv.
    generalize (foldl ensured t created_tables). intros t'.
    destruct t', t. cbn. by intros Hrows <-.
Qed.

Lemma Setup_runs w :
  trouble_free w -> tableVersions ∈ existing (tables w) ->
  exists w',
    Setup w = (None, w') /\ trouble_free w'
    /\ clock w' = clock w /\ tables w' = set_up (clock w) (tables w).
Proof.
  intros Hf Hv. unfold Setup, bind, transaction, Begin.
  destruct (createTables_runs w Hf Hv) as (tx & -> & Hf1 & Hc1 & Ht1).
  rewrite Commit_runs by done. eexists. split; [reflexivity|].
  split_and!; [|done|done].
  unfold trouble_free in *. cbn [faults with_tables with_faults].
  by apply Forall_tail.
Qed.

Lemma ensured_present t ns :
  (forall n, n ∈ ns -> n ∈ existing t) -> foldl ensured t ns = t.
Proof.
  induction ns as [|m ns IH]; intros Hns; [done|]. simpl.
  unfold ensured at 2. rewrite decide_True by (apply Hns; by left).
  apply IH. intros n Hn. apply Hns. by right.
Qed.

Lemma set_up_again now now' t : set_up now' (set_up now t) = set_up now t.
Proof.
  destruct (set_up_spec now t) as (Hex & _ & Hv).
  unfold set_up at 1.
  rewrite ensured_present by (intros n Hn; apply Hex; by right).
  unfold plugin_versions at 1. rewrite Hv. unfold plugin_versions.
  destruct (filter _ (versions t)) as [|v l] eqn:Hfl; [|by rewrite Hfl].
  by rewrite filter_app, Hfl, filter_cons_True.
Qed.

(** [Setup] on a store that answers and has a versions table returns
    [nil]; afterwards exactly the tables of before and the eight tables of
    the plugin exist, every row of before is still there, and the plugin has
    a version record: the one it had, or a new one with the version of the
    plugin and the time of the call, added after the records of the other
    plugins.  A second [Setup] changes nothing. *)
Theorem Setup_creates_tables_and_version w :
  trouble_free w -> tableVersions ∈ existing (tables w) ->
  let t := tables w in
  let t' := tables (Setup w).2 in
  (Setup w).1 = None
  /\ (forall n, n ∈ existing t' <-> n ∈ existing t \/ n ∈ created_tables)
  /\ with_existing (existing t) (with_rows Versions (versions t) t') = t
  /\ versions t'
     = match plugin_versions t with
       | [] => versions t ++ [version_record (clock w)]
       | _ :: _ => versions t
       end
  /\ (Setup (Setup w).2).1 = None
  /\ tables (Setup (Setup w).2).2 = t'.
Proof.
  intros Hf Hv t t'. subst t t'.
  destruct (Setup_runs w Hf Hv) as (w1 & Hrun & Hf1 & Hc1 & Ht1).
  rewrite Hrun. cbn [fst snd]. rewrite Ht1.
  destruct (set_up_spec (clock w) (tables w)) as (Hex & Hrows & Hvs).
  assert (tableVersions ∈ existing (tables w1)) as Hv1
    by (rewrite Ht1; apply Hex; by left).
  destruct (Setup_runs w1 Hf1 Hv1) as (w2 & -> & _ & _ & Ht2).
  split_and!; [done..|]. cbn [snd]. by rewrite Ht2, Ht1, set_up_again.
Qed.

(** After a [Setup] that found no version record of the plugin,
    [CheckVersion] passes; a record that was there is left as it is, so a
    record of another version still fails the check after [Setup]. *)
Theorem Setup_then_CheckVersion w :
  trouble_free w -> tableVersions ∈ existing (tables w) ->
  (CheckVersion (Setup w).2).1
  = match plugin_versions (tables w) with
    | [] => None
    | v :: _ =>
        if decide (Version.Version v = bitumVersion) then None
        else Some cache_ErrWrongVersion
    end.
Proof.
  intros Hf Hv.
  destruct (Setup_runs w Hf Hv) as (w1 & Hrun & Hf1 & Hc1 & Ht1).
  rewrite Hrun. cbn [snd].
  rewrite CheckVersion_runs by done.
  destruct (set_up_spec (clock w) (tables w)) as (Hex & _ & Hvs).
  rewrite Ht1, decide_True by (apply Hex; by left).
  unfold plugin_versions at 1. rewrite Hvs. unfold plugin_versions.
  destruct (filter _ (versions (tables w))) as [|v l] eqn:Hfl;
    [|by rewrite Hfl].
  by rewrite filter_app, Hfl, filter_cons_True.
Qed.

(** Without a versions table [Setup] fails, and the tables it had created
    on the way are rolled back: the store is as before. *)
Theorem Setup_without_versions_table w :
  trouble_free w -> tableVersions ∉ existing (tables w) ->
  (Setup w).1 = Some (errorString "versions table not found")
  /\ tables (Setup w).2 = tables w.
Proof.
  intros Hf Hv. pose proof (createTables_without_versions w Hf Hv) as Herr.
  unfold Setup, bind, transaction, Begin.
  destruct (createTables w) as [[e|] tx]; simpl in Herr; [|done].
  by simplify_eq.
Qed.

(** ** The vote summary *)

Lemma append_inj_length (a b c d : string) :
  String.length a = String.length c -> a +:+ b = c +:+ d -> a = c /\ b = d.
Proof.
  revert c. induction a as [|x a IH]; intros [|y c] Hlen Heq; try done.
  simpl in *. injection Heq as -> Heq. injection Hlen as Hlen.
  destruct (IH c Hlen Heq) as [-> ->]. done.
Qed.

Lemma count_votes_runs options acc w :
  trouble_free w -> tableCastVotes ∈ existing (tables w) ->
  exists w1,
    count_votes options acc w
    = (Ok (acc ++ counted_by_hand (tables w) options), w1)
    /\ trouble_free w1 /\ tables w1 = tables w.
Proof.
  revert acc w. induction options as [|v options IH]; intros acc w Hf Hex.
  - exists w. unfold counted_by_hand. simpl. by rewrite app_nil_r.
  - simpl. unfold bind. rewrite CountRows_runs by (by repeat constructor).
    destruct (IH (acc ++ [{|
                bitumplugin.VoteOptionResult.ID := VoteOption.ID v;
                bitumplugin.VoteOptionResult.Description :=
                  VoteOption.Description v;
                bitumplugin.VoteOptionResult.Bits := VoteOption.Bits v;
                bitumplugin.VoteOptionResult.Votes :=
                  Z.of_nat
                    (length
                       (filter
                          (fun cv => CastVote.TokenVoteBit cv
                                     = VoteOption.Token v
                                       +:+ FormatUint (VoteOption.Bits v) 16)
                          (rows CastVotes (tables w)))) |}])
                (answered w))
      as (w1 & Hrun & Hf1 & Ht1); [by apply trouble_free_answered|done|].
    exists w1. rewrite Hrun. split; [|done].
    by rewrite <- app_assoc.
Qed.

Lemma filter_token_vote_bit token bit (l : list CastVote.t) :
  Forall (well_formed_cast_vote token) l ->
  filter (fun cv => CastVote.VoteBit cv = bit)
         (filter (fun cv => CastVote.Token cv = token) l)
  = filter (fun cv => CastVote.TokenVoteBit cv = token +:+ bit) l.
Proof.
  induction 1 as [|cv l [Hkey Hlen] _ IH]; [done|].
  destruct (decide (CastVote.Token cv = token)) as [Ht|Ht].
  - rewrite (filter_cons_True (fun cv => CastVote.Token cv = token)) by done.
    destruct (decide (CastVote.VoteBit cv = bit)) as [Hb|Hb].
    + rewrite !filter_cons_True; [by rewrite IH| |done].
      by rewrite Hkey, Ht, Hb.
    + rewrite !filter_cons_False; [done| |done].
      rewrite Hkey, Ht. intros Heq.
      by apply append_inj_length in Heq as [_ ?].
  - rewrite (filter_cons_False (fun cv => CastVote.Token cv = token)) by done.
    rewrite filter_cons_False; [done|]. rewrite Hkey. intros Heq.
    by apply append_inj_length in Heq as [? _].
Qed.

Lemma statement_trouble_free {A : Type} ns (fail : error -> A) run w :
  trouble_free w -> trouble_free (statement ns fail run w).2.
Proof.
  intros Hf.
  destruct (statement_cases ns fail run w) as [[e ->]|(_ & _ & ->)];
    by apply trouble_free_answered.
Qed.

Lemma newVoteResults_trouble_free token w :
  trouble_free w -> trouble_free (newVoteResults token w).2.
Proof.
  intros Hf. unfold newVoteResults, bind, ret, First, Find, Create.
  repeat match goal with
  | |- context [statement ?ns ?fail ?run ?w0] =>
      let H := fresh "Hf" in
      assert (trouble_free (statement ns fail run w0).2) as H
        by (by apply statement_trouble_free);
      destruct (statement ns fail run w0) as [? ?]; cbn [snd] in H
  | |- context [match ?x with _ => _ end] => destruct x; cbn [or_zero]
  end; done.
Qed.

Section Summary.

Context `{codec : bitumplugin.Codec}.

Lemma sendReply_pure av sv results w w' :
  (sendReply av sv results w).1 = (sendReply av sv results w').1.
Proof.
  unfold sendReply. by destruct (bitumplugin.EncodeVoteSummaryReply _).
Qed.

(** What the vote summary is made of, on a store that answers. *)
Lemma cmdVoteSummary_runs payload vs w :
  bitumplugin.DecodeVoteSummary payload = Ok vs ->
  trouble_free w ->
  Forall (fun n => n ∈ existing (tables w))
         [tableRecords; tableAuthorizeVotes; tableStartVotes;
          tableVoteOptions; tableVoteResults; tableVoteOptionResults;
          tableCastVotes] ->
  let t := tables w in
  let token := bitumplugin.VoteSummary.Token vs in
  (cmdVoteSummary payload w).1
  = match merge_sort version_desc
            (filter (fun r => RecordRow.Token r = token) (records t)) with
    | [] => ("", Some cache_ErrRecordNotFound)
    | r :: _ =>
        match filter (fun av => AuthorizeVote.Key av
                                = token +:+ FormatUint (RecordRow.Version r) 10)
                     (authorize_votes t) with
        | [] => (sendReply AuthorizeVote.zero StartVote.zero [] w).1
        | av :: _ =>
            match filter (fun sv => StartVote.Token sv = token)
                         (start_votes t) with
            | [] => (sendReply av StartVote.zero [] w).1
            | sv :: _ =>
                match filter (fun vr => VoteResults.Token vr = token)
                             (vote_results t) with
                | vr :: _ =>
                    (sendReply av sv
                       (convertVoteOptionResultsToBitum
                          (VoteResults.Results vr)) w).1
                | [] =>
                    (sendReply av sv
                       (counted_by_hand t (StartVote.Options sv)) w).1
                end
            end
        end
    end.
Proof.
  intros Hd Hf Hns t token.
  rewrite !Forall_cons in Hns.
  destruct Hns as (H1 & H2 & H3 & H4 & H5 & H6 & H7 & _).
  unfold cmdVoteSummary. rewrite Hd. fold token.
  unfold bind at 1. unfold latest_record.
  rewrite FirstOrdered_runs; [|done|by repeat constructor].
  cbn [rows Records]. fold t.
  destruct (merge_sort _ _) as [|r rs]; [done|]. cbn [to_cache_error].
  unfold bind at 1.
  rewrite First_runs; [|by apply trouble_free_answered|by repeat constructor].
  cbn [rows AuthorizeVotes]. change (tables (answered w)) with t.
  destruct (filter _ (authorize_votes t)) as [|av avs];
    [by apply sendReply_pure|].
  unfold bind at 1.
  rewrite First_runs;
    [|by do 2 apply trouble_free_answered|by repeat constructor].
  cbn [rows StartVotes]. change (tables (answered (answered w))) with t.
  destruct (filter _ (start_votes t)) as [|sv svs];
    [by apply sendReply_pure|].
  unfold bind at 1.
  rewrite First_runs;
    [|by do 3 apply trouble_free_answered|by repeat constructor].
  cbn [rows VoteResultsT].
  change (tables (answered (answered (answered w)))) with t.
  destruct (filter _ (vote_results t)) as [|vr vrs];
    [|by apply sendReply_pure].
  unfold bind.
  destruct (count_votes_runs (StartVote.Options sv) []
              (answered (answered (answered (answered w)))))
    as (w1 & -> & _ & _); [by do 4 apply trouble_free_answered|done|].
  apply sendReply_pure.
Qed.

(** A vote summary asked for before the vote results of the token are
    stored, and the summary asked for after [newVoteResults] has stored
    them, are the same reply: the counts that [cmdVoteSummary] makes by hand
    over the [token_vote_bit] column are the tally that [newVoteResults]
    stores.  This holds on a store that answers, for cast votes whose
    [token_vote_bit] is their token followed by their vote bit (tokens being
    of one length), options that carry the token of their start vote, and
    fewer than 2^64 cast votes. *)
Theorem vote_summary_same_once_results_are_stored payload vs w :
  bitumplugin.DecodeVoteSummary payload = Ok vs ->
  let token := bitumplugin.VoteSummary.Token vs in
  let t := tables w in
  trouble_free w ->
  Forall (fun n => n ∈ existing t)
         [tableRecords; tableAuthorizeVotes; tableStartVotes;
          tableVoteOptions; tableVoteResults; tableVoteOptionResults;
          tableCastVotes] ->
  filter (fun vr => VoteResults.Token vr = token) (vote_results t) = [] ->
  Forall (well_formed_cast_vote token) (cast_votes t) ->
  Forall (fun sv => StartVote.Token sv = token ->
                    Forall (fun v => VoteOption.Token v = token)
                           (StartVote.Options sv))
         (start_votes t) ->
  Z.of_nat (length (cast_votes t)) < 2 ^ 64 ->
  (cmdVoteSummary payload (newVoteResults token w).2).1
  = (cmdVoteSummary payload w).1.
Proof.
  intros Hd token t Hf Hns Hnone Hcast Hopts Hfew.
  pose proof (newVoteResults_trouble_free token w Hf) as Hf'.
  assert (Forall (fun n => n ∈ existing t)
            [tableStartVotes; tableVoteOptions; tableCastVotes;
             tableVoteResults; tableVoteOptionResults]) as Hns5.
  { rewrite !Forall_cons in Hns.
    destruct Hns as (H1 & H2 & H3 & H4 & H5 & H6 & H7 & _).
    by repeat constructor. }
  pose proof (newVoteResults_runs token w Hf Hns5) as Hrun.
  cbv zeta in Hrun. fold t in Hrun.
  rewrite (cmdVoteSummary_runs payload vs w Hd Hf Hns).
  destruct (filter (fun sv => StartVote.Token sv = token) (start_votes t))
    as [|sv svs] eqn:Hsv.
  - destruct Hrun as [_ Ht].
    rewrite (cmdVoteSummary_runs payload vs _ Hd Hf') by (by rewrite Ht).
    cbv zeta. rewrite Ht. fold t token. rewrite Hsv.
    repeat case_match; try done; apply sendReply_pure.
  - destruct Hrun as [_ Ht].
    rewrite (cmdVoteSummary_runs payload vs _ Hd Hf') by (by rewrite Ht).
    cbv zeta. rewrite Ht. fold token.
    cbn [records authorize_votes start_votes vote_results with_rows
         VoteResultsT].
    fold t. rewrite Hsv, filter_app, Hnone, filter_cons_True by done.
    cbn [app filter list_filter VoteResults.Results]. fold token.
    destruct (merge_sort _ _) as [|r rs]; [done|].
    destruct (filter _ (authorize_votes t)) as [|av avs];
      [by apply sendReply_pure|].
    replace (convertVoteOptionResultsToBitum _)
      with (counted_by_hand t (StartVote.Options sv));
      [by apply sendReply_pure|].
    assert (sv ∈ start_votes t) as Hin.
    { assert (sv ∈ filter (fun sv => StartVote.Token sv = token)
                          (start_votes t)) as Hin by (rewrite Hsv; left).
      by apply list_elem_of_filter in Hin as [_ ?]. }
    assert (StartVote.Token sv = token) as Htoken.
    { assert (sv ∈ filter (fun sv => StartVote.Token sv = token)
                          (start_votes t)) as Hin' by (rewrite Hsv; left).
      by apply list_elem_of_filter in Hin' as [? _]. }
    rewrite Forall_forall in Hopts. specialize (Hopts sv Hin Htoken).
    unfold counted_by_hand, convertVoteOptionResultsToBitum.
    rewrite <- list_fmap_compose. apply Forall_fmap_ext_1.
    eapply Forall_impl; [exact Hopts|]. intros v Hv. simpl.
    unfold convertVoteOptionResultToBitum. simpl. f_equal.
    rewrite Hv, (filter_token_vote_bit token) by done.
    unfold u64. rewrite Z.mod_small; [done|].
    split; [lia|]. eapply Z.le_lt_trans; [|exact Hfew].
    apply inj_le. apply length_filter.
Qed.

End Summary.

(** ** Votes: cast, start, look up *)

Section VotesRoundTrip.

Context `{codec : bitumplugin.Codec}.



Lemma cmdVoteDetails_runs payload vd w :
  bitumplugin.DecodeVoteDetails payload = Ok vd ->
  trouble_free w ->
  Forall (fun n => n ∈ existing (tables w))
         [tableRecords; tableAuthorizeVotes; tableStartVotes;
          tableVoteOptions] ->
  let t := tables w in
  let token := bitumplugin.VoteDetails.Token vd in
  (cmdVoteDetails payload w).1
  = match merge_sort version_desc
            (filter (fun r => RecordRow.Token r = token) (records t)) with
    | [] => ("", Some cache_ErrRecordNotFound)
    | r :: _ =>
        let av :=
          default AuthorizeVote.zero
            (head (filter
                     (fun av => AuthorizeVote.Key av
                                = token +:+ FormatUint (RecordRow.Version r) 10)
                     (authorize_votes t))) in
        let sv :=
          default StartVote.zero
            (head (filter (fun sv => StartVote.Token sv = token)
                          (start_votes t))) in
        reply_of
          (bitumplugin.EncodeVoteDetailsReply
             {| bitumplugin.VoteDetailsReply.AuthorizeVote :=
                  convertAuthorizeVoteToBitum av;
                bitumplugin.VoteDetailsReply.StartVote :=
                  (convertStartVoteToBitum sv).1;
                bitumplugin.VoteDetailsReply.StartVoteReply :=
                  (convertStartVoteToBitum sv).2 |})
    end.
Proof.
  intros Hd Hf Hns t token. rewrite !Forall_cons in Hns.
  destruct Hns as (H1 & H2 & H3 & H4 & _).
  unfold cmdVoteDetails. rewrite Hd. fold token.
  unfold bind at 1. unfold latest_record.
  rewrite FirstOrdered_runs; [|done|by repeat constructor].
  cbn [rows Records]. fold t.
  destruct (merge_sort _ _) as [|r rs]; [done|]. cbn [to_cache_error].
  unfold bind.
  rewrite First_runs; [|by apply trouble_free_answered|by repeat constructor].
  cbn [rows AuthorizeVotes]. change (tables (answered w)) with t. cbv zeta.
  destruct (filter _ (authorize_votes t)) as [|av avs];
    cbn [or_zero head default];
    (rewrite First_runs;
       [|by do 2 apply trouble_free_answered|by repeat constructor]);
    cbn [rows StartVotes]; change (tables (answered (answered w))) with t;
    destruct (filter _ (start_votes t)) as [|sv svs];
    cbn [or_zero head default];
    destruct (convertStartVoteToBitum _) as [dsv dsvr]; cbn [fst snd];
    by destruct (bitumplugin.EncodeVoteDetailsReply _).
Qed.

(** A start vote, then the vote details.  When the start-vote command
    returns no error, the end height of its reply was a number, the reply
    payload is returned as it came and exactly the converted start vote is
    appended.  If the token had no start vote before, the vote-details
    command for the token then returns this start vote and its reply data,
    beside the first authorize vote of the latest version of the record (a
    blank one if there is none), or the not-found error of the cache when
    the token has no record. *)
Theorem start_vote_then_vote_details
    cmdPayload replyPayload sv svr detailsPayload vd w s w' :
  bitumplugin.DecodeStartVote cmdPayload = Ok sv ->
  bitumplugin.DecodeStartVoteReply replyPayload = Ok svr ->
  bitumplugin.DecodeVoteDetails detailsPayload = Ok vd ->
  let token := bitumplugin.VoteDetails.Token vd in
  bitumplugin.Vote.Token (bitumplugin.StartVote.Vote sv) = token ->
  Forall (fun old => StartVote.Token old <> token) (start_votes (tables w)) ->
  cmdStartVote cmdPayload replyPayload w = ((s, None), w') ->
  trouble_free w' ->
  Forall (fun n => n ∈ existing (tables w'))
         [tableRecords; tableAuthorizeVotes; tableStartVotes;
          tableVoteOptions] ->
  exists endHeight,
    ParseUint (bitumplugin.StartVoteReply.EndHeight svr) = Ok endHeight
    /\ s = replyPayload
    /\ let started := convertStartVoteFromBitum sv svr endHeight in
       tables w'
       = with_rows StartVotes (start_votes (tables w) ++ [started]) (tables w)
       /\ (cmdVoteDetails detailsPayload w').1
          = match merge_sort version_desc
                    (filter (fun r => RecordRow.Token r = token)
                            (records (tables w))) with
            | [] => ("", Some cache_ErrRecordNotFound)
            | r :: _ =>
                let av :=
                  default AuthorizeVote.zero
                    (head (filter
                             (fun av =>
                                AuthorizeVote.Key av
                                = token +:+ FormatUint (RecordRow.Version r) 10)
                             (authorize_votes (tables w)))) in
                reply_of
                  (bitumplugin.EncodeVoteDetailsReply
                     {| bitumplugin.VoteDetailsReply.AuthorizeVote :=
                          convertAuthorizeVoteToBitum av;
                        bitumplugin.VoteDetailsReply.StartVote :=
                          (convertStartVoteToBitum started).1;
                        bitumplugin.VoteDetailsReply.StartVoteReply :=
                          (convertStartVoteToBitum started).2 |})
            end.
Proof.
  intros Hsv Hsvr Hvd token Htoken Hfresh Hrun Hf' Hns.
  unfold cmdStartVote in Hrun. rewrite Hsv, Hsvr in Hrun.
  destruct (ParseUint _) as [endHeight|e] eqn:Hparse; [|done].
  exists endHeight. split; [done|].
  unfold bind, ret, newStartVote in Hrun.
  destruct (Create StartVotes _ w) as [[e|] w1] eqn:Hcr; [done|].
  assert (s = replyPayload /\ w1 = w') as [-> ->] by (by simplify_eq).
  apply Create_ok in Hcr. split; [done|]. cbv zeta.
  assert (tables w'
          = with_rows StartVotes
              (start_votes (tables w)
               ++ [convertStartVoteFromBitum sv svr endHeight]) (tables w))
    as Ht by (by rewrite Hcr).
  split; [done|].
  rewrite (cmdVoteDetails_runs detailsPayload vd w' Hvd Hf' Hns).
  cbv zeta. fold token. rewrite Ht.
  cbn [records authorize_votes start_votes with_rows StartVotes].
  destruct (merge_sort _ _) as [|r rs]; [done|].
  rewrite filter_app.
  replace (filter (fun sv => StartVote.Token sv = token)
                  (start_votes (tables w))) with (@nil StartVote.t).
  - by rewrite filter_cons_True by done.
  - symmetry. clear -Hfresh.
    induction Hfresh as [|old l Hold _ IH]; [done|].
    by rewrite filter_cons_False.
Qed.

End VotesRoundTrip.

(** ** A rebuild that goes through *)

Lemma transaction_runs body w tx :
  body (Begin w) = (None, tx) -> trouble_free tx ->
  exists w',
    transaction body w = (Committed, w') /\ trouble_free w'
    /\ clock w' = clock w /\ tables w' = tables tx.
Proof.
  intros Hbody Hf. unfold transaction. rewrite Hbody.
  rewrite Commit_runs by done. eexists. split; [reflexivity|].
  split_and!; [|done..]. unfold trouble_free in *.
  cbn [faults with_tables with_faults]. by apply Forall_tail.
Qed.

Lemma dropTables_runs w :
  trouble_free w -> tableVersions ∈ existing (tables w) ->
  exists w1,
    dropTables w = (None, w1) /\ trouble_free w1 /\ clock w1 = clock w
    /\ tables w1
       = with_rows Versions
           (filter (fun v => ~ Version.ID v = bitumplugin.ID)
                   (versions (tables w)))
           (dropped dropped_tables (tables w)).
Proof.
  intros Hf Hv. unfold dropTables, bind, DropTableIfExists.
  rewrite statement_runs; [|by apply trouble_free_next|done].
  cbn [fst snd]. unfold delete_version, Delete.
  rewrite statement_runs.
  - eexists. split; [reflexivity|]. split_and!; [|done..].
    by do 2 apply trouble_free_answered.
  - by apply trouble_free_next, trouble_free_answered.
  - apply missing_none. repeat constructor.
    cbn [tables with_tables existing dropped].
    apply list_elem_of_filter. split; [by compute_done|done].
Qed.

(** A loop over [l] on a store that answers, when every body goes through:
    [P] holds of the part of [l] gone through and of the tables. *)
Lemma for_each_runs {A : Type} (body : A -> M (option error))
    (P : list A -> Tables -> Prop) l w :
  (forall pre a w0,
     a ∈ l -> trouble_free w0 -> P pre (tables w0) ->
     exists w1, body a w0 = (None, w1) /\ trouble_free w1
                /\ P (pre ++ [a]) (tables w1)) ->
  trouble_free w -> P [] (tables w) ->
  exists w', for_each body l w = (None, w') /\ trouble_free w'
             /\ P l (tables w').
Proof.
  intros Hbody. assert (forall pre w, (forall a, a ∈ l -> True) ->
    trouble_free w -> P pre (tables w) ->
    forall rest, (forall a, a ∈ rest -> a ∈ l) ->
    exists w', for_each body rest w = (None, w') /\ trouble_free w'
               /\ P (pre ++ rest) (tables w')) as Hgen.
  { intros pre w0 _ Hf HP rest. revert pre w0 Hf HP.
    induction rest as [|a rest IH]; intros pre w0 Hf HP Hin.
    - exists w0. by rewrite app_nil_r.
    - destruct (Hbody pre a w0) as (w1 & Ha & Hf1 & HP1);
        [apply Hin; by left|done..|].
      destruct (IH (pre ++ [a]) w1 Hf1 HP1) as (w2 & Hrest & Hf2 & HP2).
      { intros b Hb. apply Hin. by right. }
      exists w2. simpl. unfold bind. rewrite Ha.
      split; [done|]. split; [done|]. by rewrite <- app_assoc in HP2. }
  intros Hf HP. by apply (Hgen [] w).
Qed.

Section RebuildRuns.

Context `{codec : bitumplugin.Codec}.

(** The replay of an inventory on a store that answers, in the store
    model, where every insert goes through. *)
Lemma replay_runs ir w :
  trouble_free w -> replayable ir ->
  Forall (fun n => n ∈ existing (tables w)) created_tables ->
  let t := tables w in
  exists w',
    replay ir w = (None, w') /\ trouble_free w'
    /\ existing (tables w') = existing t
    /\ records (tables w') = records t
    /\ versions (tables w') = versions t
    /\ vote_results (tables w') = vote_results t
    /\ comments (tables w')
       = comments t
         ++ (convertCommentFromBitum <$> bitumplugin.InventoryReply.Comments ir)
    /\ comment_likes (tables w')
       = comment_likes t
         ++ (convertLikeCommentFromBitum
               <$> bitumplugin.InventoryReply.LikeComments ir)
    /\ authorize_votes (tables w')
       = foldl replaced (authorize_votes t)
           (omap (inventory_authorize_vote ir)
                 (bitumplugin.InventoryReply.AuthorizeVotes ir))
    /\ start_votes (tables w')
       = start_votes t
         ++ omap inventory_start_vote
              (bitumplugin.InventoryReply.StartVoteTuples ir)
    /\ cast_votes (tables w')
       = cast_votes t
         ++ (convertCastVoteFromBitum
               <$> bitumplugin.InventoryReply.CastVotes ir).
Proof.
  intros Hf [Hav Hsv] Hns t. subst t.
  unfold created_tables in Hns. rewrite !Forall_cons in Hns.
  destruct Hns as (H1 & H2 & H3 & H4 & H5 & H6 & H7 & H8 & _).
  unfold replay.
  (* comments *)
  unfold bind at 1.
  destruct (for_each_runs
              (fun v => do err <- newComment (convertCommentFromBitum v);
                        ret (Errorf "newComment: " <$> err))
              (fun pre t1 =>
                 t1 = with_rows Comments
                        (comments (tables w) ++ (convertCommentFromBitum <$> pre))
                        (tables w))
              (bitumplugin.InventoryReply.Comments ir) w)
    as (w1 & -> & Hf1 & Ht1); [|done|by cbn [fmap list_fmap]; rewrite app_nil_r; destruct (tables w)|].
  { intros pre a w0 _ Hf0 Ht0. unfold bind, newComment.
    rewrite Create_runs; [|done|by rewrite Ht0; repeat constructor].
    eexists. split; [reflexivity|].
    split; [by apply trouble_free_answered|].
    cbn [tables with_tables]. rewrite Ht0.
    cbn [rows with_rows Comments comments].
    by rewrite fmap_app, app_assoc. }
  (* comment likes *)
  unfold bind at 1.
  destruct (for_each_runs
              (fun v => do err <- newLikeComment (convertLikeCommentFromBitum v);
                        ret (Errorf "newLikeComment: " <$> err))
              (fun pre t2 =>
                 t2 = with_rows CommentLikes
                        (comment_likes (tables w1)
                         ++ (convertLikeCommentFromBitum <$> pre)) (tables w1))
              (bitumplugin.InventoryReply.LikeComments ir) w1)
    as (w2 & -> & Hf2 & Ht2);
    [|done|by cbn [fmap list_fmap]; rewrite app_nil_r; destruct (tables w1)|].
  { intros pre a w0 _ Hf0 Ht0. unfold bind, newLikeComment.
    rewrite Create_runs;
      [|done|by rewrite Ht0, Ht1; repeat constructor].
    eexists. split; [reflexivity|].
    split; [by apply trouble_free_answered|].
    cbn [tables with_tables]. rewrite Ht0.
    cbn [rows with_rows CommentLikes comment_likes].
    by rewrite fmap_app, app_assoc. }
  (* authorize votes *)
  cbv zeta. unfold bind at 1.
  destruct (for_each_runs
              (build_authorize_vote
                 (replies_by_receipt
                    (bitumplugin.InventoryReply.AuthorizeVoteReplies ir)))
              (fun pre t3 =>
                 t3 = with_rows AuthorizeVotes
                        (foldl replaced (authorize_votes (tables w2))
                           (omap (inventory_authorize_vote ir) pre))
                        (tables w2))
              (bitumplugin.InventoryReply.AuthorizeVotes ir) w2)
    as (w3 & -> & Hf3 & Ht3); [|done|by destruct (tables w2)|].
  { intros pre a w0 Ha Hf0 Ht0. rewrite Forall_forall in Hav.
    destruct (Hav a Ha) as [av Hrow]. rewrite omap_app, foldl_app.
    cbn [omap list_omap]. rewrite Hrow. cbn [foldl].
    unfold inventory_authorize_vote in Hrow. unfold build_authorize_vote.
    destruct (replies_by_receipt _ !! _) as [r|]; [|done].
    destruct (ParseUint _) as [rv|e]; [|done]. simplify_eq.
    unfold bind, newAuthorizeVote, bind, Delete.
    rewrite statement_runs;
      [|by apply trouble_free_next
       |by apply missing_none; rewrite Ht0, Ht2, Ht1; repeat constructor].
    cbn [fst snd]. rewrite Create_runs;
      [|by apply trouble_free_answered
       |by cbn [tables with_tables]; rewrite Ht0, Ht2, Ht1;
           repeat constructor].
    eexists. split; [reflexivity|].
    split; [by do 2 apply trouble_free_answered|].
    cbn [tables with_tables]. rewrite Ht0.
    cbn [rows with_rows AuthorizeVotes authorize_votes]. done. }
  (* start votes *)
  unfold bind at 1.
  destruct (for_each_runs build_start_vote
              (fun pre t4 =>
                 t4 = with_rows StartVotes
                        (start_votes (tables w3)
                         ++ omap inventory_start_vote pre) (tables w3))
              (bitumplugin.InventoryReply.StartVoteTuples ir) w3)
    as (w4 & -> & Hf4 & Ht4);
    [|done|by cbn [omap list_omap]; rewrite app_nil_r; destruct (tables w3)|].
  { intros pre a w0 Ha Hf0 Ht0. rewrite Forall_forall in Hsv.
    destruct (Hsv a Ha) as [sv Hrow]. rewrite omap_app.
    cbn [omap list_omap]. rewrite Hrow.
    unfold inventory_start_vote in Hrow. unfold build_start_vote.
    cbv zeta in *. destruct (ParseUint _) as [h|e]; [|done]. simplify_eq.
    unfold bind, newStartVote.
    rewrite Create_runs;
      [|done|by rewrite Ht0, Ht3, Ht2, Ht1; repeat constructor].
    eexists. split; [reflexivity|].
    split; [by apply trouble_free_answered|].
    cbn [tables with_tables]. rewrite Ht0.
    cbn [rows with_rows StartVotes start_votes].
    by rewrite app_assoc. }
  (* cast votes *)
  destruct (for_each_runs
              (fun v => do err <- newCastVote (convertCastVoteFromBitum v);
                        ret (Errorf "newCastVote: " <$> err))
              (fun pre t5 =>
                 t5 = with_rows CastVotes
                        (cast_votes (tables w4)
                         ++ (convertCastVoteFromBitum <$> pre)) (tables w4))
              (bitumplugin.InventoryReply.CastVotes ir) w4)
    as (w5 & -> & Hf5 & Ht5);
    [|done|by cbn [fmap list_fmap]; rewrite app_nil_r; destruct (tables w4)|].
  { intros pre a w0 _ Hf0 Ht0. unfold bind, newCastVote.
    rewrite Create_runs;
      [|done|by rewrite Ht0, Ht4, Ht3, Ht2, Ht1; repeat constructor].
    eexists. split; [reflexivity|].
    split; [by apply trouble_free_answered|].
    cbn [tables with_tables]. rewrite Ht0.
    cbn [rows with_rows CastVotes cast_votes].
    by rewrite fmap_app, app_assoc. }
  exists w5. split; [done|]. split; [done|].
  rewrite Ht5, Ht4, Ht3, Ht2, Ht1. by split_and!.
Qed.

Lemma dropped_plugin_tables t :
  let d := dropped dropped_tables t in
  existing d = filter (fun n => n ∉ dropped_tables) (existing t)
  /\ records d = records t /\ versions d = versions t
  /\ comments d = [] /\ comment_likes d = [] /\ cast_votes d = []
  /\ authorize_votes d = [] /\ start_votes d = [] /\ vote_results d = [].
Proof. by split_and!. Qed.

Lemma no_plugin_version_left (l : list Version.t) :
  filter (fun v => Version.ID v = bitumplugin.ID)
         (filter (fun v => ~ Version.ID v = bitumplugin.ID) l) = [].
Proof.
  induction l as [|v l IH]; [done|].
  destruct (decide (Version.ID v = bitumplugin.ID)) as [Hv|Hv].
  - by rewrite (filter_cons_False (fun v => ~ _)) by (by intros []).
  - rewrite (filter_cons_True (fun v => ~ _)) by done.
    by rewrite filter_cons_False.
Qed.

(** A rebuild that goes through.  When [Build] returns [nil] (every
    insert of the replay was accepted), on a store that answers and has a
    versions table and with an inventory that can be replayed, it leaves
    the cache as the inventory has it, whatever the plugin tables held
    before: the comments, likes, start votes and cast votes are those of the
    inventory in its order, the authorize votes are those of the inventory
    put in one after the other (a later one replaces an earlier one of the
    same key), and the vote results are gone, to be loaded again.  The
    records are untouched, the version records of the other plugins are
    kept, the plugin has one fresh version record, and [CheckVersion]
    passes. *)
Theorem Build_rebuilds_from_inventory payload ir w :
  bitumplugin.DecodeInventoryReply payload = Ok ir ->
  trouble_free w -> tableVersions ∈ existing (tables w) -> replayable ir ->
  (Build payload w).1 = Returned None ->
  let t := tables w in
  let t' := tables (Build payload w).2 in
  (forall n, n ∈ existing t' <-> n ∈ existing t \/ n ∈ created_tables)
  /\ records t' = records t
  /\ versions t'
     = filter (fun v => ~ Version.ID v = bitumplugin.ID) (versions t)
       ++ [version_record (clock w)]
  /\ comments t'
     = convertCommentFromBitum <$> bitumplugin.InventoryReply.Comments ir
  /\ comment_likes t'
     = convertLikeCommentFromBitum
         <$> bitumplugin.InventoryReply.LikeComments ir
  /\ authorize_votes t'
     = foldl replaced []
         (omap (inventory_authorize_vote ir)
               (bitumplugin.InventoryReply.AuthorizeVotes ir))
  /\ start_votes t'
     = omap inventory_start_vote
         (bitumplugin.InventoryReply.StartVoteTuples ir)
  /\ cast_votes t'
     = convertCastVoteFromBitum <$> bitumplugin.InventoryReply.CastVotes ir
  /\ vote_results t' = []
  /\ (CheckVersion (Build payload w).2).1 = None.
Proof.
  intros Hd Hf Hv Hir _ t t'. subst t t'.
  destruct (dropTables_runs w Hf Hv) as (tx1 & Hdrop & Hftx1 & _ & Htx1).
  destruct (transaction_runs dropTables w tx1 Hdrop Hftx1)
    as (w1 & Hrun1 & Hf1 & Hc1 & Ht1).
  rewrite Htx1 in Ht1.
  destruct (dropped_plugin_tables (tables w))
    as (De & Dr & Dv & Dc & Dl & Dcv & Dav & Dsv & Dvr).
  assert (tableVersions ∈ existing (tables w1)) as Hv1.
  { rewrite Ht1. cbn [existing with_rows Versions]. rewrite De.
    apply list_elem_of_filter. split; [by compute_done|done]. }
  destruct (createTables_runs w1 Hf1 Hv1) as (tx2 & Hcreate & Hftx2 & _ & Htx2).
  destruct (transaction_runs createTables w1 tx2 Hcreate Hftx2)
    as (w2 & Hrun2 & Hf2 & Hc2 & Ht2).
  rewrite Htx2, Hc1 in Ht2.
  destruct (set_up_spec (clock w) (tables w1)) as (Sex & Srows & Sv).
  rewrite <- Ht2 in Sex, Srows, Sv.
  destruct (replay_runs ir w2 Hf2 Hir)
    as (w3 & Hreplay & Hf3 & Re & Rr & Rv & Rvr & Rc & Rl & Rav & Rsv & Rcv).
  { apply Forall_forall. intros n Hn. apply Sex. by right. }
  assert (build ir w = (None, w3)) as Hbuild.
  { unfold build, bind. by rewrite Hrun1, Hrun2. }
  assert (Build payload w = (Returned None, w3)) as ->.
  { unfold Build, bind. by rewrite Hd, Hbuild. }
  cbn [fst snd].
  assert (versions (tables w3)
          = filter (fun v => ~ Version.ID v = bitumplugin.ID)
                   (versions (tables w))
            ++ [version_record (clock w)]) as Hversions.
  { rewrite Rv, Sv. unfold plugin_versions. rewrite Ht1.
    cbn [versions with_rows Versions].
    by rewrite no_plugin_version_left. }
  assert (forall n, n ∈ existing (tables w3)
                    <-> n ∈ existing (tables w) \/ n ∈ created_tables) as Hex.
  { intros n. rewrite Re, Sex, Ht1. cbn [existing with_rows Versions].
    rewrite De, list_elem_of_filter.
    change dropped_tables with created_tables.
    destruct (decide (n ∈ created_tables)); tauto. }
  pose proof (f_equal records Srows) as Sr.
  pose proof (f_equal comments Srows) as Sc.
  pose proof (f_equal comment_likes Srows) as Sl.
  pose proof (f_equal authorize_votes Srows) as Sav.
  pose proof (f_equal start_votes Srows) as Ssv.
  pose proof (f_equal cast_votes Srows) as Scv.
  pose proof (f_equal vote_results Srows) as Svr.
  cbn [records comments comment_likes authorize_votes start_votes cast_votes
       vote_results with_existing with_rows Versions] in *.
  rewrite Ht1 in Sr, Sc, Sl, Sav, Ssv, Scv, Svr.
  cbn [records comments comment_likes authorize_votes start_votes cast_votes
       vote_results with_existing with_rows Versions] in *.
  split_and!; try done.
  - by rewrite Rr, Sr, Dr.
  - by rewrite Rc, Sc, Dc.
  - by rewrite Rl, Sl, Dl.
  - by rewrite Rav, Sav, Dav.
  - by rewrite Rsv, Ssv, Dsv.
  - by rewrite Rcv, Scv, Dcv.
  - by rewrite Rvr, Svr, Dvr.
  - rewrite CheckVersion_runs by done.
    rewrite decide_True by (apply Hex; left; done).
    unfold plugin_versions. rewrite Hversions, filter_app.
    rewrite no_plugin_version_left. by rewrite filter_cons_True.
Qed.

End RebuildRuns.

(** * The test cache *)

Module testcache_facts.

Import testcache.

Lemma lookup_with_token (m : gmap string (gmap string bitumplugin.AuthorizeVote.t))
    token versions t :
  default ∅ (<[token := versions]> m !! t)
  = if decide (t = token) then versions else default ∅ (m !! t).
Proof.
  destruct (decide (t = token)) as [->|Hne].
  - by rewrite lookup_insert_eq.
  - by rewrite lookup_insert_ne.
Qed.

(** The map that [voteDetails] makes sure of reads as before. *)
Lemma ensured_reads (m : gmap string (gmap string bitumplugin.AuthorizeVote.t))
    token t :
  default ∅ (match m !! token with
             | Some _ => m
             | None => <[token := ∅]> m
             end !! t)
  = default ∅ (m !! t).
Proof.
  destruct (m !! token) as [versions|] eqn:Hm; [done|].
  rewrite lookup_with_token. destruct (decide (t = token)) as [->|]; [|done].
  by rewrite Hm.
Qed.

#[local] Instance same_view_equivalence : Equivalence same_view.
Proof.
  split.
  - by intros c.
  - intros c c' (? & ? & ? & ?). by split_and!.
  - intros c1 c2 c3 (? & ? & ? & H12) (? & ? & ? & H23).
    split_and!; try congruence.
Qed.

Section Commands.

Context `{codec : bitumplugin.Codec}.
Variable record : string -> result string.

(** What [voteDetails] answers, in terms of the maps as they are read. *)
Lemma voteDetails_reply payload vd version c :
  bitumplugin.DecodeVoteDetails payload = Ok vd ->
  record (bitumplugin.VoteDetails.Token vd) = Ok version ->
  let token := bitumplugin.VoteDetails.Token vd in
  (voteDetails record payload c).1
  = reply_of
      (bitumplugin.EncodeVoteDetailsReply
         {| bitumplugin.VoteDetailsReply.AuthorizeVote :=
              authorizeVote_of c token version;
            bitumplugin.VoteDetailsReply.StartVote :=
              default zero_StartVote (startVotes c !! token);
            bitumplugin.VoteDetailsReply.StartVoteReply :=
              default zero_StartVoteReply (startVoteReplies c !! token) |}).
Proof.
  intros Hd Hr token. unfold voteDetails. rewrite Hd. cbv zeta.
  rewrite Hr. fold token.
  assert (authorizeVote_of
            match authorizeVotes c !! token with
            | Some _ => c
            | None => with_authorizeVotes (<[token:=∅]> (authorizeVotes c)) c
            end token version
          = authorizeVote_of c token version) as ->.
  { unfold authorizeVote_of. destruct (authorizeVotes c !! token) eqn:Hm;
      [by rewrite Hm|]. cbn [authorizeVotes with_authorizeVotes].
    by rewrite lookup_insert_eq. }
  destruct (authorizeVotes c !! token);
    cbn [startVotes startVoteReplies with_authorizeVotes];
    by destruct (bitumplugin.EncodeVoteDetailsReply _).
Qed.

Lemma voteDetails_same_view payload c :
  same_view c (voteDetails record payload c).2.
Proof.
  unfold voteDetails.
  destruct (bitumplugin.DecodeVoteDetails payload) as [vd|e]; [|done].
  destruct (record _) as [version|e]; [|done]. cbv zeta.
  assert (same_view c
            match authorizeVotes c !! bitumplugin.VoteDetails.Token vd with
            | Some _ => c
            | None =>
                with_authorizeVotes
                  (<[bitumplugin.VoteDetails.Token vd:=∅]> (authorizeVotes c)) c
            end) as Hsame.
  { split_and!; try by destruct (authorizeVotes c !! _).
    intros token.
    rewrite <- (ensured_reads (authorizeVotes c)
                  (bitumplugin.VoteDetails.Token vd) token).
    by destruct (authorizeVotes c !! _). }
  by destruct (bitumplugin.EncodeVoteDetailsReply _).
Qed.

(** No command tells two states with the same view apart, and the states
    keep the same view. *)
Lemma bitumExec_same_view cmd cmdPayload replyPayload c c' :
  same_view c c' ->
  (bitumExec record cmd cmdPayload replyPayload c).1
  = (bitumExec record cmd cmdPayload replyPayload c').1
  /\ same_view (bitumExec record cmd cmdPayload replyPayload c).2
               (bitumExec record cmd cmdPayload replyPayload c').2.
Proof.
  intros Hsame. pose proof Hsame as (Hc & Hsv & Hsvr & Hav).
  unfold bitumExec. repeat case_decide.
  - unfold getComments.
    destruct (bitumplugin.DecodeGetComments _) as [gc|e]; [|done].
    rewrite Hc. by destruct (bitumplugin.EncodeGetCommentsReply _).
  - unfold authorizeVote.
    destruct (bitumplugin.DecodeAuthorizeVote _) as [av|e]; [|done].
    destruct (bitumplugin.DecodeAuthorizeVoteReply _) as [avr|e]; [|done].
    cbv zeta. cbn [fst snd bitumplugin.AuthorizeVote.Token].
    split; [done|]. split_and!; [exact Hc|exact Hsv|exact Hsvr|].
    intros token.
    cbn [authorizeVotes with_authorizeVotes].
    rewrite !lookup_with_token. by rewrite !Hav.
  - unfold startVote.
    destruct (bitumplugin.DecodeStartVote _) as [sv|e]; [|done].
    destruct (bitumplugin.DecodeStartVoteReply _) as [svr|e]; [|done].
    cbn [fst snd]. split; [done|].
    split_and!; cbn [comments startVotes startVoteReplies authorizeVotes
                     with_startVote]; by try congruence.
  - split.
    + unfold voteDetails.
      destruct (bitumplugin.DecodeVoteDetails _) as [vd|e] eqn:Hd; [|done].
      destruct (record _) as [version|e] eqn:Hr; [|done].
      pose proof (voteDetails_reply cmdPayload vd version c Hd Hr) as Hr1.
      pose proof (voteDetails_reply cmdPayload vd version c' Hd Hr) as Hr2.
      unfold voteDetails in Hr1, Hr2. rewrite Hd, Hr in Hr1, Hr2.
      rewrite Hr1, Hr2. unfold authorizeVote_of. by rewrite Hsv, Hsvr, Hav.
    + etrans; [symmetry; apply voteDetails_same_view|].
      etrans; [exact Hsame|]. apply voteDetails_same_view.
  - done.
Qed.

Lemma replies_same_view cmds c c' :
  same_view c c' -> replies record cmds c = replies record cmds c'.
Proof.
  revert c c'. induction cmds as [|[[cmd cmdPayload] replyPayload] cmds IH];
    intros c c' Hsame; [done|].
  destruct (bitumExec_same_view cmd cmdPayload replyPayload c c' Hsame)
    as [Hreply Hnext].
  simpl. destruct (bitumExec record cmd cmdPayload replyPayload c) as [r c1].
  destruct (bitumExec record cmd cmdPayload replyPayload c') as [r' c1'].
  cbn [fst snd] in *. rewrite Hreply. f_equal. by apply IH.
Qed.

(** The vote details of the test cache write to the cache: they give the
    token an empty map of authorize votes when it has none.  No command
    shows it: after a vote-details command, whatever its payload, every
    list of commands gets the replies it would have got without it.  The
    comments, start votes and start vote replies are not touched, and the
    authorize votes read as before. *)
Theorem voteDetails_is_not_observed payload cmds c :
  let c' := (voteDetails record payload c).2 in
  replies record cmds c' = replies record cmds c
  /\ comments c' = comments c
  /\ startVotes c' = startVotes c
  /\ startVoteReplies c' = startVoteReplies c
  /\ forall token version,
       authorizeVote_of c' token version = authorizeVote_of c token version.
Proof.
  intros c'. pose proof (voteDetails_same_view payload c) as Hsame.
  fold c' in Hsame. split; [symmetry; by apply replies_same_view|].
  destruct Hsame as (Hc & Hsv & Hsvr & Hav).
  split_and!; [done..|]. intros token version.
  unfold authorizeVote_of. by rewrite Hav.
Qed.

(** An authorize vote, then the vote details.  The command returns the
    reply payload as it came and stores the authorize vote, with the
    receipt and the timestamp of the reply, under the token and the record
    version of the reply; the authorize votes of the other tokens and of the
    other versions of the token read as before (so a second authorize vote
    for the same token and version replaces the first), and the start votes
    are not touched.  When the latest record of the token has that version,
    the vote details return this authorize vote. *)
Theorem authorize_vote_then_vote_details
    cmdPayload replyPayload av avr detailsPayload vd c :
  bitumplugin.DecodeAuthorizeVote cmdPayload = Ok av ->
  bitumplugin.DecodeAuthorizeVoteReply replyPayload = Ok avr ->
  bitumplugin.DecodeVoteDetails detailsPayload = Ok vd ->
  let token := bitumplugin.AuthorizeVote.Token av in
  let version := bitumplugin.AuthorizeVoteReply.RecordVersion avr in
  bitumplugin.VoteDetails.Token vd = token ->
  record token = Ok version ->
  let stored :=
    {| bitumplugin.AuthorizeVote.Action := bitumplugin.AuthorizeVote.Action av;
       bitumplugin.AuthorizeVote.Token := token;
       bitumplugin.AuthorizeVote.Signature :=
         bitumplugin.AuthorizeVote.Signature av;
       bitumplugin.AuthorizeVote.PublicKey :=
         bitumplugin.AuthorizeVote.PublicKey av;
       bitumplugin.AuthorizeVote.Receipt :=
         bitumplugin.AuthorizeVoteReply.Receipt avr;
       bitumplugin.AuthorizeVote.Timestamp :=
         bitumplugin.AuthorizeVoteReply.Timestamp avr |} in
  let c' := (authorizeVote cmdPayload replyPayload c).2 in
  (authorizeVote cmdPayload replyPayload c).1 = (replyPayload, None)
  /\ authorizeVote_of c' token version = stored
  /\ (forall token' version',
        token' <> token \/ version' <> version ->
        authorizeVote_of c' token' version' = authorizeVote_of c token' version')
  /\ comments c' = comments c
  /\ startVotes c' = startVotes c
  /\ startVoteReplies c' = startVoteReplies c
  /\ (voteDetails record detailsPayload c').1
     = reply_of
         (bitumplugin.EncodeVoteDetailsReply
            {| bitumplugin.VoteDetailsReply.AuthorizeVote := stored;
               bitumplugin.VoteDetailsReply.StartVote :=
                 default zero_StartVote (startVotes c !! token);
               bitumplugin.VoteDetailsReply.StartVoteReply :=
                 default zero_StartVoteReply (startVoteReplies c !! token) |}).
Proof.
  intros Hav Havr Hvd token version Htoken Hrecord stored c'.
  assert (authorizeVote cmdPayload replyPayload c
          = ((replyPayload, None),
             with_authorizeVotes
               (<[token := <[version := stored]>
                             (default ∅ (authorizeVotes c !! token))]>
                  (authorizeVotes c)) c)) as Hrun.
  { unfold authorizeVote. by rewrite Hav, Havr. }
  subst c'. rewrite Hrun. cbn [fst snd].
  assert (authorizeVote_of
            (with_authorizeVotes
               (<[token := <[version := stored]>
                             (default ∅ (authorizeVotes c !! token))]>
                  (authorizeVotes c)) c) token version = stored) as Hstored.
  { unfold authorizeVote_of. cbn [authorizeVotes with_authorizeVotes].
    rewrite lookup_insert_eq.
    change (default ∅ (Some ?m)) with m. by rewrite lookup_insert_eq. }
  split_and!; try done.
  - intros token' version' Hother. unfold authorizeVote_of.
    cbn [authorizeVotes with_authorizeVotes]. rewrite lookup_with_token.
    destruct (decide (token' = token)) as [->|]; [|done].
    destruct Hother as [|Hv]; [done|]. by rewrite lookup_insert_ne.
  - rewrite (voteDetails_reply detailsPayload vd version)
      by (by rewrite ?Htoken).
    by rewrite Htoken, Hstored.
Qed.

(** A start vote, then the vote details.  The command returns the reply
    payload as it came and stores the start vote and its reply under the
    token of the vote, in place of what the token had; the vote details of
    the token then return them, beside the authorize vote of the latest
    version of the record, and the same vote details of another token are
    as before. *)
Theorem testcache_start_vote_then_vote_details
    cmdPayload replyPayload sv svr detailsPayload vd version c :
  bitumplugin.DecodeStartVote cmdPayload = Ok sv ->
  bitumplugin.DecodeStartVoteReply replyPayload = Ok svr ->
  bitumplugin.DecodeVoteDetails detailsPayload = Ok vd ->
  let token := bitumplugin.VoteDetails.Token vd in
  let started := bitumplugin.Vote.Token (bitumplugin.StartVote.Vote sv) in
  record token = Ok version ->
  let c' := (startVote cmdPayload replyPayload c).2 in
  (startVote cmdPayload replyPayload c).1 = (replyPayload, None)
  /\ (voteDetails record detailsPayload c').1
     = if decide (token = started) then
         reply_of
           (bitumplugin.EncodeVoteDetailsReply
              {| bitumplugin.VoteDetailsReply.AuthorizeVote :=
                   authorizeVote_of c token version;
                 bitumplugin.VoteDetailsReply.StartVote := sv;
                 bitumplugin.VoteDetailsReply.StartVoteReply := svr |})
       else (voteDetails record detailsPayload c).1.
Proof.
  intros Hsv Hsvr Hvd token started Hrecord c'.
  assert (startVote cmdPayload replyPayload c
          = ((replyPayload, None), with_startVote started sv svr c)) as Hrun.
  { unfold startVote. by rewrite Hsv, Hsvr. }
  subst c'. rewrite Hrun. cbn [fst snd]. split; [done|].
  rewrite !(voteDetails_reply detailsPayload vd version) by done.
  fold token. unfold authorizeVote_of.
  cbn [authorizeVotes startVotes startVoteReplies with_startVote].
  destruct (decide (token = started)) as [->|Hne].
  - by rewrite !lookup_insert_eq.
  - by rewrite !lookup_insert_ne.
Qed.

End Commands.

End testcache_facts.

(** ** Comments and likes: insert, then list *)


Section Listings.

Context `{codec : bitumplugin.Codec}.



End Listings.

(** ** The further properties on the sample data *)

Module Further.

Import Sample.

Lemma query_commands_change_no_table_witness :
  tables (@Exec codec bitumplugin.CmdInventory "" "" (world commented [])).2
  = commented
  /\ tables (@Exec codec bitumplugin.CmdTokenInventory "block 100" ""
               (world five_votes [Some boom])).2
     = five_votes.
Proof.
  split.
  - apply (@query_commands_change_no_table codec bitumplugin.CmdInventory
             "" "" (world commented [])).
    compute_done.
  - apply (@query_commands_change_no_table codec
             bitumplugin.CmdTokenInventory "block 100" ""
             (world five_votes [Some boom])).
    compute_done.
Defined.

Lemma four_votes_results_ended vr sv :
  vr ∈ vote_results four_votes -> sv ∈ start_votes four_votes ->
  VoteResults.Token vr = StartVote.Token sv -> StartVote.EndHeight sv <= 100.
Proof.
  intros Hvr Hsv.
  repeat (apply elem_of_cons in Hvr as [->|Hvr]);
    [..|by apply elem_of_nil in Hvr];
    (repeat (apply elem_of_cons in Hsv as [->|Hsv]);
     [..|by apply elem_of_nil in Hsv]);
    vm_compute; congruence.
Qed.

Lemma four_votes_one_outcome vr vr' :
  vr ∈ vote_results four_votes -> vr' ∈ vote_results four_votes ->
  VoteResults.Token vr = VoteResults.Token vr' ->
  VoteResults.Approved vr = VoteResults.Approved vr'.
Proof.
  intros Hvr Hvr'.
  repeat (apply elem_of_cons in Hvr as [->|Hvr]);
    [..|by apply elem_of_nil in Hvr];
    (repeat (apply elem_of_cons in Hvr' as [->|Hvr']);
     [..|by apply elem_of_nil in Hvr']);
    vm_compute; congruence.
Qed.

Lemma token_buckets_disjoint_witness :
  "a" ∈ results_query true four_votes
  /\ ~ ("a" ∈ results_query true four_votes
        /\ "a" ∈ results_query false four_votes)
  /\ ~ ("a" ∈ active_query 100 four_votes
        /\ "a" ∈ results_query true four_votes).
Proof.
  destruct (token_buckets_disjoint 100 four_votes "a"
              four_votes_results_ended four_votes_one_outcome)
    as (_ & _ & _ & Hactive & _ & Hboth).
  split; [compute_done|]. split; [exact Hboth|exact Hactive].
Defined.

Lemma newVoteResults_tallies_witness :
  let w := world short_of_quorum [] in
  trouble_free w
  /\ (newVoteResults "tok" w).1 = None
  /\ tables (newVoteResults "tok" w).2
     = with_rows VoteResultsT
         [{| VoteResults.Token := "tok";
             VoteResults.Approved := true;
             VoteResults.Results :=
               [{| VoteOptionResult.Key := "tok2";
                   VoteOptionResult.Votes := 28;
                   VoteOptionResult.Option := yes |};
                {| VoteOptionResult.Key := "tok1";
                   VoteOptionResult.Votes := 0;
                   VoteOptionResult.Option := no |}] |}]
         short_of_quorum.
Proof.
  intros w.
  assert (Hf : trouble_free w) by constructor.
  assert (Hns : Forall (fun n => n ∈ existing (tables w))
                  [tableStartVotes; tableVoteOptions; tableCastVotes;
                   tableVoteResults; tableVoteOptionResults])
    by compute_done.
  assert (Hnew : Forall (fun vr => VoteResults.Token vr <> "tok")
                        (vote_results (tables w))) by constructor.
  assert (Hok : (newVoteResults "tok" w).1 = None)
    by (vm_compute; reflexivity).
  split; [exact Hf|]. split; [exact Hok|].
  pose proof (newVoteResults_tallies "tok" w Hf Hns Hnew Hok) as Htally.
  vm_compute in Htally. vm_compute. exact Htally.
Defined.

Lemma load_vote_results_then_token_inventory_witness :
  let w := world five_votes [] in
  let w' := (@cmdLoadVoteResults codec "block 100" w).2 in
  @cmdLoadVoteResults codec "block 100" w = (("{}", None), w')
  /\ trouble_free w'
  /\ finished_without_results 100 (tables w) = ["e"]
  /\ finished_without_results 100 (tables w') = []
  /\ (@cmdTokenInventory codec "block 100" w').1
     = ("pre= active=d,c approved=a rejected=e,b abandoned=", None).
Proof.
  intros w w'.
  assert (Hrun : @cmdLoadVoteResults codec "block 100" w = (("{}", None), w'))
    by reflexivity.
  assert (Hf : trouble_free w') by constructor.
  assert (Hns : Forall (fun n => n ∈ existing (tables w'))
                  [tableStartVotes; tableVoteResults; tableRecords])
    by compute_done.
  destruct (@load_vote_results_then_token_inventory codec
              "block 100" {| bitumplugin.LoadVoteResults.BestBlock := 100 |}
              "block 100" {| bitumplugin.TokenInventory.BestBlock := 100 |}
              w "{}" w' eq_refl eq_refl (Z.le_refl 100) Hrun Hf Hns)
    as (_ & Hnone & Hreply).
  split; [exact Hrun|]. split; [exact Hf|]. split; [reflexivity|].
  split; [exact Hnone|]. rewrite Hreply. reflexivity.
Defined.

Lemma new_comment_then_get_comment_witness :
  let w := world commented [] in
  let w' := (@cmdNewComment Forum.codec "comment" "reply" w).2 in
  @cmdNewComment Forum.codec "comment" "reply" w = (("reply", None), w')
  /\ (@cmdGetComment Forum.codec "get 3" w).1
     = ("", Some cache_ErrRecordNotFound)
  /\ (@cmdGetComment Forum.codec "get 3" w').1 = ("3: third", None)
  /\ Comment.Key <$> comments (tables w') = ["tok1"; "tok2"; "tok3"].
Proof.
  intros w w'.
  assert (Hrun : @cmdNewComment Forum.codec "comment" "reply" w
                 = (("reply", None), w')) by reflexivity.
  assert (Hfresh : Forall (fun old => Comment.Key old <> "tok3")
                          (comments (tables w))) by compute_done.
  assert (Hf : trouble_free w) by constructor.
  assert (Hf' : trouble_free w') by constructor.
  destruct (@new_comment_then_get_comment Forum.codec "comment" "reply"
              Forum.new_comment Forum.new_comment_reply "get 3"
              (Forum.get "3") w "reply" w' eq_refl eq_refl eq_refl eq_refl
              Hfresh Hrun Hf Hf')
    as (Hbefore & _ & Htables & Hafter).
  split; [exact Hrun|]. split; [exact Hbefore|].
  split; [rewrite Hafter; reflexivity|]. rewrite Htables. reflexivity.
Defined.

Lemma censor_comment_then_get_comment_witness :
  let w := world commented [] in
  let w' := (@cmdCensorComment Forum.codec "censor 1" "censored" w).2 in
  @cmdCensorComment Forum.codec "censor 1" "censored" w
  = (("censored", None), w')
  /\ (@cmdGetComment Forum.codec "get 1" w).1 = ("1: hello", None)
  /\ (@cmdGetComment Forum.codec "get 1" w').1 = ("1: ", None).
Proof.
  intros w w'.
  assert (Hrun : @cmdCensorComment Forum.codec "censor 1" "censored" w
                 = (("censored", None), w')) by reflexivity.
  assert (Hf' : trouble_free w') by constructor.
  destruct (@censor_comment_then_get_comment Forum.codec "censor 1"
              "censored" (censor "1") "get 1" (Forum.get "1") w "censored" w'
              (comment_row "1" "hello") [] eq_refl eq_refl eq_refl eq_refl
              Hrun Hf')
    as (Hafter & _).
  split; [exact Hrun|]. split; [reflexivity|]. rewrite Hafter. reflexivity.
Defined.

Lemma comment_inserts_echo_reply_witness :
  let failing := world commented [Some boom] in
  let working := world commented [] in
  @cmdNewComment Forum.codec "comment" "reply" failing
  = (("reply", Some boom), world commented [])
  /\ (@cmdLikeComment Forum.codec "like" "liked" working).1 = ("liked", None)
  /\ length (comment_likes
               (tables (@cmdLikeComment Forum.codec "like" "liked"
                          (@cmdLikeComment Forum.codec "like" "liked"
                             working).2).2))
     = 2%nat.
Proof.
  intros failing working.
  destruct (@comment_inserts_echo_reply Forum.codec "comment" "reply"
              Forum.new_comment Forum.new_comment_reply "like" "liked"
              Forum.like working eq_refl eq_refl eq_refl)
    as (_ & _ & _ & _ & Htwice).
  split; [reflexivity|]. split; [reflexivity|].
  rewrite (Htwice eq_refl eq_refl). reflexivity.
Defined.

Lemma CheckVersion_verdict_witness :
  (CheckVersion (world commented [])).1 = None
  /\ (CheckVersion (world Forum.outdated [])).1 = Some cache_ErrWrongVersion
  /\ (CheckVersion (world no_rows [])).1 = Some cache_ErrNoVersionRecord
  /\ (CheckVersion (world commented [Some boom])).1
     = Some (errorString "versions table not found")
  /\ (CheckVersion (world commented [None; Some boom])).1
     = Some cache_ErrWrongVersion.
Proof.
  split_and!.
  - rewrite (proj1 (CheckVersion_verdict (world commented [])));
      [reflexivity|constructor].
  - rewrite (proj1 (CheckVersion_verdict (world Forum.outdated [])));
      [reflexivity|constructor].
  - rewrite (proj1 (CheckVersion_verdict (world no_rows [])));
      [reflexivity|constructor].
  - reflexivity.
  - reflexivity.
Defined.

Lemma Setup_creates_tables_and_version_witness :
  let w := world Forum.bare [] in
  (Setup w).1 = None
  /\ existing (tables (Setup w).2)
     = [tableVoteResults; tableVoteOptionResults; tableStartVotes;
        tableVoteOptions; tableAuthorizeVotes; tableCastVotes;
        tableCommentLikes; tableComments; tableRecords; tableVersions]
  /\ versions (tables (Setup w).2) = [version_record 1572393600]
  /\ tables (Setup (Setup w).2).2 = tables (Setup w).2.
Proof.
  intros w.
  assert (Hf : trouble_free w) by constructor.
  assert (Hv : tableVersions ∈ existing (tables w)) by compute_done.
  destruct (Setup_creates_tables_and_version w Hf Hv)
    as (Hnil & _ & _ & Hversions & _ & Hagain).
  split; [exact Hnil|]. split; [reflexivity|].
  split; [rewrite Hversions; reflexivity|exact Hagain].
Defined.

Lemma Setup_then_CheckVersion_witness :
  (CheckVersion (Setup (world Forum.bare [])).2).1 = None
  /\ (CheckVersion (Setup (world Forum.outdated [])).2).1
     = Some cache_ErrWrongVersion.
Proof.
  split.
  - rewrite (Setup_then_CheckVersion (world Forum.bare []));
      [reflexivity|constructor|compute_done].
  - rewrite (Setup_then_CheckVersion (world Forum.outdated []));
      [reflexivity|constructor|compute_done].
Defined.

Lemma Setup_without_versions_table_witness :
  let w := world (with_existing [tableRecords] no_rows) [] in
  (Setup w).1 = Some (errorString "versions table not found")
  /\ existing (tables (Setup w).2) = [tableRecords].
Proof.
  intros w.
  assert (Hf : trouble_free w) by constructor.
  assert (Hv : tableVersions ∉ existing (tables w)) by compute_done.
  destruct (Setup_without_versions_table w Hf Hv) as (Herr & Htables).
  split; [exact Herr|]. rewrite Htables. reflexivity.
Defined.

Lemma vote_summary_same_once_results_are_stored_witness :
  let w := world Polls.voting [] in
  vote_results (tables w) = []
  /\ VoteResults.Token <$> vote_results (tables (newVoteResults "tok" w).2)
     = ["tok"]
  /\ (@cmdVoteSummary Polls.codec "tok" w).1 = ("yes=2,no=1", None)
  /\ (@cmdVoteSummary Polls.codec "tok" (newVoteResults "tok" w).2).1
     = ("yes=2,no=1", None).
Proof.
  intros w.
  assert (Hf : trouble_free w) by constructor.
  assert (Hns : Forall (fun n => n ∈ existing (tables w))
                  [tableRecords; tableAuthorizeVotes; tableStartVotes;
                   tableVoteOptions; tableVoteResults; tableVoteOptionResults;
                   tableCastVotes]) by compute_done.
  assert (Hcast : Forall (well_formed_cast_vote "tok") (cast_votes (tables w)))
    by (repeat constructor).
  assert (Hopts : Forall (fun sv => StartVote.Token sv = "tok" ->
                                    Forall (fun v => VoteOption.Token v = "tok")
                                           (StartVote.Options sv))
                         (start_votes (tables w)))
    by (repeat constructor).
  assert (Hfew : Z.of_nat (length (cast_votes (tables w))) < 2 ^ 64)
    by (vm_compute; reflexivity).
  pose proof (@vote_summary_same_once_results_are_stored Polls.codec "tok"
                {| bitumplugin.VoteSummary.Token := "tok" |} w
                eq_refl Hf Hns eq_refl Hcast Hopts Hfew) as Hsame.
  split; [reflexivity|]. split; [reflexivity|]. split; [reflexivity|].
  etrans; [exact Hsame|reflexivity].
Defined.


Lemma start_vote_then_vote_details_witness :
  let w := world Polls.registered [] in
  let w' := (@cmdStartVote Polls.codec "start" "started" w).2 in
  @cmdStartVote Polls.codec "start" "started" w = (("started", None), w')
  /\ (@cmdVoteDetails Polls.codec "tok" w).1 = (" ends=0 tickets=", None)
  /\ (@cmdVoteDetails Polls.codec "tok" w').1
     = (" ends=2116 tickets=t1,t2,t3", None).
Proof.
  intros w w'.
  assert (Hrun : @cmdStartVote Polls.codec "start" "started" w
                 = (("started", None), w')) by reflexivity.
  assert (Hfresh : Forall (fun old => StartVote.Token old <> "tok")
                          (start_votes (tables w))) by constructor.
  assert (Hf' : trouble_free w') by constructor.
  assert (Hns : Forall (fun n => n ∈ existing (tables w'))
                  [tableRecords; tableAuthorizeVotes; tableStartVotes;
                   tableVoteOptions]) by compute_done.
  destruct (@start_vote_then_vote_details Polls.codec "start" "started"
              Polls.wire_start_vote Polls.wire_start_vote_reply "tok"
              {| bitumplugin.VoteDetails.Token := "tok" |} w "started" w'
              eq_refl eq_refl eq_refl eq_refl Hfresh Hrun Hf' Hns)
    as (endHeight & Hparse & _ & _ & Hdetails).
  split; [exact Hrun|]. split; [reflexivity|].
  assert (endHeight = 2116) as -> by (vm_compute in Hparse; congruence).
  etrans; [exact Hdetails|reflexivity].
Defined.

Lemma Build_rebuilds_from_inventory_witness :
  let w := world commented [] in
  let t' := tables (@Build Polls.codec "inventory" w).2 in
  replayable Polls.inventory
  /\ Comment.Comment <$> comments (tables w) = ["hello"; "world"]
  /\ (@Build Polls.codec "inventory" w).1 = Returned None
  /\ Comment.Comment <$> comments t' = ["first"]
  /\ AuthorizeVote.Key <$> authorize_votes t' = ["tok1"]
  /\ StartVote.EndHeight <$> start_votes t' = [2116]
  /\ CastVote.Ticket <$> cast_votes t' = ["t1"; "t2"]
  /\ versions t' = [version_record 1572393600]
  /\ (CheckVersion (@Build Polls.codec "inventory" w).2).1 = None.
Proof.
  intros w t'.
  assert (Hir : replayable Polls.inventory).
  { split; repeat constructor; by eexists. }
  assert (Hf : trouble_free w) by constructor.
  assert (Hv : tableVersions ∈ existing (tables w)) by compute_done.
  assert (Hnil : (@Build Polls.codec "inventory" w).1 = Returned None)
    by (vm_compute; reflexivity).
  destruct (@Build_rebuilds_from_inventory Polls.codec "inventory"
              Polls.inventory w eq_refl Hf Hv Hir Hnil)
    as (_ & _ & Hversions & Hcomments & _ & Hav & Hsv & Hcv & _ & Hcheck).
  split; [exact Hir|]. split; [reflexivity|]. split; [exact Hnil|].
  subst t'. rewrite Hcomments, Hav, Hsv, Hcv, Hversions.
  repeat (split; [reflexivity|]). exact Hcheck.
Defined.

Lemma voteDetails_is_not_observed_witness :
  let c := Bench.empty in
  let c' := (@testcache.voteDetails Polls.codec Bench.record "tok" c).2 in
  testcache.authorizeVotes c !! "tok" = None
  /\ testcache.authorizeVotes c' !! "tok" = Some ∅
  /\ @testcache.replies Polls.codec Bench.record
       [(bitumplugin.CmdVoteDetails, "tok", "");
        (bitumplugin.CmdBallot, "ballot", "cast")] c'
     = [(" ends= tickets=", None); ("", Some cache_ErrInvalidPluginCmd)].
Proof.
  intros c c'.
  destruct (@testcache_facts.voteDetails_is_not_observed Polls.codec
              Bench.record "tok"
              [(bitumplugin.CmdVoteDetails, "tok", "");
               (bitumplugin.CmdBallot, "ballot", "cast")] c)
    as (Hreplies & _).
  split; [reflexivity|]. split; [reflexivity|].
  etrans; [exact Hreplies|reflexivity].
Defined.

Lemma authorize_vote_then_vote_details_witness :
  let c := Bench.empty in
  let c' := (@testcache.authorizeVote Polls.codec "authorize" "authorized" c).2 in
  (@testcache.voteDetails Polls.codec Bench.record "tok" c).1
  = (" ends= tickets=", None)
  /\ (@testcache.authorizeVote Polls.codec "authorize" "authorized" c).1
     = ("authorized", None)
  /\ bitumplugin.AuthorizeVote.Receipt (testcache.authorizeVote_of c' "tok" "1")
     = "rcpt-a"
  /\ (@testcache.voteDetails Polls.codec Bench.record "tok" c').1
     = ("authorize ends= tickets=", None).
Proof.
  intros c c'.
  destruct (@testcache_facts.authorize_vote_then_vote_details Polls.codec
              Bench.record "authorize" "authorized"
              (authorize "authorize" "sig-a")
              (authorize_reply "authorize" "rcpt-a" 100)
              "tok" {| bitumplugin.VoteDetails.Token := "tok" |} c
              eq_refl eq_refl eq_refl eq_refl eq_refl)
    as (Hreply & Hstored & _ & _ & _ & _ & Hdetails).
  split; [reflexivity|]. split; [exact Hreply|].
  split; [exact (f_equal bitumplugin.AuthorizeVote.Receipt Hstored)|].
  etrans; [exact Hdetails|reflexivity].
Defined.

Lemma testcache_start_vote_then_vote_details_witness :
  let c := Bench.empty in
  let c' := (@testcache.startVote Polls.codec "start" "started" c).2 in
  (@testcache.startVote Polls.codec "start" "started" c).1 = ("started", None)
  /\ (@testcache.voteDetails Polls.codec Bench.record "tok" c').1
     = (" ends=2116 tickets=t1,t2,t3", None).
Proof.
  intros c c'.
  destruct (@testcache_facts.testcache_start_vote_then_vote_details
              Polls.codec Bench.record "start" "started"
              Polls.wire_start_vote Polls.wire_start_vote_reply
              "tok" {| bitumplugin.VoteDetails.Token := "tok" |} "1" c
              eq_refl eq_refl eq_refl eq_refl)
    as (Hreply & Hdetails).
  split; [exact Hreply|]. etrans; [exact Hdetails|reflexivity].
Defined.



End Further.
